(** * modeld: the evaluation cycle of the driving-model front end

    A shallow embedding of [selfdrive/modeld/modeld.py]: the two sliding
    history windows and the desire edge detector of [ModelState.eval], the
    frame synchronisation of the two camera streams, the dropped-frame
    estimate and the calibration latch of the main loop.

    Conventions.
    - numpy arrays of floats are lists of rationals ([Q]): every finite
      float is a rational.  Where the result of the code turns on the float
      format (the edge test and the float32 stores of lines 74-75, the
      float32 cast of the warp matrices of lines 83 and 88) the rounding is
      written out with [Float.round]; the arithmetic of the warp matrices
      and of the drop-rate filter is exact, and the copies of lines 78-79
      keep the caller's values.  The values the loop itself
      builds (one-hot vectors, small integers) are exact in any float
      format.  Infinities and NaN are not modelled: arrays hold finite
      values, and a cast that would overflow is excluded by hypothesis
      where its result matters.
    - Python integers (frame ids, nanosecond timestamps, counters) are [Z].
    - A Python exception that the code does not catch ends the process; it
      is the [None] of an [option] result.
    - The collaborators that are not part of the file (frame transport,
      frame preprocessor, inference engine, calibration constants) are the
      fields of one record, [Collaborators], over which everything is
      parameterised. *)

From Stdlib Require Import String.
From Stdlib Require Import List ZArith QArith Qabs Lia Lqa Bool.
Import ListNotations.

Set Warnings "-abstract-large-number".

Local Open Scope Q_scope.

(** ** Constants (modeld.py, lines 17-25) *)

Definition FEATURE_LEN : nat := 128.
Definition HISTORY_BUFFER_LEN : nat := 99.
Definition DESIRE_LEN : nat := 8.
Definition TRAFFIC_CONVENTION_LEN : nat := 2.
Definition DRIVING_STYLE_LEN : nat := 12.
Definition NAV_FEATURE_LEN : nat := 256.
Definition OUTPUT_SIZE : nat := 5990.
Definition MODEL_OUTPUT_SIZE : nat := 6120.
Definition MODEL_FREQ : Z := 20.

(** ** The error monad of uncaught exceptions *)

Definition bind {A B : Type} (m : option A) (k : A -> option B) : option B :=
  match m with
  | Some a => k a
  | None => None
  end.

Notation "x <- m ;; k" := (bind m (fun x => k))
  (at level 61, m at next level, right associativity).

(** ** The float formats of numpy *)

Module Float.

(** The dtypes an array of the program has. *)
Inductive dtype : Type := Float32 | Float64.

(** The number of significant bits of a format, the exponent of its
    smallest positive (subnormal) value, and the exponent past its largest
    finite value. *)
Definition precision (dt : dtype) : Z :=
  match dt with Float32 => 24%Z | Float64 => 53%Z end.

Definition emin (dt : dtype) : Z :=
  match dt with Float32 => (-149)%Z | Float64 => (-1074)%Z end.

Definition emax (dt : dtype) : Z :=
  match dt with Float32 => 128%Z | Float64 => 1024%Z end.

(** The largest finite value of a format. *)
Definition max_finite (dt : dtype) : Q :=
  inject_Z ((2 ^ precision dt - 1) * 2 ^ (emax dt - precision dt)).

(** [(n / d) * 2 ^ s] as a fraction of integers. *)
Definition scale (n d s : Z) : Z * Z :=
  if (0 <=? s)%Z then ((n * 2 ^ s)%Z, d) else (n, (d * 2 ^ (- s))%Z).

(** The integer [f] with [2 ^ f <= n / d < 2 ^ (f + 1)]. *)
Definition floor_log2 (n d : positive) : Z :=
  let k := (Z.log2 (Zpos n) - Z.log2 (Zpos d))%Z in
  let (a, b) := scale (Zpos n) (Zpos d) (- k) in
  if (b <=? a)%Z then k else (k - 1)%Z.

(** The integer nearest to [a / b], a tie going to the even one. *)
Definition nearest_even (a b : Z) : Z :=
  let m := (a / b)%Z in
  let r := (a mod b)%Z in
  match (2 * r ?= b)%Z with
  | Lt => m
  | Gt => (m + 1)%Z
  | Eq => if Z.even m then m else (m + 1)%Z
  end.

(** The positive rational [n / d] rounded to a multiple of the unit in
    the last place: [p] significant bits, or fewer below [2 ^ (lo + p)]
    (subnormal values, down to 0). *)
Definition round_pos (p lo : Z) (n d : positive) : Q :=
  let e := Z.max (floor_log2 n d - (p - 1)) lo in
  let (a, b) := scale (Zpos n) (Zpos d) (- e) in
  let m := nearest_even a b in
  if (0 <=? e)%Z then (m * 2 ^ e)%Z # 1
  else Qred (m # Z.to_pos (2 ^ (- e))).

(** The value of the format nearest to [q] (round to nearest, ties to
    even: the rounding of IEEE 754 arithmetic and of numpy's casts), as a
    fraction in lowest terms.  Where the format would give an infinity
    (the result exceeds [max_finite]) the result is outside the model:
    see [finite]. *)
Definition round (dt : dtype) (q : Q) : Q :=
  let q' := Qred q in
  match Qnum q' with
  | Z0 => 0
  | Zpos n => round_pos (precision dt) (emin dt) n (Qden q')
  | Zneg n => - round_pos (precision dt) (emin dt) n (Qden q')
  end.

(** A Python float literal: the float64 value nearest to the decimal
    written. *)
Definition literal (q : Q) : Q := round Float64 q.


(** A value that the format holds exactly. *)
Definition exact (dt : dtype) (q : Q) : Prop :=
  round dt q = q /\ Qabs q <= max_finite dt.

Arguments round : simpl never.

End Float.

(** ** One-dimensional numpy arrays *)

Module Np.

Definition zeros (n : nat) : list Q := repeat 0 n.

(** [a[i] = v] for [i >= 0]; an index past the end raises IndexError. *)
Fixpoint setitem (i : nat) (v : Q) (a : list Q) : option (list Q) :=
  match a, i with
  | [], _ => None
  | _ :: t, O => Some (v :: t)
  | h :: t, S i' => t' <- setitem i' v t ;; Some (h :: t')
  end.

(** Broadcasting of a one-dimensional array to length [n]: the array has
    that length already, or it has length one and is repeated; any other
    shape raises ValueError. *)
Definition broadcast_to {A : Type} (d : A) (n : nat) (a : list A)
  : option (list A) :=
  if Nat.eqb (length a) n then Some a
  else if Nat.eqb (length a) 1 then Some (repeat (hd d a) n)
  else None.

(** The common shape of two one-dimensional operands. *)
Definition bshape (n m : nat) : option nat :=
  if Nat.eqb n m then Some n
  else if Nat.eqb n 1 then Some m
  else if Nat.eqb m 1 then Some n
  else None.

Fixpoint zip_with {A B C : Type} (f : A -> B -> C) (a : list A) (b : list B)
  : list C :=
  match a, b with
  | x :: a', y :: b' => f x y :: zip_with f a' b'
  | _, _ => []
  end.

(** [a.astype(dt)], and the cast of a store into an array of dtype [dt]. *)
Definition astype (dt : Float.dtype) (a : list Q) : list Q :=
  map (Float.round dt) a.

(** [a - b], elementwise with broadcasting; [dt] is the dtype of the
    result, to which every difference is rounded. *)
Definition sub (dt : Float.dtype) (a b : list Q) : option (list Q) :=
  n <- bshape (length a) (length b) ;;
  a' <- broadcast_to 0 n a ;;
  b' <- broadcast_to 0 n b ;;
  Some (zip_with (fun x y => Float.round dt (x - y)) a' b').

(** [a > c] for a Python scalar [c], elementwise: the comparison is made
    in the dtype [dt] of the array, to which the scalar is cast. *)
Definition gt (dt : Float.dtype) (a : list Q) (c : Q) : list bool :=
  map (fun x => negb (Qle_bool x (Float.round dt c))) a.

(** [np.where(cond, a, 0)]. *)
Definition where0 (cond : list bool) (a : list Q) : option (list Q) :=
  n <- bshape (length cond) (length a) ;;
  c' <- broadcast_to false n cond ;;
  a' <- broadcast_to 0 n a ;;
  Some (zip_with (fun (c : bool) x => if c then x else 0) c' a').

(** The slices [a[k:]], [a[:-k]], [a[-k:]] (for [k > 0]) and [a[i:j]]
    (for [i <= j]). *)
Definition from (k : nat) (a : list Q) : list Q := skipn k a.
Definition upto_last (k : nat) (a : list Q) : list Q :=
  firstn (length a - k) a.
Definition last_n (k : nat) (a : list Q) : list Q :=
  skipn (length a - k) a.
Definition slice (i j : nat) (a : list Q) : list Q :=
  firstn (j - i) (skipn i a).

(** [dst[:] = src]. *)
Definition assign_all (dst src : list Q) : option (list Q) :=
  broadcast_to 0 (length dst) src.

(** [dst[:-k] = src]. *)
Definition assign_upto_last (k : nat) (dst src : list Q) : option (list Q) :=
  src' <- broadcast_to 0 (length dst - k) src ;;
  Some (src' ++ skipn (length dst - k) dst).

(** [dst[-k:] = src]. *)
Definition assign_last_n (k : nat) (dst src : list Q) : option (list Q) :=
  src' <- broadcast_to 0 (length dst - (length dst - k)) src ;;
  Some (firstn (length dst - k) dst ++ src').

End Np.

(** ** Matrices (two-dimensional numpy arrays) *)

Definition Matrix : Type := list (list Q).

Definition zeros33 : Matrix := repeat (repeat 0 3%nat) 3%nat.

Definition dot (u v : list Q) : Q :=
  fold_right Qplus 0 (Np.zip_with Qmult u v).

Definition column (j : nat) (B : Matrix) : list Q :=
  map (fun r => nth j r 0) B.

(** [A @ B]. *)
Definition matmul (A B : Matrix) : Matrix :=
  map (fun row => map (fun j => dot row (column j B))
                      (seq 0 (length (hd [] B)))) A.

(** [M.flatten()]. *)
Definition flatten (M : Matrix) : list Q := concat M.

(** [M.astype(dt)]. *)
Definition matrix_astype (dt : Float.dtype) (M : Matrix) : Matrix :=
  map (Np.astype dt) M.

(** ** External collaborators *)

Record Collaborators : Type := {
  (** an opaque camera buffer handle ([VisionBuf]) *)
  VisionBuf : Type;
  (** a model-ready image tensor, as [ModelFrame.prepare] returns it *)
  Tensor : Type;
  (** the state a [ModelFrame] keeps between two calls of [prepare] *)
  ModelFrame : Type;
  new_frame : ModelFrame;
  (** a device buffer of the engine ([ONNXModel.getCLBuffer] returns one,
      or [None]) *)
  CLMem : Type;
  getCLBuffer : string -> option CLMem;
  (** [ModelFrame.prepare(buf, transform, output)] *)
  prepare : ModelFrame -> VisionBuf -> list Q -> option CLMem ->
            ModelFrame * Tensor;
  (** [ONNXModel.execute]: what the engine writes into the output buffer,
      from the two bound image tensors and the four bound input arrays
      (desire_pulse, traffic_convention, nav_features, feature_buffer) *)
  execute : option Tensor -> option Tensor ->
            list Q -> list Q -> list Q -> list Q -> list Q;
  (** common.transformations *)
  tici_fcam_intrinsics : Matrix;
  tici_ecam_intrinsics : Matrix;
  view_frame_from_device_frame : Matrix;
  rot_from_euler : list Q -> Matrix;
  (** [np.linalg.inv(medmodel_frame_from_calib_frame[:, :3])] and its
      sbigmodel sibling (lines 33-34) *)
  calib_from_medmodel : Matrix;
  calib_from_sbigmodel : Matrix
}.

(** ** CalibrationTransform (lines 36-42) *)

Definition update_calibration (E : Collaborators)
  (device_from_calib_euler : list Q) (wide_camera bigmodel_frame : bool)
  : Matrix :=
  let cam_intrinsics :=
    if wide_camera then tici_ecam_intrinsics E else tici_fcam_intrinsics E in
  let calib_from_model :=
    if bigmodel_frame then calib_from_sbigmodel E else calib_from_medmodel E in
  let device_from_calib := rot_from_euler E device_from_calib_euler in
  let camera_from_calib :=
    matmul (matmul cam_intrinsics (view_frame_from_device_frame E))
           device_from_calib in
  matmul camera_from_calib calib_from_model.

(** ** What a cycle does to the outside world *)

Inductive LogMsg : Type :=
| DesireEnqueued
| ImageAdded
| ExtraImageAdded
| ExecutionFinished
| FeaturesEnqueued
| MainNoFrame
| ExtraNoFrame
| FramesOutOfSync (main_id main_sof extra_id extra_sof : Z)
| SkippingModelEval (dropped : Z).

Inductive Camera : Type := MainCam | WideCam.

Inductive Event (E : Collaborators) : Type :=
| EvGetCLBuffer (name : string)
| EvPrepare (cam : Camera) (buf : VisionBuf E) (transform : list Q)
    (output : option (CLMem E))
| EvSetInputBuffer (name : string) (t : Tensor E)
| EvExecute
| EvLogInfo (m : LogMsg)
| EvLogError (m : LogMsg).

Arguments EvGetCLBuffer {E} name.
Arguments EvPrepare {E} cam buf transform output.
Arguments EvSetInputBuffer {E} name t.
Arguments EvExecute {E}.
Arguments EvLogInfo {E} m.
Arguments EvLogError {E} m.

Definition is_prepare {E} (e : Event E) : bool :=
  match e with EvPrepare _ _ _ _ => true | _ => false end.

Definition is_execute {E} (e : Event E) : bool :=
  match e with EvExecute => true | _ => false end.

Definition is_out_of_sync {E} (e : Event E) : bool :=
  match e with EvLogError (FramesOutOfSync _ _ _ _) => true | _ => false end.

(** ** ModelState (lines 44-102) *)

(** The argument [inputs] of [eval]: a dict with four keys.  The dtype of
    the desire vector is part of it: it is the dtype in which line 74
    subtracts and compares. *)
Module Inputs.
Record t : Type := {
  desire_dtype : Float.dtype;
  desire_pulse : list Q;
  traffic_convention : list Q;
  driving_style : list Q;
  nav_features : list Q
}.
End Inputs.

(** [self.inputs]: the four arrays bound to the engine at construction. *)
Module Bound.
Record t : Type := {
  desire_pulse : list Q;
  traffic_convention : list Q;
  nav_features : list Q;
  feature_buffer : list Q
}.
End Bound.

(** The two image inputs of the engine, [None] until first bound. *)
Module Onnx.
Record t (E : Collaborators) : Type := {
  input_imgs : option (Tensor E);
  big_input_imgs : option (Tensor E)
}.
Arguments input_imgs {E} _.
Arguments big_input_imgs {E} _.
End Onnx.

Record ModelState (E : Collaborators) : Type := {
  frame : ModelFrame E;
  wide_frame : ModelFrame E;
  inputs : Bound.t;
  output : list Q;
  prev_desire : list Q;
  model : Onnx.t E
}.

Arguments frame {E} _.
Arguments wide_frame {E} _.
Arguments inputs {E} _.
Arguments output {E} _.
Arguments prev_desire {E} _.
Arguments model {E} _.

(** [ModelState.__init__] (lines 52-68). *)
Definition ModelState_init (E : Collaborators) : ModelState E :=
  {| frame := new_frame E;
     wide_frame := new_frame E;
     prev_desire := Np.zeros DESIRE_LEN;
     output := Np.zeros MODEL_OUTPUT_SIZE;
     inputs :=
       {| Bound.desire_pulse := Np.zeros (DESIRE_LEN * (HISTORY_BUFFER_LEN + 1));
          Bound.traffic_convention := Np.zeros TRAFFIC_CONVENTION_LEN;
          Bound.nav_features := Np.zeros NAV_FEATURE_LEN;
          Bound.feature_buffer := Np.zeros (HISTORY_BUFFER_LEN * FEATURE_LEN) |};
     model := {| Onnx.input_imgs := None; Onnx.big_input_imgs := None |} |}.

(** Field updates of [self]. *)
Definition set_desire {E} (dp pd : list Q) (self : ModelState E) : ModelState E :=
  {| frame := frame self;
     wide_frame := wide_frame self;
     inputs :=
       {| Bound.desire_pulse := dp;
          Bound.traffic_convention := Bound.traffic_convention (inputs self);
          Bound.nav_features := Bound.nav_features (inputs self);
          Bound.feature_buffer := Bound.feature_buffer (inputs self) |};
     output := output self;
     prev_desire := pd;
     model := model self |}.

Definition set_side_inputs {E} (tc nf : list Q) (self : ModelState E)
  : ModelState E :=
  {| frame := frame self;
     wide_frame := wide_frame self;
     inputs :=
       {| Bound.desire_pulse := Bound.desire_pulse (inputs self);
          Bound.traffic_convention := tc;
          Bound.nav_features := nf;
          Bound.feature_buffer := Bound.feature_buffer (inputs self) |};
     output := output self;
     prev_desire := prev_desire self;
     model := model self |}.

Definition set_main_image {E} (fr : ModelFrame E) (t : Tensor E)
  (self : ModelState E) : ModelState E :=
  {| frame := fr;
     wide_frame := wide_frame self;
     inputs := inputs self;
     output := output self;
     prev_desire := prev_desire self;
     model := {| Onnx.input_imgs := Some t;
                 Onnx.big_input_imgs := Onnx.big_input_imgs (model self) |} |}.

Definition set_wide_image {E} (fr : ModelFrame E) (t : Tensor E)
  (self : ModelState E) : ModelState E :=
  {| frame := frame self;
     wide_frame := fr;
     inputs := inputs self;
     output := output self;
     prev_desire := prev_desire self;
     model := {| Onnx.input_imgs := Onnx.input_imgs (model self);
                 Onnx.big_input_imgs := Some t |} |}.

Definition set_features {E} (out fb : list Q) (self : ModelState E)
  : ModelState E :=
  {| frame := frame self;
     wide_frame := wide_frame self;
     inputs :=
       {| Bound.desire_pulse := Bound.desire_pulse (inputs self);
          Bound.traffic_convention := Bound.traffic_convention (inputs self);
          Bound.nav_features := Bound.nav_features (inputs self);
          Bound.feature_buffer := fb |};
     output := out;
     prev_desire := prev_desire self;
     model := model self |}.

(** Lines 72-75: the caller's desire vector loses its entry 0, the desire
    window moves one block to the left, the rising edges of the vector
    become its newest block, and the vector is remembered.  The first
    component of the result is the caller's array after line 72.

    The caller's vector [raw] has dtype [dt]; [self.prev_desire] and the
    desire window are float32 arrays (lines 55 and 58).  So the difference
    of line 74 has dtype [dt] (float32 against float32 stays float32,
    float64 against float32 is float64), the Python float [.99] is
    compared in that dtype, [np.where] keeps it, and the stores of lines 74
    and 75 cast to float32. *)
Definition enqueue_desire {E} (dt : Float.dtype) (raw : list Q)
  (self : ModelState E) : option (list Q * ModelState E) :=
  raw0 <- Np.setitem 0 0 raw ;;
  let dp := Bound.desire_pulse (inputs self) in
  dp1 <- Np.assign_upto_last DESIRE_LEN dp (Np.from DESIRE_LEN dp) ;;
  diff <- Np.sub dt raw0 (prev_desire self) ;;
  pulse <- Np.where0 (Np.gt dt diff (Float.literal (99 # 100))) raw0 ;;
  dp2 <- Np.assign_last_n DESIRE_LEN dp1 (Np.astype Float.Float32 pulse) ;;
  pd <- Np.assign_all (prev_desire self) (Np.astype Float.Float32 raw0) ;;
  Some (raw0, set_desire dp2 pd self).

(** Lines 78-79. *)
Definition copy_side_inputs {E} (inp : Inputs.t) (self : ModelState E)
  : option (ModelState E) :=
  tc <- Np.assign_all (Bound.traffic_convention (inputs self))
                      (Inputs.traffic_convention inp) ;;
  nf <- Np.assign_all (Bound.nav_features (inputs self))
                      (Inputs.nav_features inp) ;;
  Some (set_side_inputs tc nf self).

(** The second argument of [prepare] (lines 83 and 88):
    [transform.astype(np.float32).flatten()]. *)
Definition warp_argument (transform : Matrix) : list Q :=
  flatten (matrix_astype Float.Float32 transform).

(** Lines 83-85.  The arguments of [prepare] are evaluated from left to
    right, so the engine is asked for its device buffer before [prepare]
    is called. *)
Definition prepare_main {E} (buf : VisionBuf E) (transform : Matrix)
  (self : ModelState E) : ModelState E * list (Event E) :=
  let cl := getCLBuffer E "input_imgs" in
  let (fr, t) := prepare E (frame self) buf (warp_argument transform) cl in
  (set_main_image fr t self,
   [EvGetCLBuffer "input_imgs";
    EvPrepare MainCam buf (warp_argument transform) cl;
    EvSetInputBuffer "input_imgs" t;
    EvLogInfo ImageAdded]).

(** Lines 87-90. *)
Definition prepare_wide {E} (wbuf : option (VisionBuf E))
  (transform_wide : Matrix) (self : ModelState E)
  : ModelState E * list (Event E) :=
  match wbuf with
  | Some wb =>
      let cl := getCLBuffer E "big_input_imgs" in
      let (fr, t) :=
        prepare E (wide_frame self) wb (warp_argument transform_wide) cl in
      (set_wide_image fr t self,
       [EvGetCLBuffer "big_input_imgs";
        EvPrepare WideCam wb (warp_argument transform_wide) cl;
        EvSetInputBuffer "big_input_imgs" t;
        EvLogInfo ExtraImageAdded])
  | None => (self, [])
  end.

(** The engine writes into the output array it was given at construction
    (line 64); the array keeps its length. *)
Definition write_output (buf out : list Q) : list Q :=
  firstn (length buf) out ++ skipn (length out) buf.

(** Lines 95-100: the engine runs on the bound inputs, and the feature
    window takes the feature range of its output as newest block. *)
Definition execute_and_enqueue {E} (self : ModelState E)
  : option (ModelState E * list (Event E)) :=
  let out :=
    write_output (output self)
      (execute E (Onnx.input_imgs (model self))
                 (Onnx.big_input_imgs (model self))
                 (Bound.desire_pulse (inputs self))
                 (Bound.traffic_convention (inputs self))
                 (Bound.nav_features (inputs self))
                 (Bound.feature_buffer (inputs self))) in
  let fb := Bound.feature_buffer (inputs self) in
  fb1 <- Np.assign_upto_last FEATURE_LEN fb (Np.from FEATURE_LEN fb) ;;
  fb2 <- Np.assign_last_n FEATURE_LEN fb1
           (Np.slice OUTPUT_SIZE (OUTPUT_SIZE + FEATURE_LEN) out) ;;
  Some (set_features out fb2 self,
        [EvExecute; EvLogInfo ExecutionFinished; EvLogInfo FeaturesEnqueued]).

Record EvalResult (E : Collaborators) : Type := {
  (** [self] after the call *)
  self' : ModelState E;
  (** the caller's [inputs['desire_pulse']] after the call (line 72 writes
      into the caller's array) *)
  desire_after : list Q;
  (** the returned value: [None], or [self.output] *)
  ret : option (list Q);
  events : list (Event E)
}.

Arguments self' {E} _.
Arguments desire_after {E} _.
Arguments ret {E} _.
Arguments events {E} _.

(** [ModelState.eval] (lines 70-102). *)
Definition eval {E} (buf : VisionBuf E) (wbuf : option (VisionBuf E))
  (transform transform_wide : Matrix) (inp : Inputs.t) (prepare_only : bool)
  (self : ModelState E) : option (EvalResult E) :=
  r <- enqueue_desire (Inputs.desire_dtype inp) (Inputs.desire_pulse inp)
         self ;;
  s2 <- copy_side_inputs inp (snd r) ;;
  let (s3, ev3) := prepare_main buf transform s2 in
  let (s4, ev4) := prepare_wide wbuf transform_wide s3 in
  let ev := EvLogInfo DesireEnqueued :: ev3 ++ ev4 in
  if prepare_only then
    Some {| self' := s4; desire_after := fst r; ret := None; events := ev |}
  else
    r5 <- execute_and_enqueue s4 ;;
    Some {| self' := fst r5; desire_after := fst r;
            ret := Some (output (fst r5)); events := ev ++ snd r5 |}.

(** ** The drop-rate filter *)

Module FirstOrderFilter.

Record t : Type := { x : Q; rc : Q; dt : Q }.

(** [FirstOrderFilter(x0, rc, dt)]. *)
Definition make (x0 rc dt : Q) : t := {| x := x0; rc := rc; dt := dt |}.

(** Modelled from the spec: [common/filter_simple.py], the class
    [FirstOrderFilter] that line 145 instantiates, is not among the
    sources.  The specification gives its update as
    [state += (input_clamped - state) * (dt / tau)], the new state being
    the value returned. *)
Definition update (f : t) (u : Q) : t * Q :=
  let x' := x f + (u - x f) * (dt f / rc f) in
  ({| x := x'; rc := rc f; dt := dt f |}, x').

End FirstOrderFilter.

(** ** The frame transport *)

Module Vipc.

(** A frame as the transport delivers it. *)
Record Frame (E : Collaborators) : Type := {
  buf : VisionBuf E;
  id : Z;
  sof : Z
}.
Arguments buf {E} _.
Arguments id {E} _.
Arguments sof {E} _.

(** A [VisionIpcClient]: the meta data of the frame received last, and
    what the coming calls of [recv] will find: [Some] frame, or [None] for
    a call that times out.  Past the end of the list every call times
    out. *)
Record t (E : Collaborators) : Type := {
  frame_id : Z;
  timestamp_sof : Z;
  pending : list (option (Frame E))
}.
Arguments frame_id {E} _.
Arguments timestamp_sof {E} _.
Arguments pending {E} _.

(** [recv()]: a frame updates the meta data; a time-out leaves them. *)
Definition recv {E} (c : t E) : option (VisionBuf E) * t E :=
  match pending c with
  | [] => (None, c)
  | None :: p =>
      (None, {| frame_id := frame_id c; timestamp_sof := timestamp_sof c;
                pending := p |})
  | Some f :: p =>
      (Some (buf f), {| frame_id := id f; timestamp_sof := sof f;
                        pending := p |})
  end.

End Vipc.

(** ** Upstream state, as [sm.update(0)] leaves it (lines 191-196) *)

Module Sm.
Record t : Type := {
  desire : Z;                    (* sm["lateralPlan"].desire.raw *)
  isRHD : bool;                  (* sm["driverMonitoringState"].isRHD *)
  frameId : Z;                   (* sm["roadCameraState"].frameId *)
  liveCalibration_updated : bool;(* sm.updated["liveCalibration"] *)
  rpyCalib : list Q              (* sm["liveCalibration"].rpyCalib *)
}.
End Sm.

(** ** The variables of the main loop (lines 116-157) *)

Module Loop.
Record t (E : Collaborators) : Type := {
  use_extra_client : bool;
  main_wide_camera : bool;
  vipc_client_main : Vipc.t E;
  vipc_client_extra : Vipc.t E;
  model : ModelState E;
  frame_dropped_filter : FirstOrderFilter.t;
  frame_id : Z;
  last_vipc_frame_id : Z;
  run_count : Z;
  model_transform_main : Matrix;
  model_transform_extra : Matrix;
  live_calib_seen : bool;
  buf_main : option (VisionBuf E);
  buf_extra : option (VisionBuf E)
}.
Arguments use_extra_client {E} _.
Arguments main_wide_camera {E} _.
Arguments vipc_client_main {E} _.
Arguments vipc_client_extra {E} _.
Arguments model {E} _.
Arguments frame_dropped_filter {E} _.
Arguments frame_id {E} _.
Arguments last_vipc_frame_id {E} _.
Arguments run_count {E} _.
Arguments model_transform_main {E} _.
Arguments model_transform_extra {E} _.
Arguments live_calib_seen {E} _.
Arguments buf_main {E} _.
Arguments buf_extra {E} _.
End Loop.

(** Lines 154-155: two arrays the loop never writes. *)
Definition driving_style : list Q := [1; 0; 0; 0; 0; 1; 0; 0; 0; 0; 0; 0].
Definition nav_features : list Q := Np.zeros NAV_FEATURE_LEN.

(** The state before the first cycle (lines 112-157), for the two connected
    clients and the two flags the stream discovery settled (lines 116-121). *)
Definition loop_init (E : Collaborators) (use_extra_client main_wide_camera : bool)
  (main extra : Vipc.t E) : Loop.t E :=
  {| Loop.use_extra_client := use_extra_client;
     Loop.main_wide_camera := main_wide_camera;
     Loop.vipc_client_main := main;
     Loop.vipc_client_extra := extra;
     Loop.model := ModelState_init E;
     Loop.frame_dropped_filter :=
       FirstOrderFilter.make 0 10 (1 / inject_Z MODEL_FREQ);
     Loop.frame_id := 0;
     Loop.last_vipc_frame_id := 0;
     Loop.run_count := 0;
     Loop.model_transform_main := zeros33;
     Loop.model_transform_extra := zeros33;
     Loop.live_calib_seen := false;
     Loop.buf_main := None;
     Loop.buf_extra := None |}.

(** ** FrameSyncCoordinator (lines 160-188) *)

(** Lines 161-164: frames of the main stream are received while its
    time stamp is less than 25 ms ahead of the extra stream's; a time-out
    ends the loop with [buf_main = None].  The recursion is on what the
    stream still holds. *)
Fixpoint recv_main_from {E} (pend : list (option (Vipc.Frame E)))
  (fid sof : Z) (buf_main : option (VisionBuf E)) (extra_sof : Z)
  : Vipc.t E * option (VisionBuf E) :=
  if (sof <? extra_sof + 25000000)%Z then
    match pend with
    | [] =>
        ({| Vipc.frame_id := fid; Vipc.timestamp_sof := sof;
            Vipc.pending := [] |}, None)
    | None :: p =>
        ({| Vipc.frame_id := fid; Vipc.timestamp_sof := sof;
            Vipc.pending := p |}, None)
    | Some f :: p =>
        recv_main_from p (Vipc.id f) (Vipc.sof f) (Some (Vipc.buf f)) extra_sof
    end
  else
    ({| Vipc.frame_id := fid; Vipc.timestamp_sof := sof;
        Vipc.pending := pend |}, buf_main).

Definition recv_main {E} (main : Vipc.t E) (buf_main : option (VisionBuf E))
  (extra_sof : Z) : Vipc.t E * option (VisionBuf E) :=
  recv_main_from (Vipc.pending main) (Vipc.frame_id main)
                 (Vipc.timestamp_sof main) buf_main extra_sof.

(** Lines 172-175: frames of the extra stream are received until one times
    out or the main stream is less than 25 ms ahead. *)
Fixpoint recv_extra_from {E} (pend : list (option (Vipc.Frame E)))
  (fid sof : Z) (main_sof : Z) : Vipc.t E * option (VisionBuf E) :=
  match pend with
  | [] =>
      ({| Vipc.frame_id := fid; Vipc.timestamp_sof := sof;
          Vipc.pending := [] |}, None)
  | None :: p =>
      ({| Vipc.frame_id := fid; Vipc.timestamp_sof := sof;
          Vipc.pending := p |}, None)
  | Some f :: p =>
      if (main_sof <? Vipc.sof f + 25000000)%Z then
        ({| Vipc.frame_id := Vipc.id f; Vipc.timestamp_sof := Vipc.sof f;
            Vipc.pending := p |}, Some (Vipc.buf f))
      else recv_extra_from p (Vipc.id f) (Vipc.sof f) main_sof
  end.

Definition recv_extra {E} (extra : Vipc.t E) (main_sof : Z)
  : Vipc.t E * option (VisionBuf E) :=
  recv_extra_from (Vipc.pending extra) (Vipc.frame_id extra)
                  (Vipc.timestamp_sof extra) main_sof.

(** Lines 181-184: the test the loop makes before it logs that the frames
    are out of sync. *)
Definition out_of_sync_test {E} (main extra : Vipc.t E) : bool :=
  (10000000 <? Z.abs (Vipc.timestamp_sof main - Vipc.timestamp_sof main))%Z.

Definition out_of_sync_log {E} (main extra : Vipc.t E) : list (Event E) :=
  if out_of_sync_test main extra then
    [EvLogError (FramesOutOfSync (Vipc.frame_id main) (Vipc.timestamp_sof main)
                                 (Vipc.frame_id extra) (Vipc.timestamp_sof extra))]
  else [].

Inductive Sync (E : Collaborators) : Type :=
| NoMainFrame                           (* the [continue] of line 168 *)
| NoExtraFrame                          (* the [continue] of line 179 *)
| Synced (bm be : VisionBuf E).         (* line 190 is reached *)
Arguments NoMainFrame {E}.
Arguments NoExtraFrame {E}.
Arguments Synced {E} bm be.

Definition set_clients {E} (main extra : Vipc.t E)
  (bm be : option (VisionBuf E)) (st : Loop.t E) : Loop.t E :=
  {| Loop.use_extra_client := Loop.use_extra_client st;
     Loop.main_wide_camera := Loop.main_wide_camera st;
     Loop.vipc_client_main := main;
     Loop.vipc_client_extra := extra;
     Loop.model := Loop.model st;
     Loop.frame_dropped_filter := Loop.frame_dropped_filter st;
     Loop.frame_id := Loop.frame_id st;
     Loop.last_vipc_frame_id := Loop.last_vipc_frame_id st;
     Loop.run_count := Loop.run_count st;
     Loop.model_transform_main := Loop.model_transform_main st;
     Loop.model_transform_extra := Loop.model_transform_extra st;
     Loop.live_calib_seen := Loop.live_calib_seen st;
     Loop.buf_main := bm;
     Loop.buf_extra := be |}.

(** Lines 160-188. *)
Definition sync_frames {E} (st : Loop.t E)
  : Loop.t E * Sync E * list (Event E) :=
  let (main, bm) :=
    recv_main (Loop.vipc_client_main st) (Loop.buf_main st)
              (Vipc.timestamp_sof (Loop.vipc_client_extra st)) in
  match bm with
  | None =>
      (set_clients main (Loop.vipc_client_extra st) None (Loop.buf_extra st) st,
       NoMainFrame, [EvLogError MainNoFrame])
  | Some b =>
      if Loop.use_extra_client st then
        let (extra, be) :=
          recv_extra (Loop.vipc_client_extra st) (Vipc.timestamp_sof main) in
        match be with
        | None =>
            (set_clients main extra bm None st,
             NoExtraFrame, [EvLogError ExtraNoFrame])
        | Some b' =>
            (set_clients main extra bm be st,
             Synced b b', out_of_sync_log main extra)
        end
      else
        (set_clients main (Loop.vipc_client_extra st) bm bm st,
         Synced b b, [])
  end.

(** ** One cycle of the main loop (lines 159-241) *)

(** Lines 204-206. *)
Definition vec_desire (desire : Z) : option (list Q) :=
  if ((0 <=? desire) && (desire <? Z.of_nat DESIRE_LEN))%Z%bool then
    Np.setitem (Z.to_nat desire) 1 (Np.zeros DESIRE_LEN)
  else Some (Np.zeros DESIRE_LEN).

(** Lines 201-202. *)
Definition traffic_convention (is_rhd : bool) : option (list Q) :=
  Np.setitem (if is_rhd then 1%nat else 0%nat) 1 (Np.zeros 2).

(** Line 216; a float division by zero raises ZeroDivisionError. *)
Definition drop_ratio (frames_dropped : Q) : option Q :=
  if Qeq_bool (1 + frames_dropped) 0 then None
  else Some (frames_dropped / (1 + frames_dropped)).

(** The values a cycle that reaches line 228 has computed. *)
Record Locals : Type := {
  vipc_dropped_frames : Z;
  frames_dropped : Q;
  frame_drop_ratio : Q;
  prepare_only : bool;
  model_output : option (list Q)
}.

Inductive Outcome : Type :=
| SkippedNoMain
| SkippedNoExtra
| Evaluated (l : Locals).

(** Lines 195-199. *)
Definition calibrate {E} (sm : Sm.t) (st : Loop.t E) : Matrix * Matrix * bool :=
  if Sm.liveCalibration_updated sm then
    (update_calibration E (Sm.rpyCalib sm) (Loop.main_wide_camera st) false,
     update_calibration E (Sm.rpyCalib sm) true true,
     true)
  else
    (Loop.model_transform_main st, Loop.model_transform_extra st,
     Loop.live_calib_seen st).

(** Lines 191-241, for the pair of buffers the synchronisation left. *)
Definition evaluate_cycle {E} (sm : Sm.t) (bm be : VisionBuf E) (st : Loop.t E)
  : option (Loop.t E * Locals * list (Event E)) :=
  let '(mt_main, mt_extra, seen) := calibrate sm st in
  tc <- traffic_convention (Sm.isRHD sm) ;;
  vd <- vec_desire (Sm.desire sm) ;;
  let dropped :=
    (Vipc.frame_id (Loop.vipc_client_main st) - Loop.last_vipc_frame_id st - 1)%Z in
  let (filt, filtered) :=
    FirstOrderFilter.update (Loop.frame_dropped_filter st)
                            (inject_Z (Z.min dropped 10)) in
  let fd := if (Loop.run_count st <? 10)%Z then 0 else filtered in
  ratio <- drop_ratio fd ;;
  let po := (0 <? dropped)%Z in
  let ev_skip :=
    if po then [EvLogError (SkippingModelEval dropped)] else [] in
  let inp :=
    {| Inputs.desire_dtype := Float.Float32;
       Inputs.desire_pulse := vd;
       Inputs.traffic_convention := tc;
       Inputs.driving_style := driving_style;
       Inputs.nav_features := nav_features |} in
  r <- eval bm (Some be) mt_main mt_extra inp po (Loop.model st) ;;
  Some ({| Loop.use_extra_client := Loop.use_extra_client st;
           Loop.main_wide_camera := Loop.main_wide_camera st;
           Loop.vipc_client_main := Loop.vipc_client_main st;
           Loop.vipc_client_extra := Loop.vipc_client_extra st;
           Loop.model := self' r;
           Loop.frame_dropped_filter := filt;
           Loop.frame_id := Sm.frameId sm;
           Loop.last_vipc_frame_id := Vipc.frame_id (Loop.vipc_client_main st);
           Loop.run_count := (Loop.run_count st + 1)%Z;
           Loop.model_transform_main := mt_main;
           Loop.model_transform_extra := mt_extra;
           Loop.live_calib_seen := seen;
           Loop.buf_main := Loop.buf_main st;
           Loop.buf_extra := Loop.buf_extra st |},
        {| vipc_dropped_frames := dropped;
           frames_dropped := fd;
           frame_drop_ratio := ratio;
           prepare_only := po;
           model_output := ret r |},
        ev_skip ++ events r).

(** One pass through the body of [while True] (line 159). *)
Definition cycle {E} (sm : Sm.t) (st : Loop.t E)
  : option (Loop.t E * Outcome * list (Event E)) :=
  let '(st1, sy, ev1) := sync_frames st in
  match sy with
  | NoMainFrame => Some (st1, SkippedNoMain, ev1)
  | NoExtraFrame => Some (st1, SkippedNoExtra, ev1)
  | Synced bm be =>
      r <- evaluate_cycle sm bm be st1 ;;
      Some (fst (fst r), Evaluated (snd (fst r)), ev1 ++ snd r)
  end.

(** Consecutive cycles, one upstream snapshot each; the outcomes in order. *)
Fixpoint run {E} (sms : list Sm.t) (st : Loop.t E)
  : option (Loop.t E * list Outcome) :=
  match sms with
  | [] => Some (st, [])
  | sm :: rest =>
      r <- cycle sm st ;;
      r' <- run rest (fst (fst r)) ;;
      Some (fst r', snd (fst r) :: snd r')
  end.

(** * Properties *)

(** ** Arrays *)

Section ArrayFacts.

Lemma broadcast_to_same {A : Type} (d : A) (n : nat) (a : list A) :
  length a = n -> Np.broadcast_to d n a = Some a.
Proof.
  intros H. unfold Np.broadcast_to. rewrite H, Nat.eqb_refl. reflexivity.
Qed.

Lemma bshape_same (n : nat) : Np.bshape n n = Some n.
Proof. unfold Np.bshape. rewrite Nat.eqb_refl. reflexivity. Qed.

Lemma zip_with_length {A B C : Type} (f : A -> B -> C) (a : list A) :
  forall b, length a = length b -> length (Np.zip_with f a b) = length a.
Proof.
  induction a as [|x a IH]; intros [|y b] H; simpl in *; try discriminate; auto.
Qed.


Lemma map_zip_with {A B C D : Type} (g : C -> D) (f : A -> B -> C) (a : list A) :
  forall b, map g (Np.zip_with f a b) = Np.zip_with (fun x y => g (f x y)) a b.
Proof.
  induction a as [|x a IH]; intros [|y b]; simpl; try reflexivity.
  now rewrite IH.
Qed.

Lemma zip_with_zip_with_l {A B C D : Type} (h : C -> A -> D) (f : A -> B -> C)
  (a : list A) :
  forall b, Np.zip_with h (Np.zip_with f a b) a
            = Np.zip_with (fun x y => h (f x y) x) a b.
Proof.
  induction a as [|x a IH]; intros [|y b]; simpl; try reflexivity.
  now rewrite IH.
Qed.

Lemma setitem_length (i : nat) (v : Q) (a : list Q) :
  forall a', Np.setitem i v a = Some a' -> length a' = length a.
Proof.
  revert i. induction a as [|h t IH]; intros i a' H.
  - destruct i; discriminate.
  - destruct i as [|i]; simpl in H.
    + injection H as <-. reflexivity.
    + destruct (Np.setitem i v t) as [t'|] eqn:Ht; unfold bind in H;
        [|discriminate].
      injection H as <-. simpl. f_equal. eapply IH; eauto.
Qed.

Lemma setitem_in_range (i : nat) (v : Q) (a : list Q) :
  (i < length a)%nat -> exists a', Np.setitem i v a = Some a'.
Proof.
  revert i. induction a as [|h t IH]; intros i H; simpl in H; [lia|].
  destruct i as [|i]; [eexists; reflexivity|].
  destruct (IH i) as [t' Ht]; [lia|].
  change (Np.setitem (S i) v (h :: t))
    with (t0 <- Np.setitem i v t ;; Some (h :: t0)).
  rewrite Ht. simpl. eauto.
Qed.

Lemma setitem0_cons (v : Q) (a : list Q) :
  a <> [] -> Np.setitem 0 v a = Some (v :: tl a).
Proof. destruct a; [congruence | reflexivity]. Qed.

(** The idiom of lines 73-74 and 98-99: [b[:-k] = b[k:]] and then
    [b[-k:] = v] drop the first [k] entries of [b] and append [v]. *)
Lemma shift_ok (k : nat) (b : list Q) :
  Np.assign_upto_last k b (Np.from k b)
  = Some (skipn k b ++ skipn (length b - k) b).
Proof.
  unfold Np.assign_upto_last, Np.from.
  rewrite broadcast_to_same by apply length_skipn. reflexivity.
Qed.

Lemma shifted_length (k : nat) (b : list Q) :
  (k <= length b)%nat ->
  length (skipn k b ++ skipn (length b - k) b) = length b.
Proof. intros H. rewrite length_app, !length_skipn. lia. Qed.

Lemma append_ok (k : nat) (b v : list Q) :
  (k <= length b)%nat -> length v = k ->
  Np.assign_last_n k (skipn k b ++ skipn (length b - k) b) v
  = Some (skipn k b ++ v).
Proof.
  intros Hk Hv. unfold Np.assign_last_n.
  rewrite shifted_length by assumption.
  rewrite broadcast_to_same by lia. simpl.
  rewrite firstn_app, length_skipn.
  replace (length b - k - (length b - k))%nat with 0%nat by lia.
  rewrite firstn_all2 by (rewrite length_skipn; lia).
  simpl. rewrite app_nil_r. reflexivity.
Qed.

Lemma write_output_length (buf out : list Q) :
  length (write_output buf out) = length buf.
Proof.
  unfold write_output. rewrite length_app, length_firstn, length_skipn. lia.
Qed.

Lemma slice_length (i j : nat) (a : list Q) :
  (i <= j)%nat -> (j <= length a)%nat -> length (Np.slice i j a) = (j - i)%nat.
Proof.
  intros Hij Hj. unfold Np.slice. rewrite length_firstn, length_skipn. lia.
Qed.

(** [.99] as float32 and as float64 hold it; the float32 values nearest to
    [2^24 + 1] (a tie, which goes to the even significand), to one tenth,
    and to [2^-150] (half the smallest subnormal value: a tie again). *)
Lemma round_examples :
  Float.round Float.Float32 (99 # 100) = 4152361 # 4194304
  /\ Float.round Float.Float64 (99 # 100)
     = 4458563631096791 # 4503599627370496
  /\ Float.round Float.Float32 16777217 = 16777216
  /\ Float.round Float.Float32 (1 # 10) = 13421773 # 134217728
  /\ Float.round Float.Float32 (1 # 2 ^ 150) = 0.
Proof. repeat split; vm_compute; reflexivity. Qed.

Lemma round_0 (dt : Float.dtype) : Float.round dt 0 = 0.
Proof. reflexivity. Qed.

Lemma round_1 (dt : Float.dtype) : Float.round dt 1 = 1.
Proof. destruct dt; vm_compute; reflexivity. Qed.

(** A difference of a value with itself rounds to zero, whatever fraction
    stands for it. *)
Lemma round_sub_self (dt : Float.dtype) (q : Q) : Float.round dt (q - q) = 0.
Proof.
  unfold Float.round.
  replace (Qred (q - q)) with (Qred 0); [reflexivity|].
  apply Qred_complete. ring.
Qed.


Lemma astype_exact (dt : Float.dtype) (a : list Q) :
  Forall (Float.exact dt) a -> Np.astype dt a = a.
Proof.
  induction 1 as [|q a Hq _ IH]; [reflexivity|].
  unfold Np.astype in *. cbn [map]. rewrite IH, (proj1 Hq). reflexivity.
Qed.

(** 0 and 1 are values of both formats. *)
Lemma exact_0 (dt : Float.dtype) : Float.exact dt 0.
Proof. split; [apply round_0 | destruct dt; vm_compute; discriminate]. Qed.

Lemma exact_1 (dt : Float.dtype) : Float.exact dt 1.
Proof. split; [apply round_1 | destruct dt; vm_compute; discriminate]. Qed.

(** The zero matrix is the same in float32. *)
Lemma warp_argument_zeros33 : warp_argument zeros33 = flatten zeros33.
Proof. reflexivity. Qed.

Lemma zeros_length (n : nat) : length (Np.zeros n) = n.
Proof. apply repeat_length. Qed.

End ArrayFacts.

(** ** ModelState.eval *)

(** The shapes [__init__] gives the arrays of [self]. *)
Record shaped {E} (s : ModelState E) : Prop := {
  sh_desire :
    length (Bound.desire_pulse (inputs s))
    = ((HISTORY_BUFFER_LEN + 1) * DESIRE_LEN)%nat;
  sh_traffic :
    length (Bound.traffic_convention (inputs s)) = TRAFFIC_CONVENTION_LEN;
  sh_nav : length (Bound.nav_features (inputs s)) = NAV_FEATURE_LEN;
  sh_feature :
    length (Bound.feature_buffer (inputs s))
    = (HISTORY_BUFFER_LEN * FEATURE_LEN)%nat;
  sh_output : length (output s) = MODEL_OUTPUT_SIZE;
  sh_prev : length (prev_desire s) = DESIRE_LEN
}.

(** The shapes of the arrays a caller passes to [eval]. *)
Record inputs_shaped (inp : Inputs.t) : Prop := {
  ish_desire : length (Inputs.desire_pulse inp) = DESIRE_LEN;
  ish_traffic : length (Inputs.traffic_convention inp) = TRAFFIC_CONVENTION_LEN;
  ish_nav : length (Inputs.nav_features inp) = NAV_FEATURE_LEN
}.

(** The raw vector after line 72. *)
Definition zeroed (raw : list Q) : list Q := 0 :: tl raw.

(** The test of line 74 on one entry: the difference, rounded to the dtype
    [dt] of the raw vector, exceeds [.99] as that dtype holds it (see
    [threshold] below: casting the Python float [.99] to [dt] gives the
    value of [dt] nearest to 99/100). *)
Definition rises (dt : Float.dtype) (r p : Q) : bool :=
  negb (Qle_bool (Float.round dt (r - p)) (Float.round dt (99 # 100))).

(** The value of [np.where] in line 74. *)
Definition edges (dt : Float.dtype) (raw prev : list Q) : list Q :=
  Np.zip_with (fun r p => if rises dt r p then r else 0) raw prev.

(** The rising edges of [raw] over [prev] as line 74 stores them in the
    float32 window. *)
Definition rising (dt : Float.dtype) (raw prev : list Q) : list Q :=
  Np.astype Float.Float32 (edges dt raw prev).

(** An array whose entries are all values of float32: a float32 array, or
    an array of another dtype that happens to hold such values. *)
Definition float32_valued (raw : list Q) : Prop :=
  Forall (Float.exact Float.Float32) raw.


(** The blocks of a window: block [k] of width [w]. *)
Definition block (w k : nat) (b : list Q) : list Q :=
  firstn w (skipn (k * w) b).

(** The feature range of an output vector (line 99). *)
Definition features_of (out : list Q) : list Q :=
  Np.slice OUTPUT_SIZE (OUTPUT_SIZE + FEATURE_LEN) out.

(** The output vector after the engine has run on the inputs bound in [s]. *)
Definition engine_output {E} (s : ModelState E) : list Q :=
  write_output (output s)
    (execute E (Onnx.input_imgs (model s)) (Onnx.big_input_imgs (model s))
               (Bound.desire_pulse (inputs s))
               (Bound.traffic_convention (inputs s))
               (Bound.nav_features (inputs s))
               (Bound.feature_buffer (inputs s))).

Section EvalFacts.

Context {E : Collaborators}.
Implicit Types (s : ModelState E) (inp : Inputs.t).

Lemma desire_len_le_window s :
  shaped s -> (DESIRE_LEN <= length (Bound.desire_pulse (inputs s)))%nat.
Proof. intros H. rewrite (sh_desire s H). vm_compute. lia. Qed.

Lemma feature_len_le_window s :
  shaped s -> (FEATURE_LEN <= length (Bound.feature_buffer (inputs s)))%nat.
Proof.
  intros H. rewrite (sh_feature s H). apply Nat.leb_le. vm_compute. reflexivity.
Qed.

Lemma features_of_length (out : list Q) :
  length out = MODEL_OUTPUT_SIZE -> length (features_of out) = FEATURE_LEN.
Proof.
  intros H. unfold features_of. rewrite slice_length.
  - rewrite Nat.add_comm. apply Nat.add_sub.
  - apply Nat.le_add_r.
  - rewrite H. apply Nat.leb_le. vm_compute. reflexivity.
Qed.

Lemma zeroed_length (raw : list Q) :
  raw <> [] -> length (zeroed raw) = length raw.
Proof. destruct raw; [congruence | reflexivity]. Qed.

Lemma astype_length (dt : Float.dtype) (a : list Q) :
  length (Np.astype dt a) = length a.
Proof. apply length_map. Qed.

Lemma edges_length (dt : Float.dtype) (raw prev : list Q) :
  length raw = length prev -> length (edges dt raw prev) = length raw.
Proof. apply zip_with_length. Qed.

Lemma rising_length (dt : Float.dtype) (raw prev : list Q) :
  length raw = length prev -> length (rising dt raw prev) = length raw.
Proof.
  intros H. unfold rising. rewrite astype_length. now apply edges_length.
Qed.

(** The Python float [.99], cast to either dtype, is the value of that
    dtype nearest to 99/100. *)
Lemma threshold (dt : Float.dtype) :
  Float.round dt (Float.literal (99 # 100)) = Float.round dt (99 # 100).
Proof. destruct dt; vm_compute; reflexivity. Qed.

Lemma rising_ok (dt : Float.dtype) (raw prev : list Q) :
  length raw = length prev ->
  (d <- Np.sub dt raw prev ;;
   Np.where0 (Np.gt dt d (Float.literal (99 # 100))) raw)
  = Some (edges dt raw prev).
Proof.
  intros H. unfold Np.sub. rewrite <- H, bshape_same. cbn [bind].
  rewrite broadcast_to_same by reflexivity. cbn [bind].
  rewrite broadcast_to_same by (symmetry; exact H). cbn [bind].
  unfold Np.where0, Np.gt. rewrite threshold.
  rewrite length_map, zip_with_length by exact H.
  rewrite bshape_same. cbn [bind].
  rewrite broadcast_to_same
    by (rewrite length_map; apply zip_with_length; exact H).
  cbn [bind]. rewrite broadcast_to_same by reflexivity. cbn [bind].
  rewrite map_zip_with, zip_with_zip_with_l. reflexivity.
Qed.

(** Lines 72-75 on arrays of the expected shapes. *)
Lemma enqueue_desire_ok (dt : Float.dtype) (raw : list Q) s :
  length raw = DESIRE_LEN -> length (prev_desire s) = DESIRE_LEN ->
  (DESIRE_LEN <= length (Bound.desire_pulse (inputs s)))%nat ->
  enqueue_desire dt raw s
  = Some (zeroed raw,
          set_desire (skipn DESIRE_LEN (Bound.desire_pulse (inputs s))
                      ++ rising dt (zeroed raw) (prev_desire s))
                     (Np.astype Float.Float32 (zeroed raw)) s).
Proof.
  intros Hraw Hprev Hwin. unfold enqueue_desire.
  assert (Hne : raw <> []) by (intros ->; discriminate Hraw).
  rewrite setitem0_cons by exact Hne. cbn [bind].
  fold (zeroed raw).
  assert (Hz : length (zeroed raw) = length (prev_desire s))
    by (rewrite zeroed_length, Hraw, Hprev; auto).
  rewrite shift_ok. cbn [bind].
  pose proof (rising_ok dt (zeroed raw) (prev_desire s) Hz) as Hr.
  destruct (Np.sub dt (zeroed raw) (prev_desire s)) as [d|];
    [|discriminate Hr].
  cbn [bind] in Hr |- *. rewrite Hr. cbn [bind].
  fold (rising dt (zeroed raw) (prev_desire s)).
  rewrite append_ok;
    [|exact Hwin | rewrite rising_length, zeroed_length, Hraw; auto].
  cbn [bind].
  unfold Np.assign_all.
  rewrite broadcast_to_same by (rewrite astype_length; exact Hz).
  reflexivity.
Qed.

(** Lines 78-79 on arrays of the expected shapes. *)
Lemma copy_side_inputs_ok inp s :
  length (Inputs.traffic_convention inp)
  = length (Bound.traffic_convention (inputs s)) ->
  length (Inputs.nav_features inp) = length (Bound.nav_features (inputs s)) ->
  copy_side_inputs inp s
  = Some (set_side_inputs (Inputs.traffic_convention inp)
                          (Inputs.nav_features inp) s).
Proof.
  intros Ht Hn. unfold copy_side_inputs, Np.assign_all.
  rewrite !broadcast_to_same by assumption. reflexivity.
Qed.

(** Lines 95-100 on arrays of the expected shapes. *)
Lemma execute_and_enqueue_ok s :
  length (output s) = MODEL_OUTPUT_SIZE ->
  (FEATURE_LEN <= length (Bound.feature_buffer (inputs s)))%nat ->
  execute_and_enqueue s
  = Some (set_features (engine_output s)
            (skipn FEATURE_LEN (Bound.feature_buffer (inputs s))
             ++ features_of (engine_output s)) s,
          [EvExecute; EvLogInfo ExecutionFinished; EvLogInfo FeaturesEnqueued]).
Proof.
  intros Hout Hwin.
  unfold execute_and_enqueue, engine_output, features_of. cbv zeta.
  rewrite shift_ok. cbn [bind].
  rewrite append_ok; [reflexivity | exact Hwin |].
  rewrite slice_length.
  - rewrite Nat.add_comm. apply Nat.add_sub.
  - apply Nat.le_add_r.
  - rewrite write_output_length, Hout. apply Nat.leb_le.
    vm_compute. reflexivity.
Qed.

End EvalFacts.

Lemma bind_Some {A B : Type} (m : option A) (k : A -> option B) (b : B) :
  bind m k = Some b -> exists a, m = Some a /\ k a = Some b.
Proof. destruct m as [a|]; simpl; [eauto | discriminate]. Qed.

Lemma Some_eq {A : Type} (a b : A) : Some a = Some b -> a = b.
Proof. intros H. injection H as H. exact H. Qed.

Tactic Notation "bind_inv" hyp(H) "as" ident(a) ident(Ha) :=
  apply bind_Some in H; destruct H as (a & Ha & H).

Section AssignLengths.

Lemma broadcast_to_length {A : Type} (d : A) (n : nat) (a a' : list A) :
  Np.broadcast_to d n a = Some a' -> length a' = n.
Proof.
  unfold Np.broadcast_to.
  destruct (Nat.eqb (length a) n) eqn:Hn.
  - intros [= <-]. now apply Nat.eqb_eq.
  - destruct (Nat.eqb (length a) 1); [|discriminate].
    intros [= <-]. apply repeat_length.
Qed.

Lemma assign_all_length (dst src d' : list Q) :
  Np.assign_all dst src = Some d' -> length d' = length dst.
Proof. apply broadcast_to_length. Qed.

Lemma assign_upto_last_length (k : nat) (dst src d' : list Q) :
  Np.assign_upto_last k dst src = Some d' -> length d' = length dst.
Proof.
  unfold Np.assign_upto_last. intros H. bind_inv H as a Ha. injection H as <-.
  apply broadcast_to_length in Ha.
  rewrite length_app, length_skipn, Ha. lia.
Qed.

Lemma assign_last_n_length (k : nat) (dst src d' : list Q) :
  Np.assign_last_n k dst src = Some d' -> length d' = length dst.
Proof.
  unfold Np.assign_last_n. intros H. bind_inv H as a Ha. injection H as <-.
  apply broadcast_to_length in Ha.
  rewrite length_app, length_firstn, Ha. lia.
Qed.

End AssignLengths.

Section EvalSteps.

Context {E : Collaborators}.
Implicit Types (s : ModelState E) (inp : Inputs.t).

Lemma prepare_main_keeps (buf : VisionBuf E) (t : Matrix) s :
  inputs (fst (prepare_main buf t s)) = inputs s
  /\ output (fst (prepare_main buf t s)) = output s
  /\ prev_desire (fst (prepare_main buf t s)) = prev_desire s.
Proof.
  unfold prepare_main. cbv zeta.
  destruct (prepare E (frame s) buf (warp_argument t) _).
  repeat split.
Qed.

Lemma prepare_wide_keeps (wbuf : option (VisionBuf E)) (t : Matrix) s :
  inputs (fst (prepare_wide wbuf t s)) = inputs s
  /\ output (fst (prepare_wide wbuf t s)) = output s
  /\ prev_desire (fst (prepare_wide wbuf t s)) = prev_desire s.
Proof.
  unfold prepare_wide. destruct wbuf as [wb|]; [|repeat split].
  cbv zeta. destruct (prepare E (wide_frame s) wb (warp_argument t) _).
  repeat split.
Qed.

(** [self] when line 92 is reached, and what has been logged and called
    until then, for arrays of the expected shapes. *)
Definition staged (buf : VisionBuf E) (wbuf : option (VisionBuf E))
  (transform transform_wide : Matrix) inp s : ModelState E * list (Event E) :=
  let raw := Inputs.desire_pulse inp in
  let s1 :=
    set_desire (skipn DESIRE_LEN (Bound.desire_pulse (inputs s))
                ++ rising (Inputs.desire_dtype inp) (zeroed raw)
                          (prev_desire s))
               (Np.astype Float.Float32 (zeroed raw)) s in
  let s2 :=
    set_side_inputs (Inputs.traffic_convention inp) (Inputs.nav_features inp)
                    s1 in
  let s3 := prepare_main buf transform s2 in
  let s4 := prepare_wide wbuf transform_wide (fst s3) in
  (fst s4, EvLogInfo DesireEnqueued :: snd s3 ++ snd s4).

Lemma staged_inputs buf wbuf t tw inp s :
  inputs (fst (staged buf wbuf t tw inp s))
  = {| Bound.desire_pulse :=
         skipn DESIRE_LEN (Bound.desire_pulse (inputs s))
         ++ rising (Inputs.desire_dtype inp)
                   (zeroed (Inputs.desire_pulse inp)) (prev_desire s);
       Bound.traffic_convention := Inputs.traffic_convention inp;
       Bound.nav_features := Inputs.nav_features inp;
       Bound.feature_buffer := Bound.feature_buffer (inputs s) |}.
Proof.
  unfold staged. cbn [fst].
  rewrite (proj1 (prepare_wide_keeps _ _ _)).
  rewrite (proj1 (prepare_main_keeps _ _ _)). reflexivity.
Qed.

Lemma staged_output buf wbuf t tw inp s :
  output (fst (staged buf wbuf t tw inp s)) = output s.
Proof.
  unfold staged. cbn [fst].
  rewrite (proj1 (proj2 (prepare_wide_keeps _ _ _))).
  rewrite (proj1 (proj2 (prepare_main_keeps _ _ _))). reflexivity.
Qed.

Lemma staged_prev_desire buf wbuf t tw inp s :
  prev_desire (fst (staged buf wbuf t tw inp s))
  = Np.astype Float.Float32 (zeroed (Inputs.desire_pulse inp)).
Proof.
  unfold staged. cbn [fst].
  rewrite (proj2 (proj2 (prepare_wide_keeps _ _ _))).
  rewrite (proj2 (proj2 (prepare_main_keeps _ _ _))). reflexivity.
Qed.

(** [eval] on arrays of the expected shapes, without the monad. *)
Lemma eval_staged buf wbuf t tw inp (po : bool) s :
  shaped s -> inputs_shaped inp ->
  eval buf wbuf t tw inp po s
  = let st := staged buf wbuf t tw inp s in
    if po then
      Some {| self' := fst st; desire_after := zeroed (Inputs.desire_pulse inp);
              ret := None; events := snd st |}
    else
      let out := engine_output (fst st) in
      Some {| self' :=
                set_features out
                  (skipn FEATURE_LEN (Bound.feature_buffer (inputs s))
                   ++ features_of out) (fst st);
              desire_after := zeroed (Inputs.desire_pulse inp);
              ret := Some out;
              events := snd st ++ [EvExecute; EvLogInfo ExecutionFinished;
                                   EvLogInfo FeaturesEnqueued] |}.
Proof.
  intros Hs Hi. unfold eval.
  rewrite enqueue_desire_ok;
    [| apply Hi | apply Hs | apply desire_len_le_window, Hs].
  cbn [bind snd fst].
  rewrite copy_side_inputs_ok;
    [| cbn; rewrite (ish_traffic _ Hi), (sh_traffic _ Hs); reflexivity
     | cbn; rewrite (ish_nav _ Hi), (sh_nav _ Hs); reflexivity].
  cbn [bind].
  pose proof (staged_inputs buf wbuf t tw inp s) as Hin.
  pose proof (staged_output buf wbuf t tw inp s) as Hout.
  unfold staged in *. cbn [fst snd] in *. cbv zeta in *.
  destruct (prepare_main buf t _) as [s3 ev3]. cbn [fst snd] in *.
  destruct (prepare_wide wbuf tw s3) as [s4 ev4]. cbn [fst snd] in *.
  destruct po; [reflexivity|].
  rewrite execute_and_enqueue_ok;
    [| rewrite Hout; apply Hs
     | rewrite Hin; cbn; apply feature_len_le_window, Hs].
  cbn [bind fst snd]. rewrite Hin. reflexivity.
Qed.

End EvalSteps.

(** ** A concrete set of collaborators, to run the definitions on *)

Module Demo.

Definition identity33 : Matrix := [[1; 0; 0]; [0; 1; 0]; [0; 0; 1]].

(** Buffers are numbered; the engine names its device buffers after its
    inputs; the preprocessor returns the number of the buffer in front of
    the transform it was given; the engine returns the sum of the newest
    desire block at every position of its output. *)
Definition collaborators : Collaborators :=
  {| VisionBuf := Z;
     Tensor := list Q;
     ModelFrame := unit;
     new_frame := tt;
     CLMem := string;
     getCLBuffer := fun name => Some name;
     prepare := fun _ b t _ => (tt, inject_Z b :: t);
     execute := fun _ _ dp _ _ _ =>
       repeat (fold_right Qplus 0 (Np.last_n DESIRE_LEN dp)) MODEL_OUTPUT_SIZE;
     tici_fcam_intrinsics := identity33;
     tici_ecam_intrinsics := identity33;
     view_frame_from_device_frame := identity33;
     rot_from_euler := fun _ => identity33;
     calib_from_medmodel := identity33;
     calib_from_sbigmodel := identity33 |}.

Definition frame (i sof : Z) : option (Vipc.Frame collaborators) :=
  Some (Vipc.Build_Frame collaborators i i sof).

Definition client (frames : list (option (Vipc.Frame collaborators)))
  : Vipc.t collaborators :=
  Vipc.Build_t collaborators 0 0 frames.

Definition snapshot (desire : Z) (calib : bool) : Sm.t :=
  {| Sm.desire := desire; Sm.isRHD := false; Sm.frameId := 0;
     Sm.liveCalibration_updated := calib; Sm.rpyCalib := [0; 0; 0] |}.

(** The arrays the loop passes for a lane-change desire. *)
Definition lane_change : Inputs.t :=
  {| Inputs.desire_dtype := Float.Float32;
     Inputs.desire_pulse := [0; 0; 0; 1; 0; 0; 0; 0];
     Inputs.traffic_convention := [1; 0];
     Inputs.driving_style := driving_style;
     Inputs.nav_features := nav_features |}.

End Demo.

Section Shapes.

Context {E : Collaborators}.

Lemma init_shaped : shaped (ModelState_init E).
Proof. split; cbn [ModelState_init inputs output prev_desire
                   Bound.desire_pulse Bound.traffic_convention
                   Bound.nav_features Bound.feature_buffer];
  rewrite zeros_length; reflexivity.
Qed.



Lemma zeroed_exact (dt : Float.dtype) (raw : list Q) :
  Forall (Float.exact dt) raw -> Forall (Float.exact dt) (zeroed raw).
Proof.
  intros H. unfold zeroed. constructor; [apply exact_0|].
  destruct raw as [|q raw]; [constructor|]. now inversion H.
Qed.

End Shapes.



Lemma lane_change_shaped : inputs_shaped Demo.lane_change.
Proof. split; reflexivity. Qed.

Lemma lane_change_float32 :
  float32_valued (Inputs.desire_pulse Demo.lane_change).
Proof.
  repeat (constructor; [first [apply exact_0 | apply exact_1]|]).
  constructor.
Qed.


(** ** C1: the desire pulse *)




Definition desire_float64 : Inputs.t :=
  {| Inputs.desire_dtype := Float.Float64;
     Inputs.desire_pulse := [0; 16777217; 0; 0; 0; 0; 0; 0];
     Inputs.traffic_convention := [1; 0];
     Inputs.driving_style := driving_style;
     Inputs.nav_features := nav_features |}.


(** ** C6: the lengths of the two windows *)

Section WindowLengths.

Context {E : Collaborators}.
Implicit Types (s : ModelState E) (inp : Inputs.t).

Lemma enqueue_desire_lengths (dt : Float.dtype) (raw : list Q) s
  (r : list Q * ModelState E) :
  enqueue_desire dt raw s = Some r ->
  length (Bound.desire_pulse (inputs (snd r)))
  = length (Bound.desire_pulse (inputs s))
  /\ Bound.feature_buffer (inputs (snd r)) = Bound.feature_buffer (inputs s).
Proof.
  unfold enqueue_desire. intros H.
  bind_inv H as raw0 H0. bind_inv H as dp1 H1.
  apply assign_upto_last_length in H1.
  bind_inv H as d H2. bind_inv H as pulse H3.
  bind_inv H as dp2 H4. apply assign_last_n_length in H4.
  bind_inv H as pd H5. injection H as <-. cbn.
  split; [congruence | reflexivity].
Qed.

Lemma copy_side_inputs_keeps inp s s' :
  copy_side_inputs inp s = Some s' ->
  Bound.desire_pulse (inputs s') = Bound.desire_pulse (inputs s)
  /\ Bound.feature_buffer (inputs s') = Bound.feature_buffer (inputs s).
Proof.
  unfold copy_side_inputs. intros H. bind_inv H as tc H0. bind_inv H as nf H1.
  injection H as <-. split; reflexivity.
Qed.

Lemma execute_and_enqueue_lengths s (r : ModelState E * list (Event E)) :
  execute_and_enqueue s = Some r ->
  Bound.desire_pulse (inputs (fst r)) = Bound.desire_pulse (inputs s)
  /\ length (Bound.feature_buffer (inputs (fst r)))
     = length (Bound.feature_buffer (inputs s)).
Proof.
  unfold execute_and_enqueue. intros H.
  bind_inv H as fb1 H1. apply assign_upto_last_length in H1.
  bind_inv H as fb2 H2. apply assign_last_n_length in H2.
  injection H as <-. cbn. split; [reflexivity | congruence].
Qed.

(** Whatever it is given, a call of [eval] that returns leaves both windows
    as long as it found them. *)
Lemma eval_window_lengths buf wbuf t tw inp (po : bool) s r :
  eval buf wbuf t tw inp po s = Some r ->
  length (Bound.desire_pulse (inputs (self' r)))
  = length (Bound.desire_pulse (inputs s))
  /\ length (Bound.feature_buffer (inputs (self' r)))
     = length (Bound.feature_buffer (inputs s)).
Proof.
  unfold eval. intros H.
  bind_inv H as r1 H1.
  destruct (enqueue_desire_lengths _ _ _ _ H1) as [Hd1 Hf1].
  bind_inv H as s2 H2. destruct (copy_side_inputs_keeps _ _ _ H2) as [Hd2 Hf2].
  pose proof (prepare_main_keeps buf t s2) as (Hm & _).
  destruct (prepare_main buf t s2) as [s3 ev3]. cbn [fst] in Hm.
  pose proof (prepare_wide_keeps wbuf tw s3) as (Hw & _).
  destruct (prepare_wide wbuf tw s3) as [s4 ev4]. cbn [fst] in Hw.
  destruct po.
  - injection H as <-. cbn [self']. rewrite Hw, Hm, Hd2, Hf2, Hf1.
    split; [exact Hd1 | reflexivity].
  - bind_inv H as r5 H5.
    destruct (execute_and_enqueue_lengths _ _ H5) as [Hd5 Hf5].
    injection H as <-. cbn [self']. rewrite Hd5, Hf5, Hw, Hm, Hd2, Hf2, Hf1.
    split; [exact Hd1 | reflexivity].
Qed.

(** The states of [self] a process can be in: the one [__init__] builds, and
    the one any returning call of [eval] leaves. *)
Inductive reachable : ModelState E -> Prop :=
| reach_init : reachable (ModelState_init E)
| reach_eval s buf wbuf t tw inp po r :
    reachable s -> eval buf wbuf t tw inp po s = Some r ->
    reachable (self' r).

End WindowLengths.

(** C6. After initialisation and after every call of [eval] that returns,
    with or without inference, the desire window has length
    (HISTORY_BUFFER_LEN+1)*DESIRE_LEN = 800 and the feature window has length
    HISTORY_BUFFER_LEN*FEATURE_LEN = 12672. *)
Theorem window_lengths_invariant (E : Collaborators) (s : ModelState E) :
  reachable s ->
  length (Bound.desire_pulse (inputs s))
  = ((HISTORY_BUFFER_LEN + 1) * DESIRE_LEN)%nat
  /\ ((HISTORY_BUFFER_LEN + 1) * DESIRE_LEN = 800)%nat
  /\ length (Bound.feature_buffer (inputs s))
     = (HISTORY_BUFFER_LEN * FEATURE_LEN)%nat
  /\ (HISTORY_BUFFER_LEN * FEATURE_LEN = 12672)%nat.
Proof.
  intros H.
  assert (Hl : length (Bound.desire_pulse (inputs s))
               = ((HISTORY_BUFFER_LEN + 1) * DESIRE_LEN)%nat
               /\ length (Bound.feature_buffer (inputs s))
                  = (HISTORY_BUFFER_LEN * FEATURE_LEN)%nat).
  { induction H as [|s buf wbuf t tw inp po r _ IH Hev].
    - split; [apply (sh_desire _ init_shaped) | apply (sh_feature _ init_shaped)].
    - destruct (eval_window_lengths _ _ _ _ _ _ _ _ Hev) as [Hd Hf].
      rewrite Hd, Hf. exact IH. }
  destruct Hl as [Hd Hf].
  repeat split; try assumption; vm_compute; reflexivity.
Qed.

Lemma window_lengths_invariant_witness :
  exists r,
    @eval Demo.collaborators 1%Z None zeros33 zeros33 Demo.lane_change
          true (ModelState_init Demo.collaborators) = Some r
    /\ reachable (self' r)
    /\ length (Bound.desire_pulse (inputs (self' r))) = 800%nat.
Proof.
  assert (Hev : exists r,
             @eval Demo.collaborators 1%Z None zeros33 zeros33
                   Demo.lane_change true (ModelState_init Demo.collaborators)
             = Some r).
  { rewrite eval_staged
      by first [exact init_shaped | exact lane_change_shaped].
    eexists. reflexivity. }
  destruct Hev as [r Hev].
  assert (Hreach : reachable (self' r))
    by exact (reach_eval _ _ _ _ _ _ _ _ reach_init Hev).
  exists r. split; [exact Hev|]. split; [exact Hreach|].
  destruct (window_lengths_invariant Demo.collaborators (self' r) Hreach)
    as (Hd & H800 & _).
  rewrite Hd. exact H800.
Defined.

(** ** C7: the windows are queues *)

Section Fifo.

(** Dropping the oldest block of a window of [n] blocks and appending a new
    one moves every block one place down. *)
Lemma block_after_push (w n k : nat) (b v : list Q) :
  length b = (n * w)%nat -> (S k < n)%nat ->
  block w k (skipn w b ++ v) = block w (S k) b.
Proof.
  intros Hb Hk. unfold block.
  assert (Hle : (k * w + w <= length (skipn w b))%nat).
  { rewrite length_skipn, Hb. nia. }
  rewrite skipn_app.
  replace (k * w - length (skipn w b))%nat with 0%nat by lia.
  rewrite firstn_app, length_skipn.
  replace (w - (length (skipn w b) - k * w))%nat with 0%nat by lia.
  cbn [skipn firstn]. rewrite app_nil_r, skipn_skipn.
  f_equal. f_equal. cbn. lia.
Qed.

Lemma newest_block_after_push (w n : nat) (b v : list Q) :
  length b = (n * w)%nat -> (0 < n)%nat -> length v = w ->
  block w (n - 1) (skipn w b ++ v) = v.
Proof.
  intros Hb Hn Hv. unfold block.
  assert (Hl : length (skipn w b) = ((n - 1) * w)%nat).
  { rewrite length_skipn, Hb. nia. }
  rewrite skipn_app, Hl, Nat.sub_diag.
  rewrite skipn_all2 by lia. cbn [skipn app].
  rewrite <- Hv. apply firstn_all.
Qed.

(** Pushing a block is dropping [w] entries of the window with the block
    appended. *)
Lemma push_as_skipn (w : nat) (b v : list Q) :
  (w <= length b)%nat -> skipn w b ++ v = skipn w (b ++ v).
Proof.
  intros H. rewrite skipn_app.
  replace (w - length b)%nat with 0%nat by lia. reflexivity.
Qed.

End Fifo.

(** A call of [eval], as a value. *)
Record Call (E : Collaborators) : Type := {
  c_buf : VisionBuf E;
  c_wbuf : option (VisionBuf E);
  c_transform : Matrix;
  c_transform_wide : Matrix;
  c_inputs : Inputs.t;
  c_prepare_only : bool
}.
Arguments c_buf {E} _.
Arguments c_wbuf {E} _.
Arguments c_transform {E} _.
Arguments c_transform_wide {E} _.
Arguments c_inputs {E} _.
Arguments c_prepare_only {E} _.

Definition call {E} (c : Call E) (s : ModelState E) : option (EvalResult E) :=
  eval (c_buf c) (c_wbuf c) (c_transform c) (c_transform_wide c)
       (c_inputs c) (c_prepare_only c) s.

(** Consecutive calls of [eval]; the values they returned, in order. *)
Fixpoint evals {E} (cs : list (Call E)) (s : ModelState E)
  : option (ModelState E * list (option (list Q))) :=
  match cs with
  | [] => Some (s, [])
  | c :: rest =>
      r <- call c s ;;
      r' <- evals rest (self' r) ;;
      Some (fst r', ret r :: snd r')
  end.

(** A call that runs the engine on arrays of the expected shapes. *)
Definition full_call {E} (c : Call E) : Prop :=
  inputs_shaped (c_inputs c) /\ c_prepare_only c = false.

Section FifoEval.

Context {E : Collaborators}.
Implicit Types (s : ModelState E) (inp : Inputs.t).

Lemma engine_output_length s :
  length (engine_output s) = length (output s).
Proof. apply write_output_length. Qed.

(** The shapes survive a call. *)
Lemma eval_shaped buf wbuf t tw inp (po : bool) s r :
  shaped s -> inputs_shaped inp ->
  eval buf wbuf t tw inp po s = Some r -> shaped (self' r).
Proof.
  intros Hs Hi Hev.
  destruct (eval_window_lengths _ _ _ _ _ _ _ _ Hev) as [Hd Hf].
  assert (Hne : Inputs.desire_pulse inp <> []).
  { intros H. pose proof (ish_desire _ Hi) as Hl. rewrite H in Hl.
    discriminate Hl. }
  rewrite eval_staged in Hev by assumption. cbv zeta in Hev.
  pose proof (staged_inputs buf wbuf t tw inp s) as Hin.
  pose proof (staged_output buf wbuf t tw inp s) as Hout.
  pose proof (staged_prev_desire buf wbuf t tw inp s) as Hpd.
  split.
  - rewrite Hd. apply Hs.
  - destruct po; apply Some_eq in Hev; subst r;
      cbn [self' set_features inputs Bound.traffic_convention];
      rewrite Hin; apply Hi.
  - destruct po; apply Some_eq in Hev; subst r;
      cbn [self' set_features inputs Bound.nav_features];
      rewrite Hin; apply Hi.
  - rewrite Hf. apply Hs.
  - destruct po; apply Some_eq in Hev; subst r; cbn [self' set_features output].
    + rewrite Hout. apply Hs.
    + rewrite engine_output_length, Hout. apply Hs.
  - destruct po; apply Some_eq in Hev; subst r; cbn [self' set_features prev_desire];
      rewrite Hpd, astype_length, zeroed_length by exact Hne; apply Hi.
Qed.

(** One push into each window. *)
Lemma eval_pushes buf wbuf t tw inp (po : bool) s :
  shaped s -> inputs_shaped inp ->
  exists r,
    eval buf wbuf t tw inp po s = Some r
    /\ Bound.desire_pulse (inputs (self' r))
       = skipn DESIRE_LEN (Bound.desire_pulse (inputs s))
         ++ rising (Inputs.desire_dtype inp)
                   (zeroed (Inputs.desire_pulse inp)) (prev_desire s)
    /\ (po = true ->
        ret r = None
        /\ Bound.feature_buffer (inputs (self' r))
           = Bound.feature_buffer (inputs s))
    /\ (po = false ->
        exists out,
          ret r = Some out /\ length out = MODEL_OUTPUT_SIZE
          /\ Bound.feature_buffer (inputs (self' r))
             = skipn FEATURE_LEN (Bound.feature_buffer (inputs s))
               ++ features_of out).
Proof.
  intros Hs Hi. rewrite eval_staged by assumption. cbv zeta.
  pose proof (staged_inputs buf wbuf t tw inp s) as Hin.
  destruct po; eexists; (split; [reflexivity|]);
    cbn [self' ret set_features inputs Bound.desire_pulse Bound.feature_buffer];
    rewrite Hin; cbn [Bound.desire_pulse Bound.feature_buffer];
    (split; [reflexivity|]); split; intros Hpo; try discriminate Hpo.
  - split; reflexivity.
  - eexists. split; [reflexivity|]. split; [|reflexivity].
    rewrite engine_output_length, staged_output. apply Hs.
Qed.

(** Any number of engine runs: the feature window is the old window with
    the feature ranges of all outputs appended, less one block per run. *)
Lemma evals_feature_window (cs : list (Call E)) :
  forall s, shaped s -> Forall full_call cs ->
  exists s' outs,
    evals cs s = Some (s', map Some outs)
    /\ length outs = length cs
    /\ Forall (fun o => length o = MODEL_OUTPUT_SIZE) outs
    /\ shaped s'
    /\ Bound.feature_buffer (inputs s')
       = skipn (length cs * FEATURE_LEN)
               (Bound.feature_buffer (inputs s)
                ++ concat (map features_of outs)).
Proof.
  induction cs as [|c cs IH]; intros s Hs Hall.
  - exists s, []. cbn [evals map concat length Nat.mul skipn].
    rewrite app_nil_r.
    split; [reflexivity|]. split; [reflexivity|]. split; [constructor|].
    split; [exact Hs|reflexivity].
  - inversion Hall as [|c' cs' [Hi Hpo] Hrest]; subst.
    destruct (eval_pushes (c_buf c) (c_wbuf c) (c_transform c)
                (c_transform_wide c) (c_inputs c) (c_prepare_only c) s Hs Hi)
      as (r & Hev & _ & _ & Hfull).
    destruct (Hfull Hpo) as (out & Hret & Hout & Hfb).
    pose proof (eval_shaped _ _ _ _ _ _ _ _ Hs Hi Hev) as Hs1.
    destruct (IH (self' r) Hs1 Hrest)
      as (s' & outs & Hevs & Hlen & Houts & Hs' & Hw).
    exists s', (out :: outs).
    cbn [evals]. unfold call. rewrite Hev. cbn [bind]. rewrite Hevs.
    cbn [bind fst snd map]. rewrite Hret.
    split; [reflexivity|]. split; [cbn [length]; lia|].
    split; [constructor; assumption|]. split; [exact Hs'|].
    rewrite Hw, Hfb.
    pose proof (feature_len_le_window s Hs) as Hle.
    rewrite (push_as_skipn _ _ _ Hle).
    rewrite (push_as_skipn FEATURE_LEN)
      by (rewrite length_app; lia).
    rewrite skipn_skipn. cbn [map concat length].
    rewrite <- app_assoc. f_equal. cbn [Nat.mul]. apply Nat.add_comm.
Qed.

End FifoEval.

(** C7. Each call of [eval] moves every block of the desire window one
    place towards the front and makes the rising-edge block the newest; a
    call that runs the engine does the same to the feature window with the
    feature range of the output.  So 100 engine runs on a 99-block feature
    window leave the feature ranges of outputs 2 to 100, in order. *)
Theorem history_windows_fifo (E : Collaborators) (s : ModelState E) :
  shaped s ->
  (forall buf wbuf t tw inp po, inputs_shaped inp ->
   exists r,
     eval buf wbuf t tw inp po s = Some r
     /\ (forall k, (k < HISTORY_BUFFER_LEN)%nat ->
         block DESIRE_LEN k (Bound.desire_pulse (inputs (self' r)))
         = block DESIRE_LEN (S k) (Bound.desire_pulse (inputs s)))
     /\ block DESIRE_LEN HISTORY_BUFFER_LEN
               (Bound.desire_pulse (inputs (self' r)))
        = rising (Inputs.desire_dtype inp)
                 (zeroed (Inputs.desire_pulse inp)) (prev_desire s)
     /\ (po = false ->
         exists out,
           ret r = Some out
           /\ (forall k, (S k < HISTORY_BUFFER_LEN)%nat ->
               block FEATURE_LEN k (Bound.feature_buffer (inputs (self' r)))
               = block FEATURE_LEN (S k) (Bound.feature_buffer (inputs s)))
           /\ block FEATURE_LEN (HISTORY_BUFFER_LEN - 1)
                     (Bound.feature_buffer (inputs (self' r)))
              = features_of out))
  /\ (forall cs : list (Call E),
      Forall full_call cs -> length cs = 100%nat ->
      exists s' v1 vs,
        evals cs s = Some (s', map Some (v1 :: vs))
        /\ length vs = HISTORY_BUFFER_LEN
        /\ Bound.feature_buffer (inputs s') = concat (map features_of vs)).
Proof.
  intros Hs. split.
  - intros buf wbuf t tw inp po Hi.
    destruct (eval_pushes buf wbuf t tw inp po s Hs Hi)
      as (r & Hev & Hdp & _ & Hfull).
    assert (Hne : Inputs.desire_pulse inp <> []).
    { intros H. pose proof (ish_desire _ Hi) as Hl. rewrite H in Hl.
      discriminate Hl. }
    assert (Hrl : length (rising (Inputs.desire_dtype inp)
                                 (zeroed (Inputs.desire_pulse inp))
                                 (prev_desire s)) = DESIRE_LEN).
    { rewrite rising_length; rewrite zeroed_length by exact Hne.
      - apply Hi.
      - rewrite (ish_desire _ Hi), (sh_prev _ Hs). reflexivity. }
    exists r. split; [exact Hev|]. rewrite Hdp. split; [|split].
    + intros k Hk.
      apply (block_after_push DESIRE_LEN (HISTORY_BUFFER_LEN + 1));
        [apply Hs | lia].
    + replace HISTORY_BUFFER_LEN with (HISTORY_BUFFER_LEN + 1 - 1)%nat at 1
        by reflexivity.
      apply newest_block_after_push; [apply Hs | lia | exact Hrl].
    + intros Hpo. destruct (Hfull Hpo) as (out & Hret & Hout & Hfb).
      exists out. split; [exact Hret|]. rewrite Hfb. split.
      * intros k Hk.
        apply (block_after_push FEATURE_LEN HISTORY_BUFFER_LEN);
          [apply Hs | exact Hk].
      * apply newest_block_after_push;
          [apply Hs | unfold HISTORY_BUFFER_LEN; lia
          | apply features_of_length; exact Hout].
  - intros cs Hall Hlen.
    destruct (evals_feature_window cs s Hs Hall)
      as (s' & outs & Hev & Hlo & Houts & _ & Hw).
    rewrite Hlen in Hlo, Hw.
    destruct outs as [|v1 vs]; [discriminate Hlo|].
    exists s', v1, vs. split; [exact Hev|].
    split; [cbn [length] in Hlo; unfold HISTORY_BUFFER_LEN; lia|].
    rewrite Hw. cbn [map concat]. rewrite app_assoc, skipn_app.
    inversion Houts as [|o os Ho1 _]; subst.
    assert (Hl : length (Bound.feature_buffer (inputs s) ++ features_of v1)
                 = (100 * FEATURE_LEN)%nat).
    { rewrite length_app, (sh_feature _ Hs), (features_of_length _ Ho1).
      vm_compute. reflexivity. }
    rewrite Hl, Nat.sub_diag, skipn_all2 by lia. reflexivity.
Qed.

Lemma history_windows_fifo_witness :
  shaped (ModelState_init Demo.collaborators)
  /\ exists r,
       @eval Demo.collaborators 1%Z None zeros33 zeros33 Demo.lane_change
             true (ModelState_init Demo.collaborators) = Some r
       /\ block DESIRE_LEN HISTORY_BUFFER_LEN
                (Bound.desire_pulse (inputs (self' r)))
          = [0; 0; 0; 1; 0; 0; 0; 0].
Proof.
  split; [exact init_shaped|].
  destruct (history_windows_fifo Demo.collaborators
              (ModelState_init Demo.collaborators) init_shaped) as [Hone _].
  destruct (Hone 1%Z None zeros33 zeros33 Demo.lane_change true
                 lane_change_shaped) as (r & Hr & _ & Hnew & _).
  exists r. split; [exact Hr | exact Hnew].
Defined.

(** ** The main loop *)

(** The values of lines 209-213, from the state the synchronisation left. *)
Definition dropped_of {E} (st : Loop.t E) : Z :=
  (Vipc.frame_id (Loop.vipc_client_main st) - Loop.last_vipc_frame_id st - 1)%Z.

Definition filter_input_of {E} (st : Loop.t E) : Q :=
  inject_Z (Z.min (dropped_of st) 10).

Definition frames_dropped_of {E} (st : Loop.t E) : Q :=
  if (Loop.run_count st <? 10)%Z then 0
  else snd (FirstOrderFilter.update (Loop.frame_dropped_filter st)
                                    (filter_input_of st)).

(** The arrays line 221 passes to [eval]. *)
Definition inputs_of (sm : Sm.t) : Inputs.t :=
  {| Inputs.desire_dtype := Float.Float32;
     Inputs.desire_pulse :=
       match vec_desire (Sm.desire sm) with Some v => v | None => [] end;
     Inputs.traffic_convention :=
       match traffic_convention (Sm.isRHD sm) with Some v => v | None => [] end;
     Inputs.driving_style := driving_style;
     Inputs.nav_features := nav_features |}.

Section LoopFacts.

Context {E : Collaborators}.
Implicit Types (st : Loop.t E) (sm : Sm.t).

Lemma vec_desire_ok (d : Z) :
  exists v, vec_desire d = Some v /\ length v = DESIRE_LEN.
Proof.
  unfold vec_desire.
  destruct ((0 <=? d)%Z && (d <? Z.of_nat DESIRE_LEN)%Z) eqn:Hd.
  - apply andb_prop in Hd. destruct Hd as [H0 H1].
    apply Z.leb_le in H0. apply Z.ltb_lt in H1.
    destruct (setitem_in_range (Z.to_nat d) 1 (Np.zeros DESIRE_LEN))
      as [v Hv]; [rewrite zeros_length; lia|].
    exists v. split; [exact Hv|].
    rewrite (setitem_length _ _ _ _ Hv). apply zeros_length.
  - eexists. split; [reflexivity | apply zeros_length].
Qed.

Lemma traffic_convention_ok (b : bool) :
  exists v, traffic_convention b = Some v /\ length v = TRAFFIC_CONVENTION_LEN.
Proof. destruct b; eexists; split; reflexivity. Qed.

Lemma inputs_of_shaped sm : inputs_shaped (inputs_of sm).
Proof.
  destruct (vec_desire_ok (Sm.desire sm)) as (v & Hv & Hl).
  destruct (traffic_convention_ok (Sm.isRHD sm)) as (c & Hc & Hcl).
  split; unfold inputs_of; cbn [Inputs.desire_pulse Inputs.traffic_convention
                                Inputs.nav_features].
  - rewrite Hv. exact Hl.
  - rewrite Hc. exact Hcl.
  - apply zeros_length.
Qed.

(** The synchronisation touches the two clients and the two buffer
    variables, and nothing else. *)
Lemma sync_frames_is_set_clients st :
  exists main extra bm be,
    fst (fst (sync_frames st)) = set_clients main extra bm be st.
Proof.
  unfold sync_frames.
  destruct (recv_main _ _ _) as [main [b|]]; [|cbn; eauto].
  destruct (Loop.use_extra_client st); [|cbn; eauto].
  destruct (recv_extra _ _) as [extra [b'|]]; cbn; eauto.
Qed.

(** The only events of the synchronisation are error logs. *)
Lemma sync_frames_events st :
  forallb (fun e => negb (is_prepare e) && negb (is_execute e))
          (snd (sync_frames st)) = true.
Proof.
  unfold sync_frames.
  destruct (recv_main _ _ _) as [main [b|]]; [|reflexivity].
  destruct (Loop.use_extra_client st); [|reflexivity].
  destruct (recv_extra _ _) as [extra [b'|]]; [|reflexivity].
  cbn [snd]. unfold out_of_sync_log.
  destruct (out_of_sync_test main extra); reflexivity.
Qed.

Lemma cycle_eval_total sm (bm be : VisionBuf E) st :
  shaped (Loop.model st) ->
  exists r,
    eval bm (Some be) (fst (fst (calibrate sm st))) (snd (fst (calibrate sm st)))
         (inputs_of sm) (0 <? dropped_of st)%Z (Loop.model st) = Some r.
Proof.
  intros Hs. rewrite eval_staged by (assumption || apply inputs_of_shaped).
  cbv zeta. destruct (0 <? dropped_of st)%Z; eexists; reflexivity.
Qed.

(** Lines 191-241 without the monad, when the arrays of [self] have the
    expected shapes and line 216 does not divide by zero. *)
Lemma evaluate_cycle_ok sm (bm be : VisionBuf E) st (ratio : Q) :
  shaped (Loop.model st) ->
  drop_ratio (frames_dropped_of st) = Some ratio ->
  exists r,
    eval bm (Some be) (fst (fst (calibrate sm st))) (snd (fst (calibrate sm st)))
         (inputs_of sm) (0 <? dropped_of st)%Z (Loop.model st) = Some r
    /\ evaluate_cycle sm bm be st
       = Some ({| Loop.use_extra_client := Loop.use_extra_client st;
                  Loop.main_wide_camera := Loop.main_wide_camera st;
                  Loop.vipc_client_main := Loop.vipc_client_main st;
                  Loop.vipc_client_extra := Loop.vipc_client_extra st;
                  Loop.model := self' r;
                  Loop.frame_dropped_filter :=
                    fst (FirstOrderFilter.update (Loop.frame_dropped_filter st)
                                                 (filter_input_of st));
                  Loop.frame_id := Sm.frameId sm;
                  Loop.last_vipc_frame_id :=
                    Vipc.frame_id (Loop.vipc_client_main st);
                  Loop.run_count := (Loop.run_count st + 1)%Z;
                  Loop.model_transform_main := fst (fst (calibrate sm st));
                  Loop.model_transform_extra := snd (fst (calibrate sm st));
                  Loop.live_calib_seen := snd (calibrate sm st);
                  Loop.buf_main := Loop.buf_main st;
                  Loop.buf_extra := Loop.buf_extra st |},
               {| vipc_dropped_frames := dropped_of st;
                  frames_dropped := frames_dropped_of st;
                  frame_drop_ratio := ratio;
                  prepare_only := (0 <? dropped_of st)%Z;
                  model_output := ret r |},
               (if (0 <? dropped_of st)%Z
                then [EvLogError (SkippingModelEval (dropped_of st))] else [])
               ++ events r).
Proof.
  intros Hs Hr.
  pose proof (inputs_of_shaped sm) as Hi.
  destruct (cycle_eval_total sm bm be st Hs) as [r Hev].
  exists r. split; [exact Hev|].
  unfold evaluate_cycle.
  destruct (calibrate sm st) as [[mm me] seen]. cbn [fst snd] in *.
  unfold inputs_of in Hev.
  destruct (vec_desire_ok (Sm.desire sm)) as (v & Hv & _).
  destruct (traffic_convention_ok (Sm.isRHD sm)) as (c & Hc & _).
  rewrite Hv, Hc in *. cbn [bind].
  unfold frames_dropped_of, filter_input_of, dropped_of in *.
  destruct (FirstOrderFilter.update _ _) as [filt filtered]. cbn [fst snd] in *.
  rewrite Hr. cbn [bind]. rewrite Hev. reflexivity.
Qed.

End LoopFacts.

Section CycleFacts.

Context {E : Collaborators}.
Implicit Types (st : Loop.t E) (sm : Sm.t) (s : ModelState E).

(** What the steps before line 92 do to the engine and to the world, for
    a call with a wide buffer. *)
Lemma staged_effects (bm be : VisionBuf E) (t tw : Matrix) (inp : Inputs.t) s :
  let cl1 := getCLBuffer E "input_imgs" in
  let cl2 := getCLBuffer E "big_input_imgs" in
  let T1 := snd (prepare E (frame s) bm (warp_argument t) cl1) in
  let T2 := snd (prepare E (wide_frame s) be (warp_argument tw) cl2) in
  model (fst (staged bm (Some be) t tw inp s))
  = {| Onnx.input_imgs := Some T1; Onnx.big_input_imgs := Some T2 |}
  /\ snd (staged bm (Some be) t tw inp s)
     = [EvLogInfo DesireEnqueued;
        EvGetCLBuffer "input_imgs";
        EvPrepare MainCam bm (warp_argument t) cl1;
        EvSetInputBuffer "input_imgs" T1;
        EvLogInfo ImageAdded;
        EvGetCLBuffer "big_input_imgs";
        EvPrepare WideCam be (warp_argument tw) cl2;
        EvSetInputBuffer "big_input_imgs" T2;
        EvLogInfo ExtraImageAdded].
Proof.
  unfold staged. cbv zeta.
  set (s2 := set_side_inputs _ _ _).
  unfold prepare_main. cbv zeta. change (frame s2) with (frame s).
  destruct (prepare E (frame s) bm (warp_argument t) _) as [f1 T1].
  cbn [fst snd]. unfold prepare_wide. cbv zeta.
  change (wide_frame (set_main_image f1 T1 s2)) with (wide_frame s).
  destruct (prepare E (wide_frame s) be (warp_argument tw) _) as [f2 T2].
  cbn [fst snd]. split; reflexivity.
Qed.

(** What a call with a wide buffer does to the engine and to the world. *)
Lemma eval_effects (bm be : VisionBuf E) (t tw : Matrix) (inp : Inputs.t)
  (po : bool) s r :
  shaped s -> inputs_shaped inp ->
  eval bm (Some be) t tw inp po s = Some r ->
  let cl1 := getCLBuffer E "input_imgs" in
  let cl2 := getCLBuffer E "big_input_imgs" in
  let T1 := snd (prepare E (frame s) bm (warp_argument t) cl1) in
  let T2 := snd (prepare E (wide_frame s) be (warp_argument tw) cl2) in
  model (self' r)
  = {| Onnx.input_imgs := Some T1; Onnx.big_input_imgs := Some T2 |}
  /\ events r
     = [EvLogInfo DesireEnqueued;
        EvGetCLBuffer "input_imgs";
        EvPrepare MainCam bm (warp_argument t) cl1;
        EvSetInputBuffer "input_imgs" T1;
        EvLogInfo ImageAdded;
        EvGetCLBuffer "big_input_imgs";
        EvPrepare WideCam be (warp_argument tw) cl2;
        EvSetInputBuffer "big_input_imgs" T2;
        EvLogInfo ExtraImageAdded]
       ++ (if po then []
           else [EvExecute; EvLogInfo ExecutionFinished;
                 EvLogInfo FeaturesEnqueued]).
Proof.
  intros Hs Hi Hev. rewrite eval_staged in Hev by assumption.
  cbv zeta in Hev.
  destruct (staged_effects bm be t tw inp s) as [Hm He]. cbv zeta in Hm, He.
  cbv zeta.
  destruct po; apply Some_eq in Hev; subst r;
    cbn [self' events set_features model]; rewrite Hm, He;
    split; reflexivity.
Qed.

(** A cycle whose frames were synchronised, when the arrays of [self] have
    the expected shapes and line 216 does not divide by zero. *)
Lemma cycle_synced sm st st1 (bm be : VisionBuf E) ev1 (ratio : Q) :
  shaped (Loop.model st) ->
  sync_frames st = (st1, Synced bm be, ev1) ->
  drop_ratio (frames_dropped_of st1) = Some ratio ->
  Loop.model st1 = Loop.model st
  /\ exists r st',
    eval bm (Some be) (fst (fst (calibrate sm st1)))
         (snd (fst (calibrate sm st1)))
         (inputs_of sm) (0 <? dropped_of st1)%Z (Loop.model st) = Some r
    /\ Loop.model st' = self' r
    /\ Loop.frame_dropped_filter st'
       = fst (FirstOrderFilter.update (Loop.frame_dropped_filter st1)
                                      (filter_input_of st1))
    /\ Loop.run_count st' = (Loop.run_count st1 + 1)%Z
    /\ Loop.last_vipc_frame_id st' = Vipc.frame_id (Loop.vipc_client_main st1)
    /\ Loop.model_transform_main st' = fst (fst (calibrate sm st1))
    /\ Loop.model_transform_extra st' = snd (fst (calibrate sm st1))
    /\ Loop.live_calib_seen st' = snd (calibrate sm st1)
    /\ cycle sm st
       = Some (st',
               Evaluated {| vipc_dropped_frames := dropped_of st1;
                            frames_dropped := frames_dropped_of st1;
                            frame_drop_ratio := ratio;
                            prepare_only := (0 <? dropped_of st1)%Z;
                            model_output := ret r |},
               ev1 ++ (if (0 <? dropped_of st1)%Z
                       then [EvLogError (SkippingModelEval (dropped_of st1))]
                       else [])
                   ++ events r).
Proof.
  intros Hs Hsy Hr.
  assert (Hm : Loop.model st1 = Loop.model st).
  { destruct (sync_frames_is_set_clients st) as (m & e & b & b' & Heq).
    rewrite Hsy in Heq. cbn [fst] in Heq. rewrite Heq. reflexivity. }
  split; [exact Hm|].
  assert (Hs1 : shaped (Loop.model st1)) by (rewrite Hm; exact Hs).
  destruct (evaluate_cycle_ok sm bm be st1 ratio Hs1 Hr) as (r & Hev & Hcy).
  eassert (Hc : cycle sm st = Some (_, _, _)).
  { unfold cycle. rewrite Hsy, Hcy. cbn [bind fst snd]. reflexivity. }
  exists r.
  match type of Hc with _ = Some (?x, _, _) => exists x end.
  split; [rewrite <- Hm; exact Hev|].
  repeat (split; [reflexivity|]). exact Hc.
Qed.

(** A skipped cycle. *)
Lemma cycle_skipped sm st :
  match snd (fst (sync_frames st)) with
  | Synced _ _ => True
  | NoMainFrame =>
      cycle sm st = Some (fst (fst (sync_frames st)), SkippedNoMain,
                          snd (sync_frames st))
  | NoExtraFrame =>
      cycle sm st = Some (fst (fst (sync_frames st)), SkippedNoExtra,
                          snd (sync_frames st))
  end.
Proof.
  unfold cycle. destruct (sync_frames st) as [[st1 sy] ev1].
  destruct sy; cbn [fst snd]; auto.
Qed.

End CycleFacts.

(** Start-up states to run the loop on. *)
Module Scenario.

(** Single-camera mode: the main stream will deliver the given frames. *)
Definition single (frames : list (option (Vipc.Frame Demo.collaborators)))
  : Loop.t Demo.collaborators :=
  loop_init Demo.collaborators false false (Demo.client frames) (Demo.client []).

(** Two cameras. *)
Definition dual (main extra : list (option (Vipc.Frame Demo.collaborators)))
  : Loop.t Demo.collaborators :=
  loop_init Demo.collaborators true false (Demo.client main) (Demo.client extra).

End Scenario.

(** The first cycle of a loop whose main stream delivers one frame, 50 ms
    after start, evaluates it, with one camera and with two. *)
Lemma single_camera_cycle (sm : Sm.t) :
  let st := Scenario.single [Demo.frame 1 50000000] in
  exists st' l ev, cycle sm st = Some (st', Evaluated l, ev).
Proof.
  intros st.
  destruct (cycle_synced sm st (fst (fst (sync_frames st))) 1%Z 1%Z []
              (0 / (1 + 0)) init_shaped eq_refl eq_refl)
    as (_ & r & st' & _ & _ & _ & _ & _ & _ & _ & _ & Hc).
  exists st'. eexists. eexists. exact Hc.
Qed.

Lemma two_camera_cycle (sm : Sm.t) :
  let st := Scenario.dual [Demo.frame 1 50000000] [Demo.frame 1 30000000] in
  exists st' l ev, cycle sm st = Some (st', Evaluated l, ev).
Proof.
  intros st.
  destruct (cycle_synced sm st (fst (fst (sync_frames st))) 1%Z 1%Z []
              (0 / (1 + 0)) init_shaped eq_refl eq_refl)
    as (_ & r & st' & _ & _ & _ & _ & _ & _ & _ & _ & Hc).
  exists st'. eexists. eexists. exact Hc.
Qed.

Lemma single_camera_run (sm : Sm.t) :
  let st := Scenario.single [Demo.frame 1 50000000] in
  exists st' l, run [sm] st = Some (st', [Evaluated l]).
Proof.
  intros st. destruct (single_camera_cycle sm) as (st' & l & ev & Hc).
  exists st', l. subst st. cbn [run]. rewrite Hc. reflexivity.
Qed.

Lemma forallb_weaken {A : Type} (p q : A -> bool) (l : list A) :
  (forall a, p a = true -> q a = true) ->
  forallb p l = true -> forallb q l = true.
Proof.
  intros Hpq H. apply forallb_forall. intros a Ha.
  apply Hpq. revert a Ha. apply forallb_forall. exact H.
Qed.

Lemma sync_no_execute {E} (st : Loop.t E) :
  forallb (fun e => negb (is_execute e)) (snd (sync_frames st)) = true.
Proof.
  apply (forallb_weaken (fun e => negb (is_prepare e) && negb (is_execute e)));
    [|apply sync_frames_events].
  intros a H. apply andb_prop in H. apply H.
Qed.

(** ** C5: the prepare-only policy *)

(** C5. A cycle that finds frames dropped (and reaches line 217) calls
    [eval] with [prepare_only] set: the engine is not run, no output is
    returned, the feature window is the one the cycle found, and both image
    tensors have been prepared from the cycle's buffers (with the cycle's
    warp matrices as float32 and the engine's device buffers) and bound. *)
Theorem prepare_only_policy (E : Collaborators) (sm : Sm.t)
  (st st1 : Loop.t E) (bm be : VisionBuf E) (ev1 : list (Event E)) (ratio : Q) :
  shaped (Loop.model st) ->
  sync_frames st = (st1, Synced bm be, ev1) ->
  (0 < dropped_of st1)%Z ->
  drop_ratio (frames_dropped_of st1) = Some ratio ->
  exists st' l ev,
    cycle sm st = Some (st', Evaluated l, ev)
    /\ vipc_dropped_frames l = dropped_of st1
    /\ prepare_only l = true
    /\ model_output l = None
    /\ forallb (fun e => negb (is_execute e)) ev = true
    /\ Bound.feature_buffer (inputs (Loop.model st'))
       = Bound.feature_buffer (inputs (Loop.model st))
    /\ (let tm := warp_argument (fst (fst (calibrate sm st1))) in
        let tw := warp_argument (snd (fst (calibrate sm st1))) in
        let cl1 := getCLBuffer E "input_imgs" in
        let cl2 := getCLBuffer E "big_input_imgs" in
        let T1 := snd (prepare E (frame (Loop.model st)) bm tm cl1) in
        let T2 := snd (prepare E (wide_frame (Loop.model st)) be tw cl2) in
        In (EvPrepare MainCam bm tm cl1) ev
        /\ In (EvSetInputBuffer "input_imgs" T1) ev
        /\ In (EvPrepare WideCam be tw cl2) ev
        /\ In (EvSetInputBuffer "big_input_imgs" T2) ev
        /\ model (Loop.model st')
           = {| Onnx.input_imgs := Some T1; Onnx.big_input_imgs := Some T2 |}).
Proof.
  intros Hs Hsy Hd Hr.
  destruct (cycle_synced sm st st1 bm be ev1 ratio Hs Hsy Hr)
    as (Hm & r & st' & Hev & Hmod & _ & _ & _ & _ & _ & _ & Hc).
  assert (Hpo : (0 <? dropped_of st1)%Z = true) by (apply Z.ltb_lt; exact Hd).
  rewrite Hpo in *.
  pose proof (inputs_of_shaped sm) as Hi.
  destruct (eval_pushes bm (Some be) (fst (fst (calibrate sm st1)))
              (snd (fst (calibrate sm st1))) (inputs_of sm) true
              (Loop.model st) Hs Hi) as (r' & Hev' & _ & Htrue & _).
  rewrite Hev in Hev'. apply Some_eq in Hev'. subst r'.
  destruct (Htrue eq_refl) as [Hret Hfb].
  destruct (eval_effects bm be _ _ (inputs_of sm) true (Loop.model st) r
              Hs Hi Hev) as [Hmodel Hevents].
  cbv zeta in Hmodel, Hevents.
  do 3 eexists. split; [exact Hc|]. cbn [vipc_dropped_frames prepare_only
                                         model_output].
  split; [reflexivity|]. split; [reflexivity|]. split; [exact Hret|].
  rewrite Hmod. split; [|split; [exact Hfb|]].
  - rewrite !forallb_app. rewrite Hevents.
    pose proof (sync_no_execute st) as He. rewrite Hsy in He.
    cbn [snd] in He. rewrite He. reflexivity.
  - cbv zeta. rewrite Hevents.
    repeat split; try exact Hmodel;
      apply in_or_app; right; apply in_or_app; right; cbn; tauto.
Qed.

Lemma prepare_only_policy_witness :
  let st := Scenario.single [Demo.frame 5 50000000] in
  shaped (Loop.model st)
  /\ (0 < dropped_of (fst (fst (sync_frames st))))%Z
  /\ exists st' l ev,
       cycle (Demo.snapshot 3 false) st = Some (st', Evaluated l, ev)
       /\ vipc_dropped_frames l = 4%Z
       /\ model_output l = None.
Proof.
  intros st. split; [exact init_shaped|]. split; [reflexivity|].
  destruct (prepare_only_policy Demo.collaborators (Demo.snapshot 3 false)
              st (fst (fst (sync_frames st))) 5%Z 5%Z [] (0 / (1 + 0))
              init_shaped eq_refl eq_refl eq_refl)
    as (st' & l & ev & Hc & Hd & _ & Ho & _).
  exists st', l, ev. split; [exact Hc|]. split; [exact Hd | exact Ho].
Defined.

(** ** C9: a cycle without frames changes nothing *)

(** The loop of lines 161-164 ends without a main frame. *)
Definition main_unavailable {E} (st : Loop.t E) : Prop :=
  snd (recv_main (Loop.vipc_client_main st) (Loop.buf_main st)
                 (Vipc.timestamp_sof (Loop.vipc_client_extra st))) = None.

(** A main frame is there, the extra stream is in use, and the loop of
    lines 172-175 ends without an extra frame. *)
Definition extra_unavailable {E} (st : Loop.t E) : Prop :=
  let r := recv_main (Loop.vipc_client_main st) (Loop.buf_main st)
                     (Vipc.timestamp_sof (Loop.vipc_client_extra st)) in
  snd r <> None
  /\ Loop.use_extra_client st = true
  /\ snd (recv_extra (Loop.vipc_client_extra st) (Vipc.timestamp_sof (fst r)))
     = None.

(** C9. A cycle that finds no main frame, or no extra frame when the extra
    stream is in use, is skipped: the model state (both windows and
    [prev_desire]), the drop filter, the run count, the two warp matrices,
    the calibration flag and the last main frame id are the ones the cycle
    found, and nothing was prepared or executed. *)
Theorem no_frame_atomicity (E : Collaborators) (sm : Sm.t) (st : Loop.t E) :
  main_unavailable st \/ extra_unavailable st ->
  exists st' out ev,
    cycle sm st = Some (st', out, ev)
    /\ (out = SkippedNoMain \/ out = SkippedNoExtra)
    /\ Loop.model st' = Loop.model st
    /\ Loop.frame_dropped_filter st' = Loop.frame_dropped_filter st
    /\ Loop.run_count st' = Loop.run_count st
    /\ Loop.model_transform_main st' = Loop.model_transform_main st
    /\ Loop.model_transform_extra st' = Loop.model_transform_extra st
    /\ Loop.live_calib_seen st' = Loop.live_calib_seen st
    /\ Loop.last_vipc_frame_id st' = Loop.last_vipc_frame_id st
    /\ forallb (fun e => negb (is_prepare e) && negb (is_execute e)) ev = true.
Proof.
  intros H.
  pose proof (cycle_skipped sm st) as Hc.
  pose proof (sync_frames_events st) as Hev.
  destruct (sync_frames_is_set_clients st) as (m & e & b & b' & Hst).
  assert (Hsk : snd (fst (sync_frames st)) = NoMainFrame
                \/ snd (fst (sync_frames st)) = NoExtraFrame).
  { unfold sync_frames. destruct H as [H | (Hm & Hu & He)].
    - unfold main_unavailable in H.
      destruct (recv_main _ _ _) as [main bm]. cbn [snd] in H. subst bm.
      left. reflexivity.
    - cbv zeta in Hm, He.
      destruct (recv_main _ _ _) as [main [bm|]]; cbn [fst snd] in *;
        [|congruence].
      rewrite Hu.
      destruct (recv_extra _ _) as [extra be']. cbn [snd] in He. subst be'.
      right. reflexivity. }
  exists (fst (fst (sync_frames st))).
  destruct Hsk as [Hsk | Hsk]; rewrite Hsk in Hc;
    [exists SkippedNoMain | exists SkippedNoExtra];
    exists (snd (sync_frames st));
    (split; [exact Hc|]); (split; [auto|]);
    rewrite Hst; cbn [set_clients Loop.model Loop.frame_dropped_filter
      Loop.run_count Loop.model_transform_main Loop.model_transform_extra
      Loop.live_calib_seen Loop.last_vipc_frame_id];
    repeat (split; [reflexivity|]); exact Hev.
Qed.

Lemma no_frame_atomicity_witness :
  main_unavailable (Scenario.single [])
  /\ exists st' out ev,
       cycle (Demo.snapshot 3 true) (Scenario.single []) = Some (st', out, ev)
       /\ Loop.live_calib_seen st' = false.
Proof.
  split; [reflexivity|].
  destruct (no_frame_atomicity Demo.collaborators (Demo.snapshot 3 true)
              (Scenario.single []) (or_introl eq_refl))
    as (st' & out & ev & Hc & _ & _ & _ & _ & _ & _ & Hseen & _).
  exists st', out, ev. split; [exact Hc | exact Hseen].
Defined.

(** ** Cycles, by cases *)

Section CycleCases.

Context {E : Collaborators}.
Implicit Types (st : Loop.t E) (sm : Sm.t).

Lemma evaluate_cycle_ratio sm (bm be : VisionBuf E) st x :
  evaluate_cycle sm bm be st = Some x ->
  exists ratio, drop_ratio (frames_dropped_of st) = Some ratio.
Proof.
  unfold evaluate_cycle, frames_dropped_of, filter_input_of, dropped_of.
  destruct (calibrate sm st) as [[mm me] seen].
  intros H. bind_inv H as tc Htc. bind_inv H as vd Hvd.
  destruct (FirstOrderFilter.update _ _) as [filt filtered]. cbn [snd].
  bind_inv H as ratio Hr. eauto.
Qed.

Lemma calibrate_set_clients sm (m e : Vipc.t E) b b' st :
  calibrate sm (set_clients m e b b' st) = calibrate sm st.
Proof. reflexivity. Qed.

(** Every cycle that returns was skipped, and changed the clients and the
    buffer variables only, or went through lines 191-241. *)
Lemma cycle_cases sm st st' out ev :
  shaped (Loop.model st) ->
  cycle sm st = Some (st', out, ev) ->
  (exists m e b b',
     st' = set_clients m e b b' st
     /\ (out = SkippedNoMain \/ out = SkippedNoExtra))
  \/ (exists m e b b' bm be ev1 ratio r,
        let st1 := set_clients m e b b' st in
        sync_frames st = (st1, Synced bm be, ev1)
        /\ drop_ratio (frames_dropped_of st1) = Some ratio
        /\ eval bm (Some be) (fst (fst (calibrate sm st)))
                (snd (fst (calibrate sm st)))
                (inputs_of sm) (0 <? dropped_of st1)%Z (Loop.model st) = Some r
        /\ Loop.model st' = self' r
        /\ Loop.frame_dropped_filter st'
           = fst (FirstOrderFilter.update (Loop.frame_dropped_filter st)
                                          (filter_input_of st1))
        /\ Loop.run_count st' = (Loop.run_count st + 1)%Z
        /\ Loop.last_vipc_frame_id st' = Vipc.frame_id m
        /\ Loop.model_transform_main st' = fst (fst (calibrate sm st))
        /\ Loop.model_transform_extra st' = snd (fst (calibrate sm st))
        /\ Loop.live_calib_seen st' = snd (calibrate sm st)
        /\ out = Evaluated {| vipc_dropped_frames := dropped_of st1;
                              frames_dropped := frames_dropped_of st1;
                              frame_drop_ratio := ratio;
                              prepare_only := (0 <? dropped_of st1)%Z;
                              model_output := ret r |}
        /\ ev = ev1 ++ (if (0 <? dropped_of st1)%Z
                        then [EvLogError (SkippingModelEval (dropped_of st1))]
                        else [])
                    ++ events r).
Proof.
  intros Hs Hc.
  destruct (sync_frames_is_set_clients st) as (m & e & b & b' & Hst).
  pose proof (cycle_skipped sm st) as Hsk.
  destruct (sync_frames st) as [[st1 sy] ev1] eqn:Hsy.
  cbn [fst snd] in Hst, Hsk. subst st1.
  destruct sy as [| |bm be].
  - left. rewrite Hsk in Hc. apply Some_eq in Hc.
    injection Hc as <- <- <-. exists m, e, b, b'. auto.
  - left. rewrite Hsk in Hc. apply Some_eq in Hc.
    injection Hc as <- <- <-. exists m, e, b, b'. auto.
  - right. clear Hsk.
    assert (Hr : exists ratio,
               drop_ratio (frames_dropped_of (set_clients m e b b' st))
               = Some ratio).
    { unfold cycle in Hc. rewrite Hsy in Hc. bind_inv Hc as x Hx.
      eapply evaluate_cycle_ratio; eauto. }
    destruct Hr as [ratio Hr].
    destruct (cycle_synced sm st _ bm be ev1 ratio Hs Hsy Hr)
      as (_ & r & st2 & Hev & H1 & H2 & H3 & H4 & H5 & H6 & H7 & Hc2).
    rewrite Hc in Hc2. apply Some_eq in Hc2.
    injection Hc2 as <- -> ->.
    exists m, e, b, b', bm, be, ev1, ratio, r. cbv zeta.
    rewrite calibrate_set_clients in *.
    repeat (split; [assumption || reflexivity|]). reflexivity.
Qed.

(** The shapes survive a cycle. *)
Lemma cycle_shaped sm st st' out ev :
  shaped (Loop.model st) -> cycle sm st = Some (st', out, ev) ->
  shaped (Loop.model st').
Proof.
  intros Hs Hc.
  destruct (cycle_cases sm st st' out ev Hs Hc)
    as [(m & e & b & b' & -> & _)
       |(m & e & b & b' & bm & be & ev1 & ratio & r & H)];
    [exact Hs|].
  cbv zeta in H. destruct H as (_ & _ & Hev & Hm & _).
  rewrite Hm. eapply eval_shaped; [exact Hs | apply inputs_of_shaped | exact Hev].
Qed.

Lemma run_shaped (sms : list Sm.t) :
  forall st st' outs,
    shaped (Loop.model st) -> run sms st = Some (st', outs) ->
    shaped (Loop.model st').
Proof.
  induction sms as [|sm sms IH]; intros st st' outs Hs Hr; cbn [run] in Hr.
  - apply Some_eq in Hr. injection Hr as <- _. exact Hs.
  - bind_inv Hr as c Hc. bind_inv Hr as r' Hr'.
    destruct r' as [s2 o2]. cbn [fst snd] in Hr.
    apply Some_eq in Hr. injection Hr as <- _.
    destruct c as [[st1 o] ev]. cbn [fst] in Hr'.
    eapply IH; [|exact Hr']. eapply cycle_shaped; eauto.
Qed.

End CycleCases.

(** ** C10: the calibration latch *)

Section Calibration.

Context {E : Collaborators}.
Implicit Types (st : Loop.t E) (sm : Sm.t).

Lemma cycle_calibration sm st st' out ev :
  shaped (Loop.model st) -> cycle sm st = Some (st', out, ev) ->
  (Loop.live_calib_seen st = true -> Loop.live_calib_seen st' = true)
  /\ (Sm.liveCalibration_updated sm = false ->
      Loop.live_calib_seen st' = Loop.live_calib_seen st
      /\ Loop.model_transform_main st' = Loop.model_transform_main st
      /\ Loop.model_transform_extra st' = Loop.model_transform_extra st).
Proof.
  intros Hs Hc.
  destruct (cycle_cases sm st st' out ev Hs Hc)
    as [(m & e & b & b' & -> & _)
       |(m & e & b & b' & bm & be & ev1 & ratio & r & H)].
  - split; [auto|]. intros _. repeat split.
  - cbv zeta in H.
    destruct H as (_ & _ & _ & _ & _ & _ & _ & Hm & He & Hseen & _).
    rewrite Hm, He, Hseen. unfold calibrate.
    destruct (Sm.liveCalibration_updated sm); cbn [fst snd].
    + split; [reflexivity | discriminate].
    + split; [auto|]. intros _. repeat split.
Qed.

Lemma run_seen_latched (sms : list Sm.t) :
  forall st st' outs,
    shaped (Loop.model st) -> run sms st = Some (st', outs) ->
    Loop.live_calib_seen st = true -> Loop.live_calib_seen st' = true.
Proof.
  induction sms as [|sm sms IH]; intros st st' outs Hs Hr Hseen;
    cbn [run] in Hr.
  - apply Some_eq in Hr. injection Hr as <- _. exact Hseen.
  - bind_inv Hr as c Hc. bind_inv Hr as r' Hr'.
    destruct r' as [s2 o2]. cbn [fst snd] in Hr.
    apply Some_eq in Hr. injection Hr as <- _.
    destruct c as [[st1 o] ev]. cbn [fst] in Hr'.
    eapply IH; [|exact Hr'|].
    + eapply cycle_shaped; eauto.
    + eapply cycle_calibration; eauto.
Qed.

Lemma run_calibration_quiet (sms : list Sm.t) :
  forall st st' outs,
    shaped (Loop.model st) -> run sms st = Some (st', outs) ->
    Forall (fun sm => Sm.liveCalibration_updated sm = false) sms ->
    Loop.live_calib_seen st' = Loop.live_calib_seen st
    /\ Loop.model_transform_main st' = Loop.model_transform_main st
    /\ Loop.model_transform_extra st' = Loop.model_transform_extra st.
Proof.
  induction sms as [|sm sms IH]; intros st st' outs Hs Hr Hq;
    cbn [run] in Hr.
  - apply Some_eq in Hr. injection Hr as <- _. repeat split.
  - bind_inv Hr as c Hc. bind_inv Hr as r' Hr'.
    destruct r' as [s2 o2]. cbn [fst snd] in Hr.
    apply Some_eq in Hr. injection Hr as <- _.
    destruct c as [[st1 o] ev]. cbn [fst] in Hr'.
    inversion Hq as [|sm' sms' Hsm Hrest]; subst.
    destruct (cycle_calibration sm st st1 o ev Hs Hc) as [_ Hsame].
    destruct (Hsame Hsm) as (H1 & H2 & H3).
    destruct (IH st1 s2 o2 (cycle_shaped _ _ _ _ _ Hs Hc) Hr' Hrest)
      as (H4 & H5 & H6).
    rewrite H4, H5, H6. auto.
Qed.

End Calibration.

(** C10. In a process whose cycles have seen no liveCalibration update the
    flag is false and both warp matrices are the zero 3x3 matrix, and its
    next cycle, if it still sees none and has its frames, evaluates with the
    zero matrices as transforms and runs the engine unless frames were
    dropped; a flag that is true stays true. *)
Theorem calibration_latch (E : Collaborators) (uec mwc : bool)
  (main extra : Vipc.t E) (sms : list Sm.t) (st : Loop.t E)
  (outs : list Outcome) :
  run sms (loop_init E uec mwc main extra) = Some (st, outs) ->
  (Forall (fun sm => Sm.liveCalibration_updated sm = false) sms ->
   Loop.live_calib_seen st = false
   /\ Loop.model_transform_main st = [[0; 0; 0]; [0; 0; 0]; [0; 0; 0]]
   /\ Loop.model_transform_extra st = [[0; 0; 0]; [0; 0; 0]; [0; 0; 0]]
   /\ forall sm st1 bm be ev1 ratio,
        Sm.liveCalibration_updated sm = false ->
        sync_frames st = (st1, Synced bm be, ev1) ->
        drop_ratio (frames_dropped_of st1) = Some ratio ->
        exists st' l ev,
          cycle sm st = Some (st', Evaluated l, ev)
          /\ Loop.live_calib_seen st' = false
          /\ In (EvPrepare MainCam bm (flatten zeros33)
                           (getCLBuffer E "input_imgs")) ev
          /\ In (EvPrepare WideCam be (flatten zeros33)
                           (getCLBuffer E "big_input_imgs")) ev
          /\ ((dropped_of st1 <= 0)%Z ->
              In EvExecute ev /\ model_output l <> None))
  /\ (Loop.live_calib_seen st = true ->
      forall sms' st' outs',
        run sms' st = Some (st', outs') -> Loop.live_calib_seen st' = true).
Proof.
  intros Hrun.
  assert (Hs0 : shaped (Loop.model (loop_init E uec mwc main extra)))
    by exact init_shaped.
  pose proof (run_shaped sms _ _ _ Hs0 Hrun) as Hs.
  split.
  - intros Hq.
    destruct (run_calibration_quiet sms _ _ _ Hs0 Hrun Hq) as (H1 & H2 & H3).
    cbn [loop_init Loop.live_calib_seen Loop.model_transform_main
         Loop.model_transform_extra] in H1, H2, H3.
    split; [exact H1|]. split; [exact H2|]. split; [exact H3|].
    intros sm st1 bm be ev1 ratio Hsm Hsy Hr.
    destruct (cycle_synced sm st st1 bm be ev1 ratio Hs Hsy Hr)
      as (Hm & r & st' & Hev & Hmod & _ & _ & _ & _ & _ & Hseen & Hc).
    assert (Hcal : calibrate sm st1 = (zeros33, zeros33, false)).
    { destruct (sync_frames_is_set_clients st) as (m & e & b & b' & Heq).
      rewrite Hsy in Heq. cbn [fst] in Heq. rewrite Heq.
      rewrite calibrate_set_clients. unfold calibrate.
      rewrite Hsm, H1, H2, H3. reflexivity. }
    rewrite Hcal in *. cbn [fst snd] in *.
    pose proof (inputs_of_shaped sm) as Hi.
    destruct (eval_effects bm be _ _ _ _ _ r Hs Hi Hev) as [_ Hevents].
    cbv zeta in Hevents. rewrite warp_argument_zeros33 in Hevents.
    do 3 eexists. split; [exact Hc|]. split; [exact Hseen|].
    rewrite Hevents.
    split; [apply in_or_app; right; apply in_or_app; right; cbn; tauto|].
    split; [apply in_or_app; right; apply in_or_app; right; cbn; tauto|].
    intros Hd.
    assert (Hpo : (0 <? dropped_of st1)%Z = false) by (apply Z.ltb_ge; exact Hd).
    rewrite Hpo in *.
    split; [apply in_or_app; right; cbn; tauto|].
    cbn [model_output].
    destruct (eval_pushes bm (Some be) zeros33 zeros33 (inputs_of sm) false
                (Loop.model st) Hs Hi) as (r' & Hev' & _ & _ & Hfull).
    rewrite Hev in Hev'. apply Some_eq in Hev'. subst r'.
    destruct (Hfull eq_refl) as (out & Hret & _). rewrite Hret. discriminate.
  - intros Hseen sms' st' outs' Hrun'.
    exact (run_seen_latched sms' st st' outs' Hs Hrun' Hseen).
Qed.

Lemma calibration_latch_witness :
  let st := Scenario.single [Demo.frame 1 50000000] in
  run [] st = Some (st, [])
  /\ exists st' l ev,
       cycle (Demo.snapshot 3 false) st = Some (st', Evaluated l, ev)
       /\ Loop.live_calib_seen st' = false
       /\ In EvExecute ev.
Proof.
  intros st. split; [reflexivity|].
  destruct (calibration_latch Demo.collaborators false false
              (Demo.client [Demo.frame 1 50000000]) (Demo.client [])
              [] st [] eq_refl) as [Hquiet _].
  destruct (Hquiet (Forall_nil _)) as (_ & _ & _ & Hnext).
  destruct (Hnext (Demo.snapshot 3 false) (fst (fst (sync_frames st)))
                  1%Z 1%Z [] (0 / (1 + 0)) eq_refl eq_refl eq_refl)
    as (st' & l & ev & Hc & Hseen & _ & _ & Hfull).
  exists st', l, ev. split; [exact Hc|]. split; [exact Hseen|].
  apply Hfull. vm_compute. discriminate.
Defined.

(** ** The dropped-frame estimate *)

Section DropRate.

Lemma drop_ratio_nonneg (fd : Q) :
  0 <= fd ->
  drop_ratio fd = Some (fd / (1 + fd))
  /\ ~ 1 + fd == 0
  /\ 0 <= fd / (1 + fd) /\ fd / (1 + fd) < 1.
Proof.
  intros Hfd.
  assert (Hpos : 0 < 1 + fd) by lra.
  assert (Hne : ~ 1 + fd == 0) by lra.
  split; [|split; [exact Hne|split]].
  - unfold drop_ratio.
    destruct (Qeq_bool (1 + fd) 0) eqn:Hb; [|reflexivity].
    apply Qeq_bool_iff in Hb. contradiction.
  - apply Qle_shift_div_l; [exact Hpos | lra].
  - apply Qlt_shift_div_r; [exact Hpos | lra].
Qed.

(** A filter whose gain [dt / rc] lies between 0 and 1 keeps a state that
    is not negative as long as its inputs are not. *)
Lemma filter_update_nonneg (f : FirstOrderFilter.t) (u : Q) :
  0 <= FirstOrderFilter.dt f / FirstOrderFilter.rc f <= 1 ->
  0 <= FirstOrderFilter.x f -> 0 <= u ->
  0 <= snd (FirstOrderFilter.update f u).
Proof.
  intros [Ha0 Ha1] Hx Hu. unfold FirstOrderFilter.update. cbn [snd].
  set (a := FirstOrderFilter.dt f / FirstOrderFilter.rc f) in *.
  set (x := FirstOrderFilter.x f) in *.
  assert (H : x + (u - x) * a == x * (1 - a) + u * a) by ring.
  rewrite H.
  assert (0 <= x * (1 - a)) by (apply Qmult_le_0_compat; lra).
  assert (0 <= u * a) by (apply Qmult_le_0_compat; lra).
  lra.
Qed.

Lemma frames_dropped_nonneg {E} (st : Loop.t E) :
  0 <= FirstOrderFilter.dt (Loop.frame_dropped_filter st)
       / FirstOrderFilter.rc (Loop.frame_dropped_filter st) <= 1 ->
  0 <= FirstOrderFilter.x (Loop.frame_dropped_filter st) ->
  (0 <= dropped_of st)%Z ->
  0 <= frames_dropped_of st.
Proof.
  intros Ha Hx Hd. unfold frames_dropped_of.
  destruct (Loop.run_count st <? 10)%Z; [lra|].
  apply filter_update_nonneg; [exact Ha | exact Hx |].
  unfold filter_input_of. change 0 with (inject_Z 0).
  rewrite <- Zle_Qle. lia.
Qed.

Lemma sync_keeps_counters {E} (st st1 : Loop.t E) sy ev :
  sync_frames st = (st1, sy, ev) ->
  Loop.frame_dropped_filter st1 = Loop.frame_dropped_filter st
  /\ Loop.run_count st1 = Loop.run_count st
  /\ Loop.last_vipc_frame_id st1 = Loop.last_vipc_frame_id st.
Proof.
  intros H. destruct (sync_frames_is_set_clients st) as (m & e & b & b' & Heq).
  rewrite H in Heq. cbn [fst] in Heq. subst st1. repeat split.
Qed.

End DropRate.

(** ** C2: the out-of-sync test *)

(** Line 181 subtracts the main time stamp from itself: the test is false
    whatever the two streams deliver. *)
Lemma out_of_sync_test_false {E} (main extra : Vipc.t E) :
  out_of_sync_test main extra = false.
Proof.
  unfold out_of_sync_test. rewrite Z.sub_diag. reflexivity.
Qed.

(** C2. Two cameras; the main stream delivers a frame stamped 50 ms, the
    extra stream one stamped 30 ms.  The cycle goes through with these two
    frames, 20 ms apart, and logs no out-of-sync error. *)
Lemma desync_not_reported :
  match cycle (Demo.snapshot 3 false)
              (Scenario.dual [Demo.frame 1 50000000] [Demo.frame 1 30000000])
  with
  | Some (st', Evaluated l, ev) =>
      Vipc.timestamp_sof (Loop.vipc_client_main st') = 50000000%Z
      /\ Vipc.timestamp_sof (Loop.vipc_client_extra st') = 30000000%Z
      /\ (10000000 < Z.abs (50000000 - 30000000))%Z
      /\ existsb is_out_of_sync ev = false
      /\ model_output l <> None
  | _ => False
  end.
Proof.
  vm_compute. repeat split; try reflexivity. discriminate.
Qed.

(** ** C4: the dropped-frame count *)

(** C4, as the code has it. The count of a cycle is the main frame id
    minus the last one minus 1, and the filter is fed the smaller of it and
    10; nothing bounds it from below.  When the frame id has advanced the
    count is not negative, and is its own clamp. *)
Theorem dropped_count_fed (E : Collaborators) (sm : Sm.t)
  (st st1 : Loop.t E) (bm be : VisionBuf E) (ev1 : list (Event E)) (ratio : Q) :
  shaped (Loop.model st) ->
  sync_frames st = (st1, Synced bm be, ev1) ->
  drop_ratio (frames_dropped_of st1) = Some ratio ->
  exists st' l ev,
    cycle sm st = Some (st', Evaluated l, ev)
    /\ vipc_dropped_frames l
       = (Vipc.frame_id (Loop.vipc_client_main st1)
          - Loop.last_vipc_frame_id st - 1)%Z
    /\ Loop.frame_dropped_filter st'
       = fst (FirstOrderFilter.update (Loop.frame_dropped_filter st)
                (inject_Z (Z.min (vipc_dropped_frames l) 10)))
    /\ ((Loop.last_vipc_frame_id st
         < Vipc.frame_id (Loop.vipc_client_main st1))%Z ->
        (0 <= vipc_dropped_frames l)%Z
        /\ Z.min (vipc_dropped_frames l) 10
           = Z.min (Z.max 0 (vipc_dropped_frames l)) 10).
Proof.
  intros Hs Hsy Hr.
  destruct (cycle_synced sm st st1 bm be ev1 ratio Hs Hsy Hr)
    as (_ & r & st' & _ & _ & Hf & _ & _ & _ & _ & _ & Hc).
  destruct (sync_keeps_counters st st1 _ _ Hsy) as (Hfilt & _ & Hlast).
  do 3 eexists. split; [exact Hc|]. cbn [vipc_dropped_frames].
  unfold dropped_of. rewrite Hlast. split; [reflexivity|].
  split.
  - rewrite Hf, Hfilt. unfold filter_input_of, dropped_of.
    rewrite Hlast. reflexivity.
  - intros Hadv. split; [lia|]. rewrite Z.max_r by lia. reflexivity.
Qed.

Lemma dropped_count_fed_witness :
  let st := Scenario.single [Demo.frame 5 50000000] in
  shaped (Loop.model st)
  /\ exists st' l ev,
       cycle (Demo.snapshot 3 false) st = Some (st', Evaluated l, ev)
       /\ vipc_dropped_frames l = 4%Z.
Proof.
  intros st. split; [exact init_shaped|].
  destruct (dropped_count_fed Demo.collaborators (Demo.snapshot 3 false)
              st (fst (fst (sync_frames st))) 5%Z 5%Z [] (0 / (1 + 0))
              init_shaped eq_refl eq_refl)
    as (st' & l & ev & Hc & Hd & _).
  exists st', l, ev. split; [exact Hc | exact Hd].
Defined.

(** C4 fails as stated. One camera; the stream delivers frame 3, stamped
    50 ms, and nothing more.  The first cycle evaluates it.  The second
    finds the main stream 25 ms ahead already, receives nothing, and
    evaluates the same frame again: its count is 3 - 3 - 1 = -1, and -1 is
    what the filter is fed, not the 0 a clamp from below would give. *)
Lemma dropped_count_negative :
  match cycle (Demo.snapshot 3 false) (Scenario.single [Demo.frame 3 50000000])
  with
  | Some (st1, Evaluated _, _) =>
      match cycle (Demo.snapshot 3 false) st1 with
      | Some (st2, Evaluated l, _) =>
          Vipc.frame_id (Loop.vipc_client_main st1)
          = Loop.last_vipc_frame_id st1
          /\ vipc_dropped_frames l = (-1)%Z
          /\ Z.min (Z.max 0 (vipc_dropped_frames l)) 10 = 0%Z
          /\ FirstOrderFilter.x (Loop.frame_dropped_filter st2)
             == FirstOrderFilter.x
                  (fst (FirstOrderFilter.update
                          (Loop.frame_dropped_filter st1) (inject_Z (-1))))
          /\ ~ FirstOrderFilter.x (Loop.frame_dropped_filter st2)
               == FirstOrderFilter.x
                    (fst (FirstOrderFilter.update
                            (Loop.frame_dropped_filter st1) (inject_Z 0)))
      | _ => False
      end
  | _ => False
  end.
Proof.
  vm_compute. repeat split; try reflexivity. intros H. discriminate H.
Qed.

(** ** C3: the warm-up *)

Lemma warmup_frames_dropped {E} (st : Loop.t E) :
  (Loop.run_count st < 10)%Z -> frames_dropped_of st = 0.
Proof.
  intros H. unfold frames_dropped_of.
  apply Z.ltb_lt in H. rewrite H. reflexivity.
Qed.

(** C3, as the code has it. In each of the first 10 evaluated cycles the
    value reported as [frames_dropped] is 0, and so is the ratio, whatever
    was dropped; the filter itself is updated as in any other cycle, with
    the smaller of the count and 10. *)
Theorem warmup_reports_zero (E : Collaborators) (sm : Sm.t)
  (st st1 : Loop.t E) (bm be : VisionBuf E) (ev1 : list (Event E)) :
  shaped (Loop.model st) ->
  sync_frames st = (st1, Synced bm be, ev1) ->
  (Loop.run_count st < 10)%Z ->
  exists st' l ev,
    cycle sm st = Some (st', Evaluated l, ev)
    /\ frames_dropped l = 0
    /\ frame_drop_ratio l == 0
    /\ Loop.frame_dropped_filter st'
       = fst (FirstOrderFilter.update (Loop.frame_dropped_filter st)
                (inject_Z (Z.min (vipc_dropped_frames l) 10)))
    /\ Loop.run_count st' = (Loop.run_count st + 1)%Z.
Proof.
  intros Hs Hsy Hrc.
  destruct (sync_keeps_counters st st1 _ _ Hsy) as (Hfilt & Hrun & Hlast).
  assert (Hfd : frames_dropped_of st1 = 0)
    by (apply warmup_frames_dropped; rewrite Hrun; exact Hrc).
  assert (Hr : drop_ratio (frames_dropped_of st1) = Some (0 / (1 + 0)))
    by (rewrite Hfd; reflexivity).
  destruct (cycle_synced sm st st1 bm be ev1 _ Hs Hsy Hr)
    as (_ & r & st' & _ & _ & Hf & Hcount & _ & _ & _ & _ & Hc).
  do 3 eexists. split; [exact Hc|].
  cbn [frames_dropped frame_drop_ratio vipc_dropped_frames].
  split; [exact Hfd|]. split; [reflexivity|].
  split; [rewrite Hf, Hfilt; reflexivity | rewrite Hcount, Hrun; reflexivity].
Qed.

Lemma warmup_reports_zero_witness :
  let st := Scenario.single [Demo.frame 5 50000000] in
  shaped (Loop.model st)
  /\ (Loop.run_count st < 10)%Z
  /\ exists st' l ev,
       cycle (Demo.snapshot 3 false) st = Some (st', Evaluated l, ev)
       /\ frames_dropped l = 0.
Proof.
  intros st. split; [exact init_shaped|]. split; [reflexivity|].
  destruct (warmup_reports_zero Demo.collaborators (Demo.snapshot 3 false)
              st (fst (fst (sync_frames st))) 5%Z 5%Z []
              init_shaped eq_refl eq_refl)
    as (st' & l & ev & Hc & Hd & _).
  exists st', l, ev. split; [exact Hc | exact Hd].
Defined.

(** C3 fails as stated. The first cycle of a process, one camera, the
    first frame having id 5: four frames count as dropped.  The cycle
    reports 0, but the filter was fed 4 and holds 4/200 = 1/50, not the 0
    an input forced to 0 would have left. *)
Lemma warmup_drops_reach_filter :
  let st := Scenario.single [Demo.frame 5 50000000] in
  match cycle (Demo.snapshot 3 false) st with
  | Some (st', Evaluated l, _) =>
      Loop.run_count st = 0%Z
      /\ vipc_dropped_frames l = 4%Z
      /\ frames_dropped l = 0
      /\ FirstOrderFilter.x (Loop.frame_dropped_filter st') == 1 # 50
      /\ ~ FirstOrderFilter.x (Loop.frame_dropped_filter st')
           == FirstOrderFilter.x
                (fst (FirstOrderFilter.update (Loop.frame_dropped_filter st) 0))
  | _ => False
  end.
Proof.
  vm_compute. repeat split; try reflexivity. intros H. discriminate H.
Qed.

(** ** C8: the frame-drop ratio *)

(** C8, as the code has it. The ratio of a cycle is
    [frames_dropped / (1 + frames_dropped)], where [frames_dropped] is 0 in
    the first 10 evaluated cycles and the value of the filter afterwards;
    when that value is not negative (so during warm-up, and while the
    filter has not been fed a negative count) the division is defined and
    the ratio lies in [0, 1). *)
Theorem frame_drop_ratio_range (E : Collaborators) (sm : Sm.t)
  (st st1 : Loop.t E) (bm be : VisionBuf E) (ev1 : list (Event E)) :
  shaped (Loop.model st) ->
  sync_frames st = (st1, Synced bm be, ev1) ->
  0 <= frames_dropped_of st1 ->
  exists st' l ev,
    cycle sm st = Some (st', Evaluated l, ev)
    /\ frames_dropped l
       = (if (Loop.run_count st <? 10)%Z then 0
          else snd (FirstOrderFilter.update (Loop.frame_dropped_filter st)
                      (inject_Z (Z.min (vipc_dropped_frames l) 10))))
    /\ frame_drop_ratio l = frames_dropped l / (1 + frames_dropped l)
    /\ ~ 1 + frames_dropped l == 0
    /\ 0 <= frame_drop_ratio l /\ frame_drop_ratio l < 1.
Proof.
  intros Hs Hsy Hfd.
  destruct (drop_ratio_nonneg _ Hfd) as (Hr & Hne & H0 & H1).
  destruct (sync_keeps_counters st st1 _ _ Hsy) as (Hfilt & Hrun & Hlast).
  destruct (cycle_synced sm st st1 bm be ev1 _ Hs Hsy Hr)
    as (_ & r & st' & _ & _ & _ & _ & _ & _ & _ & _ & Hc).
  do 3 eexists. split; [exact Hc|].
  cbn [frames_dropped frame_drop_ratio vipc_dropped_frames].
  split.
  - unfold frames_dropped_of, filter_input_of. rewrite Hrun, Hfilt.
    reflexivity.
  - split; [reflexivity|]. split; [exact Hne|]. split; assumption.
Qed.

Lemma frame_drop_ratio_range_witness :
  let st := Scenario.single [Demo.frame 5 50000000] in
  shaped (Loop.model st)
  /\ 0 <= frames_dropped_of (fst (fst (sync_frames st)))
  /\ exists st' l ev,
       cycle (Demo.snapshot 3 false) st = Some (st', Evaluated l, ev)
       /\ 0 <= frame_drop_ratio l.
Proof.
  intros st. split; [exact init_shaped|].
  split; [vm_compute; discriminate|].
  destruct (frame_drop_ratio_range Demo.collaborators (Demo.snapshot 3 false)
              st (fst (fst (sync_frames st))) 5%Z 5%Z []
              init_shaped eq_refl
              (Qle_bool_imp_le 0 (frames_dropped_of (fst (fst (sync_frames st))))
                               eq_refl))
    as (st' & l & ev & Hc & _ & _ & _ & Hlo & _).
  exists st', l, ev. split; [exact Hc | exact Hlo].
Defined.

(** C8 fails as stated. One camera; the stream delivers frame 1, stamped
    50 ms, and nothing more.  The first cycle evaluates it with a count of
    0; each later cycle evaluates the same frame again with a count of -1.
    By the eleventh cycle, the first after the warm-up, the filter holds a
    negative value, and the ratio reported is negative. *)
Lemma frame_drop_ratio_negative :
  match run (repeat (Demo.snapshot 3 false) 11)
            (Scenario.single [Demo.frame 1 50000000]) with
  | Some (_, outs) =>
      match nth 10 outs SkippedNoMain with
      | Evaluated l =>
          vipc_dropped_frames l = (-1)%Z
          /\ frames_dropped l < 0
          /\ frame_drop_ratio l < 0
      | _ => False
      end
  | None => False
  end.
Proof.
  vm_compute. repeat split; reflexivity.
Qed.

(** * Further properties of [ModelState.eval] *)

Section EvalMore.

Context {E : Collaborators}.
Implicit Types (s : ModelState E) (inp : Inputs.t).

(** The arrays of [self] after a call on arrays of the expected shapes. *)
Lemma eval_self_inputs buf wbuf t tw inp (po : bool) s r :
  shaped s -> inputs_shaped inp ->
  eval buf wbuf t tw inp po s = Some r ->
  Bound.desire_pulse (inputs (self' r))
  = skipn DESIRE_LEN (Bound.desire_pulse (inputs s))
    ++ rising (Inputs.desire_dtype inp) (zeroed (Inputs.desire_pulse inp))
              (prev_desire s)
  /\ Bound.traffic_convention (inputs (self' r)) = Inputs.traffic_convention inp
  /\ Bound.nav_features (inputs (self' r)) = Inputs.nav_features inp
  /\ prev_desire (self' r)
     = Np.astype Float.Float32 (zeroed (Inputs.desire_pulse inp)).
Proof.
  intros Hs Hi Hev. rewrite eval_staged in Hev by assumption.
  cbv zeta in Hev.
  pose proof (staged_inputs buf wbuf t tw inp s) as Hin.
  pose proof (staged_prev_desire buf wbuf t tw inp s) as Hpd.
  destruct po; apply Some_eq in Hev; subst r;
    cbn [self' set_features inputs prev_desire Bound.desire_pulse
         Bound.traffic_convention Bound.nav_features];
    rewrite Hin, Hpd; repeat split.
Qed.

(** What the steps before line 92 do when there is no wide buffer. *)
Lemma staged_effects_none (bm : VisionBuf E) (t tw : Matrix) inp s :
  let cl := getCLBuffer E "input_imgs" in
  let p := prepare E (frame s) bm (warp_argument t) cl in
  frame (fst (staged bm None t tw inp s)) = fst p
  /\ wide_frame (fst (staged bm None t tw inp s)) = wide_frame s
  /\ model (fst (staged bm None t tw inp s))
     = {| Onnx.input_imgs := Some (snd p);
          Onnx.big_input_imgs := Onnx.big_input_imgs (model s) |}
  /\ snd (staged bm None t tw inp s)
     = [EvLogInfo DesireEnqueued;
        EvGetCLBuffer "input_imgs";
        EvPrepare MainCam bm (warp_argument t) cl;
        EvSetInputBuffer "input_imgs" (snd p);
        EvLogInfo ImageAdded].
Proof.
  unfold staged. cbv zeta.
  set (s2 := set_side_inputs _ _ _).
  unfold prepare_main. cbv zeta. change (frame s2) with (frame s).
  destruct (prepare E (frame s) bm (warp_argument t) _) as [f1 T1].
  cbn [fst snd prepare_wide]. repeat split.
Qed.

(** The two [ModelFrame]s after a call with a wide buffer. *)
Lemma staged_frames (bm be : VisionBuf E) (t tw : Matrix) inp s :
  frame (fst (staged bm (Some be) t tw inp s))
  = fst (prepare E (frame s) bm (warp_argument t)
                 (getCLBuffer E "input_imgs"))
  /\ wide_frame (fst (staged bm (Some be) t tw inp s))
     = fst (prepare E (wide_frame s) be (warp_argument tw)
                    (getCLBuffer E "big_input_imgs")).
Proof.
  unfold staged. cbv zeta.
  set (s2 := set_side_inputs _ _ _).
  unfold prepare_main. cbv zeta. change (frame s2) with (frame s).
  destruct (prepare E (frame s) bm (warp_argument t) _) as [f1 T1].
  cbn [fst snd]. unfold prepare_wide. cbv zeta.
  change (wide_frame (set_main_image f1 T1 s2)) with (wide_frame s).
  destruct (prepare E (wide_frame s) be (warp_argument tw) _) as [f2 T2].
  cbn [fst snd]. split; reflexivity.
Qed.

End EvalMore.



(** X2. Without a wide buffer ([wbuf is None]) a call prepares and binds
    the main image only: the wide [ModelFrame] and the binding of
    [big_input_imgs] are left as they were, and the calls made are the
    request for the engine's device buffer of [input_imgs], the main
    preparation (buffer, warp matrix as float32, device buffer), its
    binding and, unless [prepare_only], one execution. *)
Theorem eval_without_wide_buffer (E : Collaborators)
  (buf : VisionBuf E) (t tw : Matrix) (inp : Inputs.t) (po : bool)
  (s : ModelState E) :
  shaped s -> inputs_shaped inp ->
  exists r,
    eval buf None t tw inp po s = Some r
    /\ wide_frame (self' r) = wide_frame s
    /\ Onnx.big_input_imgs (model (self' r)) = Onnx.big_input_imgs (model s)
    /\ (let cl := getCLBuffer E "input_imgs" in
        let T := snd (prepare E (frame s) buf (warp_argument t) cl) in
        Onnx.input_imgs (model (self' r)) = Some T
        /\ events r
           = [EvLogInfo DesireEnqueued;
              EvGetCLBuffer "input_imgs";
              EvPrepare MainCam buf (warp_argument t) cl;
              EvSetInputBuffer "input_imgs" T;
              EvLogInfo ImageAdded]
             ++ (if po then []
                 else [EvExecute; EvLogInfo ExecutionFinished;
                       EvLogInfo FeaturesEnqueued])).
Proof.
  intros Hs Hi. rewrite eval_staged by assumption. cbv zeta.
  destruct (staged_effects_none buf t tw inp s) as (_ & Hw & Hm & He).
  cbv zeta in Hm, He.
  destruct po; eexists; (split; [reflexivity|]);
    cbn [self' events set_features wide_frame model];
    rewrite Hw, Hm, He; cbn [Onnx.big_input_imgs Onnx.input_imgs];
    repeat split.
Qed.

Lemma eval_without_wide_buffer_witness :
  shaped (ModelState_init Demo.collaborators)
  /\ inputs_shaped Demo.lane_change
  /\ exists r,
       @eval Demo.collaborators 1%Z None zeros33 zeros33 Demo.lane_change
             false (ModelState_init Demo.collaborators) = Some r
       /\ Onnx.big_input_imgs (model (self' r)) = None.
Proof.
  split; [exact init_shaped|]. split; [exact lane_change_shaped|].
  destruct (eval_without_wide_buffer Demo.collaborators 1%Z zeros33
              zeros33 Demo.lane_change false
              (ModelState_init Demo.collaborators)
              init_shaped lane_change_shaped) as (r & Hr & _ & Hb & _).
  exists r. split; [exact Hr | exact Hb].
Defined.

(** X3. With a wide buffer, a call that runs the engine talks to its
    collaborators in this order and no other: the engine asked for the
    device buffer of [input_imgs], the main image prepared and bound, the
    engine asked for the device buffer of [big_input_imgs], the wide image
    prepared and bound, the engine executed once; each [ModelFrame] has
    seen its own buffer, its own transform as float32 and its own device
    buffer, and the value returned is the output array the engine wrote,
    which [self] keeps. *)
Theorem eval_call_sequence (E : Collaborators)
  (bm be : VisionBuf E) (t tw : Matrix) (inp : Inputs.t) (s : ModelState E) :
  shaped s -> inputs_shaped inp ->
  exists r,
    eval bm (Some be) t tw inp false s = Some r
    /\ (let cl1 := getCLBuffer E "input_imgs" in
        let cl2 := getCLBuffer E "big_input_imgs" in
        let pm := prepare E (frame s) bm (warp_argument t) cl1 in
        let pw := prepare E (wide_frame s) be (warp_argument tw) cl2 in
        events r
        = [EvLogInfo DesireEnqueued;
           EvGetCLBuffer "input_imgs";
           EvPrepare MainCam bm (warp_argument t) cl1;
           EvSetInputBuffer "input_imgs" (snd pm);
           EvLogInfo ImageAdded;
           EvGetCLBuffer "big_input_imgs";
           EvPrepare WideCam be (warp_argument tw) cl2;
           EvSetInputBuffer "big_input_imgs" (snd pw);
           EvLogInfo ExtraImageAdded;
           EvExecute;
           EvLogInfo ExecutionFinished;
           EvLogInfo FeaturesEnqueued]
        /\ frame (self' r) = fst pm
        /\ wide_frame (self' r) = fst pw)
    /\ ret r = Some (output (self' r))
    /\ length (output (self' r)) = MODEL_OUTPUT_SIZE.
Proof.
  intros Hs Hi.
  destruct (eval_pushes bm (Some be) t tw inp false s Hs Hi)
    as (r & Hev & _ & _ & Hfull).
  destruct (Hfull eq_refl) as (out & Hret & Hlen & _).
  destruct (eval_effects bm be t tw inp false s r Hs Hi Hev) as [_ Hevents].
  cbv zeta in Hevents.
  destruct (staged_frames bm be t tw inp s) as [Hf Hw].
  pose proof Hev as Hev'. rewrite eval_staged in Hev' by assumption.
  cbv zeta in Hev'. apply Some_eq in Hev'.
  exists r. split; [exact Hev|]. split; [|split].
  - cbv zeta. split; [exact Hevents|].
    subst r. cbn [self' set_features frame wide_frame]. split; assumption.
  - subst r. reflexivity.
  - subst r. cbn [self' set_features output].
    rewrite engine_output_length, staged_output. apply Hs.
Qed.

Lemma eval_call_sequence_witness :
  shaped (ModelState_init Demo.collaborators)
  /\ inputs_shaped Demo.lane_change
  /\ exists r,
       @eval Demo.collaborators 1%Z (Some 2%Z) zeros33 zeros33
             Demo.lane_change false (ModelState_init Demo.collaborators)
       = Some r
       /\ length (output (self' r)) = MODEL_OUTPUT_SIZE.
Proof.
  split; [exact init_shaped|]. split; [exact lane_change_shaped|].
  destruct (eval_call_sequence Demo.collaborators 1%Z 2%Z zeros33
              zeros33 Demo.lane_change (ModelState_init Demo.collaborators)
              init_shaped lane_change_shaped) as (r & Hr & _ & _ & Hl).
  exists r. split; [exact Hr | exact Hl].
Defined.

(** X4. A desire vector that is empty, or whose length is neither 1 nor
    DESIRE_LEN, makes [eval] raise, whatever else it is given: line 72
    cannot index it, or line 74 cannot broadcast it against the previous
    desire. *)
Theorem eval_rejects_misshaped_desire (E : Collaborators)
  (buf : VisionBuf E) (wbuf : option (VisionBuf E)) (t tw : Matrix)
  (inp : Inputs.t) (po : bool) (s : ModelState E) :
  length (prev_desire s) = DESIRE_LEN ->
  length (Inputs.desire_pulse inp) <> DESIRE_LEN ->
  length (Inputs.desire_pulse inp) <> 1%nat ->
  eval buf wbuf t tw inp po s = None.
Proof.
  intros Hp H8 H1. unfold eval, enqueue_desire.
  destruct (Inputs.desire_pulse inp) as [|q raw] eqn:Hraw; [reflexivity|].
  cbn [Np.setitem bind]. rewrite shift_ok. cbn [bind].
  unfold Np.sub. rewrite Hp. cbn [length] in *.
  unfold Np.bshape.
  destruct (Nat.eqb (S (length raw)) DESIRE_LEN) eqn:Ha;
    [apply Nat.eqb_eq in Ha; contradiction|].
  destruct (Nat.eqb (S (length raw)) 1) eqn:Hb;
    [apply Nat.eqb_eq in Hb; contradiction|].
  reflexivity.
Qed.

Lemma eval_rejects_misshaped_desire_witness :
  @eval Demo.collaborators 1%Z None zeros33 zeros33
        {| Inputs.desire_dtype := Float.Float32;
           Inputs.desire_pulse := [0; 1; 0];
           Inputs.traffic_convention := [1; 0];
           Inputs.driving_style := driving_style;
           Inputs.nav_features := nav_features |}
        false (ModelState_init Demo.collaborators) = None.
Proof.
  apply eval_rejects_misshaped_desire.
  - reflexivity.
  - cbn. discriminate.
  - cbn. discriminate.
Defined.

(** * Further properties of the desire pulse *)

Section RisingFacts.

(** An entry that has not changed does not rise, in either dtype. *)
Lemma rises_self (dt : Float.dtype) (r : Q) : rises dt r r = false.
Proof.
  unfold rises. rewrite round_sub_self. destruct dt; vm_compute; reflexivity.
Qed.

Lemma rising_self (dt : Float.dtype) (raw : list Q) :
  rising dt raw raw = repeat 0 (length raw).
Proof.
  unfold rising, edges, Np.astype.
  induction raw as [|r raw IH]; [reflexivity|].
  cbn [Np.zip_with map length repeat]. rewrite IH, rises_self. reflexivity.
Qed.

Lemma rising_head_zero (dt : Float.dtype) (raw prev : list Q) (d : Q) :
  prev <> [] -> nth 0 (rising dt (zeroed raw) prev) d = 0.
Proof.
  unfold rising, edges, Np.astype, zeroed.
  destruct prev as [|p prev]; [congruence|].
  intros _. cbn [Np.zip_with map nth].
  destruct (rises dt 0 p); reflexivity.
Qed.

(** An entry that is 0 or 1. *)
Definition bit (q : Q) : Prop := q = 0 \/ q = 1.

Lemma Forall_skipn_of {A : Type} (P : A -> Prop) (n : nat) (l : list A) :
  Forall P l -> Forall P (skipn n l).
Proof.
  intros H. rewrite <- (firstn_skipn n l) in H.
  apply Forall_app in H. apply H.
Qed.

(** 0 and 1 are values of both float formats. *)
Lemma bit_exact (dt : Float.dtype) (q : Q) : bit q -> Float.exact dt q.
Proof. intros [-> | ->]; [apply exact_0 | apply exact_1]. Qed.

Lemma bits_float32_valued (raw : list Q) :
  Forall bit raw -> float32_valued raw.
Proof. apply Forall_impl. intros q. apply bit_exact. Qed.

Lemma rising_bits (dt : Float.dtype) (raw : list Q) :
  forall prev, Forall bit raw -> Forall bit (rising dt raw prev).
Proof.
  unfold rising, edges, Np.astype.
  induction raw as [|r raw IH]; intros [|p prev] H;
    cbn [Np.zip_with map]; try constructor.
  - inversion H as [|? ? Hr _]; subst.
    destruct (rises dt r p); [|left; reflexivity].
    rewrite (proj1 (bit_exact Float.Float32 r Hr)). exact Hr.
  - apply IH. inversion H; assumption.
Qed.

Lemma zeroed_bits (raw : list Q) : Forall bit raw -> Forall bit (zeroed raw).
Proof.
  intros H. unfold zeroed. constructor; [left; reflexivity|].
  destruct raw as [|r raw]; [constructor|]. inversion H; assumption.
Qed.

Lemma zeros_bits (n : nat) : Forall bit (Np.zeros n).
Proof.
  apply Forall_forall. intros q Hq. apply repeat_spec in Hq. left. exact Hq.
Qed.

Lemma setitem_bits (i : nat) (a : list Q) :
  forall a', Forall bit a -> Np.setitem i 1 a = Some a' -> Forall bit a'.
Proof.
  revert i. induction a as [|h t IH]; intros i a' H Hs.
  - destruct i; discriminate Hs.
  - inversion H as [|? ? Hh Ht]; subst. destruct i as [|i]; cbn in Hs.
    + apply Some_eq in Hs. subst a'. constructor; [right; reflexivity | exact Ht].
    + destruct (Np.setitem i 1 t) as [t'|] eqn:Hset; cbn in Hs;
        [|discriminate Hs].
      apply Some_eq in Hs. subst a'. constructor; [exact Hh|].
      eapply IH; eauto.
Qed.

Lemma vec_desire_bits (d : Z) (v : list Q) :
  vec_desire d = Some v -> Forall bit v.
Proof.
  unfold vec_desire.
  destruct ((0 <=? d)%Z && (d <? Z.of_nat DESIRE_LEN)%Z).
  - apply setitem_bits. apply zeros_bits.
  - intros H. apply Some_eq in H. subst v. apply zeros_bits.
Qed.

End RisingFacts.

Section EvalsInvariant.

Context {E : Collaborators}.

(** Calls on arrays of the expected shapes all return, and keep what each
    of them keeps. *)
Lemma evals_invariant (P : ModelState E -> Prop) :
  (forall (c : Call E) s r,
     shaped s -> inputs_shaped (c_inputs c) -> P s ->
     call c s = Some r -> P (self' r)) ->
  forall (cs : list (Call E)) s,
    shaped s -> P s -> Forall (fun c => inputs_shaped (c_inputs c)) cs ->
    exists s' rets, evals cs s = Some (s', rets) /\ shaped s' /\ P s'.
Proof.
  intros Hstep. induction cs as [|c cs IH]; intros s Hs HP Hall.
  - exists s, []. split; [reflexivity|]. split; assumption.
  - inversion Hall as [|c' cs' Hi Hrest]; subst.
    destruct (eval_pushes (c_buf c) (c_wbuf c) (c_transform c)
                (c_transform_wide c) (c_inputs c) (c_prepare_only c) s Hs Hi)
      as (r & Hev & _).
    pose proof (eval_shaped _ _ _ _ _ _ _ _ Hs Hi Hev) as Hs1.
    pose proof (Hstep c s r Hs Hi HP Hev) as HP1.
    destruct (IH (self' r) Hs1 HP1 Hrest) as (s' & rets & Hevs & Hs' & HP').
    exists s', (ret r :: rets).
    cbn [evals]. unfold call. rewrite Hev. cbn [bind]. rewrite Hevs.
    split; [reflexivity|]. split; assumption.
Qed.

(** The main loop keeps, of the model state, what every call of [eval]
    with the arrays of a cycle keeps. *)
Lemma run_invariant (P : ModelState E -> Prop) :
  (forall sm (bm be : VisionBuf E) t tw po s r,
     shaped s -> P s ->
     eval bm (Some be) t tw (inputs_of sm) po s = Some r -> P (self' r)) ->
  forall (sms : list Sm.t) (st st' : Loop.t E) outs,
    shaped (Loop.model st) -> P (Loop.model st) ->
    run sms st = Some (st', outs) -> P (Loop.model st').
Proof.
  intros Hstep. induction sms as [|sm sms IH]; intros st st' outs Hs HP Hr;
    cbn [run] in Hr.
  - apply Some_eq in Hr. injection Hr as <- _. exact HP.
  - bind_inv Hr as c Hc. bind_inv Hr as r' Hr'.
    destruct r' as [s2 o2]. cbn [fst snd] in Hr.
    apply Some_eq in Hr. injection Hr as <- _.
    destruct c as [[st1 o] ev]. cbn [fst] in Hr'.
    apply (IH st1 s2 o2); [eapply cycle_shaped; eauto | | exact Hr'].
    destruct (cycle_cases sm st st1 o ev Hs Hc)
      as [(m & e & b & b' & -> & _)
         |(m & e & b & b' & bm & be & ev1 & ratio & r & H)];
      [exact HP|].
    cbv zeta in H. destruct H as (_ & _ & Hev & Hm & _).
    rewrite Hm. eapply Hstep; eauto.
Qed.

End EvalsInvariant.

(** X5. The pulse is edge-triggered: of two consecutive calls with the
    same desire vector, the second appends an all-zero block, whatever
    float32 values the vector holds (and whatever its dtype is in either
    call). *)
Theorem held_desire_pulses_once (E : Collaborators)
  (c1 c2 : Call E) (s : ModelState E) :
  shaped s ->
  inputs_shaped (c_inputs c1) -> inputs_shaped (c_inputs c2) ->
  float32_valued (Inputs.desire_pulse (c_inputs c1)) ->
  Inputs.desire_pulse (c_inputs c2) = Inputs.desire_pulse (c_inputs c1) ->
  exists r1 r2,
    call c1 s = Some r1
    /\ call c2 (self' r1) = Some r2
    /\ block DESIRE_LEN HISTORY_BUFFER_LEN
             (Bound.desire_pulse (inputs (self' r2)))
       = Np.zeros DESIRE_LEN.
Proof.
  intros Hs Hi1 Hi2 Hx Hsame. unfold call.
  destruct (eval_pushes (c_buf c1) (c_wbuf c1) (c_transform c1)
              (c_transform_wide c1) (c_inputs c1) (c_prepare_only c1) s Hs Hi1)
    as (r1 & Hev1 & _).
  pose proof (eval_shaped _ _ _ _ _ _ _ _ Hs Hi1 Hev1) as Hs1.
  destruct (eval_self_inputs _ _ _ _ _ _ _ _ Hs Hi1 Hev1) as (_ & _ & _ & Hp1).
  destruct (eval_pushes (c_buf c2) (c_wbuf c2) (c_transform c2)
              (c_transform_wide c2) (c_inputs c2) (c_prepare_only c2)
              (self' r1) Hs1 Hi2) as (r2 & Hev2 & Hdp2 & _).
  exists r1, r2. split; [exact Hev1|]. split; [exact Hev2|].
  rewrite Hdp2, Hp1, Hsame.
  rewrite (astype_exact _ _ (zeroed_exact _ _ Hx)), rising_self.
  assert (Hne : Inputs.desire_pulse (c_inputs c1) <> []).
  { intros H. pose proof (ish_desire _ Hi1) as Hl. rewrite H in Hl.
    discriminate Hl. }
  rewrite zeroed_length, (ish_desire _ Hi1) by exact Hne.
  replace HISTORY_BUFFER_LEN with (HISTORY_BUFFER_LEN + 1 - 1)%nat at 1
    by reflexivity.
  apply newest_block_after_push;
    [apply Hs1 | lia | apply repeat_length].
Qed.

Lemma held_desire_pulses_once_witness :
  let c := {| c_buf := 1%Z : VisionBuf Demo.collaborators;
              c_wbuf := None;
              c_transform := zeros33; c_transform_wide := zeros33;
              c_inputs := Demo.lane_change; c_prepare_only := true |} in
  shaped (ModelState_init Demo.collaborators)
  /\ inputs_shaped (c_inputs c)
  /\ float32_valued (Inputs.desire_pulse (c_inputs c))
  /\ exists r1 r2,
       call c (ModelState_init Demo.collaborators) = Some r1
       /\ call c (self' r1) = Some r2
       /\ block DESIRE_LEN HISTORY_BUFFER_LEN
                (Bound.desire_pulse (inputs (self' r2)))
          = [0; 0; 0; 0; 0; 0; 0; 0].
Proof.
  intros c. split; [exact init_shaped|]. split; [exact lane_change_shaped|].
  split; [exact lane_change_float32|].
  exact (held_desire_pulses_once Demo.collaborators c c
           (ModelState_init Demo.collaborators) init_shaped
           lane_change_shaped lane_change_shaped lane_change_float32 eq_refl).
Defined.

(** A held float64 vector with an entry that float32 does not hold pulses
    again: [prev_desire] remembers 16777216 for the entry 16777217, so the
    second call sees a rise of 1 and appends 16777216. *)
Lemma held_float64_desire_pulses_again :
  let c := {| c_buf := 1%Z : VisionBuf Demo.collaborators;
              c_wbuf := None;
              c_transform := zeros33; c_transform_wide := zeros33;
              c_inputs := desire_float64; c_prepare_only := true |} in
  match evals [c; c] (ModelState_init Demo.collaborators) with
  | Some (s', _) =>
      block DESIRE_LEN HISTORY_BUFFER_LEN (Bound.desire_pulse (inputs s'))
      = [0; 16777216; 0; 0; 0; 0; 0; 0]
  | None => False
  end.
Proof. vm_compute. reflexivity. Qed.

(** X6. Entry 0 of a desire vector never reaches the model: after any
    calls on arrays of the expected shapes, starting from the state
    [__init__] builds, entry 0 of every block of the desire window is 0. *)
Theorem desire_index_zero_never_pulses (E : Collaborators)
  (cs : list (Call E)) :
  Forall (fun c => inputs_shaped (c_inputs c)) cs ->
  exists s' rets,
    evals cs (ModelState_init E) = Some (s', rets)
    /\ forall k, (k <= HISTORY_BUFFER_LEN)%nat ->
       nth (k * DESIRE_LEN) (Bound.desire_pulse (inputs s')) 1 = 0.
Proof.
  intros Hall.
  set (P := fun s : ModelState E =>
              forall k, (k <= HISTORY_BUFFER_LEN)%nat ->
              nth (k * DESIRE_LEN) (Bound.desire_pulse (inputs s)) 1 = 0).
  assert (Hstep : forall (c : Call E) s r,
             shaped s -> inputs_shaped (c_inputs c) -> P s ->
             call c s = Some r -> P (self' r)).
  { intros c s r Hs Hi HP Hev k Hk. unfold call in Hev.
    destruct (eval_self_inputs _ _ _ _ _ _ _ _ Hs Hi Hev) as (Hdp & _).
    rewrite Hdp.
    assert (Hl : length (skipn DESIRE_LEN (Bound.desire_pulse (inputs s)))
                 = (HISTORY_BUFFER_LEN * DESIRE_LEN)%nat).
    { rewrite length_skipn, (sh_desire _ Hs).
      unfold DESIRE_LEN, HISTORY_BUFFER_LEN. lia. }
    destruct (Nat.eq_dec k HISTORY_BUFFER_LEN) as [->|Hne].
    - rewrite app_nth2 by (rewrite Hl; lia).
      rewrite Hl, Nat.sub_diag.
      apply rising_head_zero. intros Hnil.
      pose proof (sh_prev _ Hs) as Hp. rewrite Hnil in Hp. discriminate Hp.
    - rewrite app_nth1
        by (rewrite Hl; unfold DESIRE_LEN, HISTORY_BUFFER_LEN in *; lia).
      rewrite nth_skipn.
      replace (DESIRE_LEN + k * DESIRE_LEN)%nat with (S k * DESIRE_LEN)%nat
        by (cbn [Nat.mul]; reflexivity).
      apply HP. lia. }
  assert (H0 : P (ModelState_init E)).
  { intros k Hk.
    cbn [ModelState_init inputs Bound.desire_pulse]. unfold Np.zeros.
    apply nth_repeat_lt.
    unfold DESIRE_LEN, HISTORY_BUFFER_LEN in *. lia. }
  destruct (evals_invariant P Hstep cs (ModelState_init E) init_shaped H0 Hall)
    as (s' & rets & Hev & _ & HP).
  exists s', rets. split; [exact Hev | exact HP].
Qed.

Lemma desire_index_zero_never_pulses_witness :
  let c := {| c_buf := 1%Z : VisionBuf Demo.collaborators;
              c_wbuf := None;
              c_transform := zeros33; c_transform_wide := zeros33;
              c_inputs := Demo.lane_change; c_prepare_only := true |} in
  Forall (fun c => inputs_shaped (c_inputs c)) [c]
  /\ exists s' rets,
       evals [c] (ModelState_init Demo.collaborators) = Some (s', rets)
       /\ nth (HISTORY_BUFFER_LEN * DESIRE_LEN)
              (Bound.desire_pulse (inputs s')) 1 = 0.
Proof.
  intros c.
  assert (H : Forall (fun c => inputs_shaped (c_inputs c)) [c])
    by (constructor; [exact lane_change_shaped | constructor]).
  split; [exact H|].
  destruct (desire_index_zero_never_pulses Demo.collaborators [c] H)
    as (s' & rets & Hev & Hz).
  exists s', rets. split; [exact Hev|]. apply Hz. apply Nat.le_refl.
Defined.

(** X7. On the arrays the main loop builds, the desire window and the
    previous desire hold nothing but 0 and 1, in every state a run of the
    loop reaches from its start. *)
Theorem loop_desire_entries_are_bits (E : Collaborators) (uec mwc : bool)
  (main extra : Vipc.t E) (sms : list Sm.t) (st : Loop.t E)
  (outs : list Outcome) :
  run sms (loop_init E uec mwc main extra) = Some (st, outs) ->
  Forall bit (Bound.desire_pulse (inputs (Loop.model st)))
  /\ Forall bit (prev_desire (Loop.model st)).
Proof.
  intros Hrun.
  set (P := fun s : ModelState E =>
              Forall bit (Bound.desire_pulse (inputs s))
              /\ Forall bit (prev_desire s)).
  apply (run_invariant P) with (sms := sms) (outs := outs)
                               (st := loop_init E uec mwc main extra).
  - intros sm bm be t tw po s r Hs [Hd Hp] Hev.
    destruct (eval_self_inputs _ _ _ _ _ _ _ _ Hs (inputs_of_shaped sm) Hev)
      as (Hdp & _ & _ & Hpd).
    assert (Hz : Forall bit (zeroed (Inputs.desire_pulse (inputs_of sm)))).
    { apply zeroed_bits. unfold inputs_of. cbn [Inputs.desire_pulse].
      destruct (vec_desire (Sm.desire sm)) as [v|] eqn:Hv;
        [eapply vec_desire_bits; eauto | constructor]. }
    split.
    + rewrite Hdp. apply Forall_app. split.
      * apply Forall_skipn_of. exact Hd.
      * apply rising_bits. exact Hz.
    + rewrite Hpd, (astype_exact _ _ (bits_float32_valued _ Hz)). exact Hz.
  - exact init_shaped.
  - split; apply zeros_bits.
  - exact Hrun.
Qed.

Lemma loop_desire_entries_are_bits_witness :
  let st := Scenario.single [Demo.frame 1 50000000] in
  exists st' outs,
    run [Demo.snapshot 3 false] st = Some (st', outs)
    /\ Forall bit (prev_desire (Loop.model st')).
Proof.
  intros st.
  destruct (single_camera_run (Demo.snapshot 3 false)) as (st' & l & Hrun).
  exists st', [Evaluated l]. split; [exact Hrun|].
  exact (proj2 (loop_desire_entries_are_bits Demo.collaborators false false
                  (Demo.client [Demo.frame 1 50000000]) (Demo.client [])
                  [Demo.snapshot 3 false] st' [Evaluated l] Hrun)).
Defined.

(** * Further properties of the frame synchronisation *)

Section SyncMore.

Context {E : Collaborators}.
Implicit Types (st : Loop.t E).

Lemma client_eta (c : Vipc.t E) :
  {| Vipc.frame_id := Vipc.frame_id c;
     Vipc.timestamp_sof := Vipc.timestamp_sof c;
     Vipc.pending := Vipc.pending c |} = c.
Proof. destruct c; reflexivity. Qed.

(** One pass of the loop of lines 161-164, with [recv] as the client has
    it. *)
Lemma recv_main_step (main : Vipc.t E) (b : option (VisionBuf E)) (e : Z) :
  recv_main main b e
  = if (Vipc.timestamp_sof main <? e + 25000000)%Z then
      match Vipc.recv main with
      | (None, main') => (main', None)
      | (Some b', main') => recv_main main' (Some b') e
      end
    else (main, b).
Proof.
  destruct main as [fid sof pend]. unfold recv_main, Vipc.recv.
  cbn [Vipc.pending Vipc.frame_id Vipc.timestamp_sof].
  destruct pend as [|[f|] p]; cbn [recv_main_from];
    destruct (sof <? e + 25000000)%Z; reflexivity.
Qed.

(** One pass of the loop of lines 172-175. *)
Lemma recv_extra_step (extra : Vipc.t E) (m : Z) :
  recv_extra extra m
  = match Vipc.recv extra with
    | (None, extra') => (extra', None)
    | (Some b', extra') =>
        if (m <? Vipc.timestamp_sof extra' + 25000000)%Z
        then (extra', Some b')
        else recv_extra extra' m
    end.
Proof.
  destruct extra as [fid sof pend]. unfold recv_extra, Vipc.recv.
  cbn [Vipc.pending Vipc.frame_id Vipc.timestamp_sof].
  destruct pend as [|[f|] p]; cbn [recv_extra_from]; reflexivity.
Qed.

(** The main loop ends with a frame only when the main stream is 25 ms
    ahead, and takes frames off the front of the stream. *)
Lemma recv_main_from_post (pend : list (option (Vipc.Frame E))) :
  forall fid sof b e c b',
    recv_main_from pend fid sof b e = (c, b') ->
    (b' <> None -> (e + 25000000 <= Vipc.timestamp_sof c)%Z)
    /\ exists taken, pend = taken ++ Vipc.pending c.
Proof.
  induction pend as [|[f|] p IH]; intros fid sof b e c b' H;
    cbn [recv_main_from] in H;
    destruct (sof <? e + 25000000)%Z eqn:Hc;
    try (injection H as <- <-; cbn [Vipc.timestamp_sof Vipc.pending];
         split; [first [congruence | intros _; apply Z.ltb_ge; exact Hc]|]).
  - exists []. reflexivity.
  - exists []. reflexivity.
  - destruct (IH _ _ _ _ _ _ H) as [Hts [taken Ht]].
    split; [exact Hts|]. exists (Some f :: taken). rewrite Ht at 1. reflexivity.
  - exists []. reflexivity.
  - exists [None]. reflexivity.
  - exists []. reflexivity.
Qed.

(** The extra loop ends with a frame only when the main stream is less
    than 25 ms ahead of it, and takes frames off the front of the stream. *)
Lemma recv_extra_from_post (pend : list (option (Vipc.Frame E))) :
  forall fid sof m c b',
    recv_extra_from pend fid sof m = (c, b') ->
    (b' <> None -> (m < Vipc.timestamp_sof c + 25000000)%Z)
    /\ exists taken, pend = taken ++ Vipc.pending c.
Proof.
  induction pend as [|[f|] p IH]; intros fid sof m c b' H;
    cbn [recv_extra_from] in H.
  - injection H as <- <-. split; [congruence|]. exists []. reflexivity.
  - destruct (m <? Vipc.sof f + 25000000)%Z eqn:Hc.
    + injection H as <- <-. cbn [Vipc.timestamp_sof Vipc.pending].
      split; [intros _; apply Z.ltb_lt; exact Hc|].
      exists [Some f]. reflexivity.
    + destruct (IH _ _ _ _ _ H) as [Hts [taken Ht]].
      split; [exact Hts|]. exists (Some f :: taken).
      rewrite Ht at 1. reflexivity.
  - injection H as <- <-. split; [congruence|]. exists [None]. reflexivity.
Qed.

(** The three ways [sync_frames] can end, with the clients it leaves. *)
Lemma sync_frames_cases st :
  let rm := recv_main (Loop.vipc_client_main st) (Loop.buf_main st)
                      (Vipc.timestamp_sof (Loop.vipc_client_extra st)) in
  let re := recv_extra (Loop.vipc_client_extra st)
                       (Vipc.timestamp_sof (fst rm)) in
  sync_frames st
  = match snd rm with
    | None =>
        (set_clients (fst rm) (Loop.vipc_client_extra st) None
                     (Loop.buf_extra st) st,
         NoMainFrame, [EvLogError MainNoFrame])
    | Some b =>
        if Loop.use_extra_client st then
          match snd re with
          | None =>
              (set_clients (fst rm) (fst re) (Some b) None st,
               NoExtraFrame, [EvLogError ExtraNoFrame])
          | Some b' =>
              (set_clients (fst rm) (fst re) (Some b) (Some b') st,
               Synced b b', out_of_sync_log (fst rm) (fst re))
          end
        else
          (set_clients (fst rm) (Loop.vipc_client_extra st)
                       (Some b) (Some b) st,
           Synced b b, [])
    end.
Proof.
  cbv zeta. unfold sync_frames.
  destruct (recv_main _ _ _) as [main [b|]]; cbn [fst snd]; [|reflexivity].
  destruct (Loop.use_extra_client st); [|reflexivity].
  destruct (recv_extra _ _) as [extra [b'|]]; reflexivity.
Qed.

End SyncMore.

(** X8. With two cameras, a cycle that gets its two frames leaves the main
    stream at least 25 ms ahead of the extra frame of the cycle before and
    less than 25 ms ahead of the new extra frame; so the extra time stamp
    has grown. *)
Theorem synced_timestamps (E : Collaborators) (st st1 : Loop.t E)
  (bm be : VisionBuf E) (ev1 : list (Event E)) :
  Loop.use_extra_client st = true ->
  sync_frames st = (st1, Synced bm be, ev1) ->
  let main' := Vipc.timestamp_sof (Loop.vipc_client_main st1) in
  let extra := Vipc.timestamp_sof (Loop.vipc_client_extra st) in
  let extra' := Vipc.timestamp_sof (Loop.vipc_client_extra st1) in
  (extra + 25000000 <= main')%Z
  /\ (main' < extra' + 25000000)%Z
  /\ (extra < extra')%Z.
Proof.
  intros Hu Hsy. rewrite sync_frames_cases in Hsy. cbv zeta in Hsy.
  rewrite Hu in Hsy.
  destruct (recv_main _ _ _) as [main [b|]] eqn:Hm; cbn [fst snd] in Hsy;
    [|discriminate Hsy].
  destruct (recv_extra _ _) as [extra [b'|]] eqn:He; cbn [fst snd] in Hsy;
    [|discriminate Hsy].
  injection Hsy as <- _ _ _. cbv zeta.
  cbn [set_clients Loop.vipc_client_main Loop.vipc_client_extra].
  unfold recv_main in Hm. unfold recv_extra in He.
  destruct (recv_main_from_post _ _ _ _ _ _ _ Hm) as [H1 _].
  destruct (recv_extra_from_post _ _ _ _ _ _ He) as [H2 _].
  assert (Ha : (Vipc.timestamp_sof (Loop.vipc_client_extra st) + 25000000
                <= Vipc.timestamp_sof main)%Z) by (apply H1; discriminate).
  assert (Hb : (Vipc.timestamp_sof main
                < Vipc.timestamp_sof extra + 25000000)%Z)
    by (apply H2; discriminate).
  repeat split; [exact Ha | exact Hb | lia].
Qed.

Lemma synced_timestamps_witness :
  let st := Scenario.dual [Demo.frame 1 50000000] [Demo.frame 1 30000000] in
  Loop.use_extra_client st = true
  /\ (0 < Vipc.timestamp_sof
            (Loop.vipc_client_extra (fst (fst (sync_frames st)))))%Z.
Proof.
  intros st. split; [reflexivity|].
  exact (proj2 (proj2 (synced_timestamps Demo.collaborators st
                         (fst (fst (sync_frames st))) 1%Z 1%Z []
                         eq_refl eq_refl))).
Defined.

(** X9. With one camera, the cycle uses its main buffer as its wide buffer
    too: the extra client is not read, and the wide image is prepared from
    the main buffer, with the extra transform (as float32) and the device
    buffer of [big_input_imgs], and bound. *)
Theorem single_camera_alias (E : Collaborators) (sm : Sm.t)
  (st st1 : Loop.t E) (bm be : VisionBuf E) (ev1 : list (Event E)) (ratio : Q) :
  Loop.use_extra_client st = false ->
  shaped (Loop.model st) ->
  sync_frames st = (st1, Synced bm be, ev1) ->
  drop_ratio (frames_dropped_of st1) = Some ratio ->
  be = bm
  /\ Loop.vipc_client_extra st1 = Loop.vipc_client_extra st
  /\ Loop.buf_extra st1 = Loop.buf_main st1
  /\ exists st' l ev,
       cycle sm st = Some (st', Evaluated l, ev)
       /\ In (EvPrepare WideCam bm
                        (warp_argument (snd (fst (calibrate sm st))))
                        (getCLBuffer E "big_input_imgs")) ev
       /\ Onnx.big_input_imgs (model (Loop.model st'))
          = Some (snd (prepare E (wide_frame (Loop.model st)) bm
                               (warp_argument (snd (fst (calibrate sm st))))
                               (getCLBuffer E "big_input_imgs"))).
Proof.
  intros Hu Hs Hsy Hr.
  pose proof Hsy as Hsy'. rewrite sync_frames_cases in Hsy'. cbv zeta in Hsy'.
  rewrite Hu in Hsy'.
  destruct (recv_main _ _ _) as [main [b|]]; cbn [fst snd] in Hsy';
    [|discriminate Hsy'].
  injection Hsy' as Hst Hbm Hbe Hev1. subst bm be ev1.
  split; [reflexivity|]. split; [subst st1; reflexivity|].
  split; [subst st1; reflexivity|].
  destruct (cycle_synced sm st st1 b b [] ratio Hs Hsy Hr)
    as (_ & r & st' & Hev & Hmod & _ & _ & _ & _ & _ & _ & Hc).
  assert (Hcal : calibrate sm st1 = calibrate sm st)
    by (subst st1; reflexivity).
  rewrite Hcal in *.
  destruct (eval_effects b b _ _ _ _ _ r Hs (inputs_of_shaped sm) Hev)
    as [Hmodel Hevents].
  cbv zeta in Hmodel, Hevents.
  do 3 eexists. split; [exact Hc|]. split.
  - rewrite Hevents. apply in_or_app. right. apply in_or_app. right.
    cbn. tauto.
  - rewrite Hmod, Hmodel. reflexivity.
Qed.

Lemma single_camera_alias_witness :
  let st := Scenario.single [Demo.frame 5 50000000] in
  Loop.use_extra_client st = false
  /\ shaped (Loop.model st)
  /\ Loop.buf_extra (fst (fst (sync_frames st))) = Some 5%Z.
Proof.
  intros st. split; [reflexivity|]. split; [exact init_shaped|].
  destruct (single_camera_alias Demo.collaborators (Demo.snapshot 3 false)
              st (fst (fst (sync_frames st))) 5%Z 5%Z [] (0 / (1 + 0))
              eq_refl init_shaped eq_refl eq_refl) as (_ & _ & Hb & _).
  rewrite Hb. reflexivity.
Defined.

(** A loop with one camera that has evaluated the frame it holds, the main
    stream being 25 ms ahead of the (never read) extra client. *)
Definition stale {E} (st : Loop.t E) : Prop :=
  Loop.use_extra_client st = false
  /\ (Vipc.timestamp_sof (Loop.vipc_client_extra st) + 25000000
      <= Vipc.timestamp_sof (Loop.vipc_client_main st))%Z
  /\ Loop.buf_main st <> None
  /\ Loop.last_vipc_frame_id st = Vipc.frame_id (Loop.vipc_client_main st).

Section Stale.

Context {E : Collaborators}.
Implicit Types (st : Loop.t E) (sm : Sm.t).

Lemma stale_sync st :
  stale st ->
  exists b,
    Loop.buf_main st = Some b
    /\ sync_frames st
       = (set_clients (Loop.vipc_client_main st) (Loop.vipc_client_extra st)
                      (Some b) (Some b) st,
          Synced b b, []).
Proof.
  intros (Hu & Hts & Hb & _).
  destruct (Loop.buf_main st) as [b|] eqn:Hbm; [|congruence].
  exists b. split; [reflexivity|].
  rewrite sync_frames_cases. cbv zeta. rewrite Hbm, Hu.
  rewrite recv_main_step.
  apply Z.ltb_ge in Hts. rewrite Hts. reflexivity.
Qed.

(** A cycle that evaluates leaves the clients, the mode flags and the two
    buffer variables as the synchronisation left them. *)
Lemma cycle_keeps_clients sm st st1 (bm be : VisionBuf E) ev1 st' out ev :
  shaped (Loop.model st) ->
  sync_frames st = (st1, Synced bm be, ev1) ->
  cycle sm st = Some (st', out, ev) ->
  Loop.vipc_client_main st' = Loop.vipc_client_main st1
  /\ Loop.vipc_client_extra st' = Loop.vipc_client_extra st1
  /\ Loop.use_extra_client st' = Loop.use_extra_client st1
  /\ Loop.main_wide_camera st' = Loop.main_wide_camera st1
  /\ Loop.buf_main st' = Loop.buf_main st1
  /\ Loop.buf_extra st' = Loop.buf_extra st1.
Proof.
  intros Hs Hsy Hc.
  assert (Hs1 : shaped (Loop.model st1)).
  { destruct (sync_frames_is_set_clients st) as (m & e & b & b' & Heq).
    rewrite Hsy in Heq. cbn [fst] in Heq. subst st1. exact Hs. }
  unfold cycle in Hc. rewrite Hsy in Hc. bind_inv Hc as x Hx.
  destruct (evaluate_cycle_ratio _ _ _ _ _ Hx) as [ratio Hr].
  destruct (evaluate_cycle_ok sm bm be st1 ratio Hs1 Hr) as (r & _ & Heq).
  rewrite Heq in Hx. apply Some_eq in Hx. subst x. cbn [fst snd] in Hc.
  apply Some_eq in Hc. injection Hc as <- _ _.
  cbn [Loop.vipc_client_main Loop.vipc_client_extra Loop.use_extra_client
       Loop.main_wide_camera Loop.buf_main Loop.buf_extra].
  repeat split.
Qed.

(** A cycle that evaluates, by its synchronisation. *)
Lemma cycle_evaluated_inv sm st st' (l : Locals) ev :
  shaped (Loop.model st) ->
  cycle sm st = Some (st', Evaluated l, ev) ->
  exists st1 bm be ev1 ratio r,
    sync_frames st = (st1, Synced bm be, ev1)
    /\ drop_ratio (frames_dropped_of st1) = Some ratio
    /\ eval bm (Some be) (fst (fst (calibrate sm st1)))
             (snd (fst (calibrate sm st1)))
             (inputs_of sm) (0 <? dropped_of st1)%Z (Loop.model st) = Some r
    /\ Loop.model st' = self' r
    /\ Loop.last_vipc_frame_id st' = Vipc.frame_id (Loop.vipc_client_main st1)
    /\ Loop.run_count st' = (Loop.run_count st1 + 1)%Z
    /\ l = {| vipc_dropped_frames := dropped_of st1;
              frames_dropped := frames_dropped_of st1;
              frame_drop_ratio := ratio;
              prepare_only := (0 <? dropped_of st1)%Z;
              model_output := ret r |}
    /\ ev = ev1 ++ (if (0 <? dropped_of st1)%Z
                    then [EvLogError (SkippingModelEval (dropped_of st1))]
                    else [])
                ++ events r.
Proof.
  intros Hs Hc. pose proof Hc as Hc0.
  unfold cycle in Hc.
  destruct (sync_frames st) as [[st1 sy] ev1] eqn:Hsy.
  destruct sy as [| |bm be]; try (apply Some_eq in Hc; discriminate Hc).
  bind_inv Hc as x Hx.
  destruct (evaluate_cycle_ratio _ _ _ _ _ Hx) as [ratio Hr].
  destruct (cycle_synced sm st st1 bm be ev1 ratio Hs Hsy Hr)
    as (_ & r & st2 & Hev & Hm & _ & Hrc & Hl & _ & _ & _ & Hc2).
  rewrite Hc0 in Hc2. apply Some_eq in Hc2. injection Hc2 as -> -> ->.
  exists st1, bm, be, ev1, ratio, r.
  repeat (split; [assumption || reflexivity|]). reflexivity.
Qed.

(** A stale loop stays stale: each cycle evaluates the same frame with a
    count of -1, runs the engine, and leaves the main client as it is. *)
Lemma stale_cycle sm st st' out ev :
  stale st -> shaped (Loop.model st) ->
  cycle sm st = Some (st', out, ev) ->
  stale st'
  /\ Loop.vipc_client_main st' = Loop.vipc_client_main st
  /\ Loop.buf_main st' = Loop.buf_main st
  /\ exists l,
       out = Evaluated l
       /\ vipc_dropped_frames l = (-1)%Z
       /\ prepare_only l = false
       /\ model_output l <> None.
Proof.
  intros Hst Hs Hc.
  destruct (stale_sync st Hst) as (b & Hbm & Hsy).
  destruct Hst as (Hu & Hts & Hb & Hlast).
  destruct (cycle_keeps_clients sm st _ b b [] st' out ev Hs Hsy Hc)
    as (Hcm & Hce & Hu' & _ & Hbm' & _).
  cbn [set_clients Loop.vipc_client_main Loop.vipc_client_extra
       Loop.use_extra_client Loop.buf_main] in Hcm, Hce, Hu', Hbm'.
  assert (Hout : exists l, out = Evaluated l).
  { unfold cycle in Hc. rewrite Hsy in Hc. bind_inv Hc as x Hx.
    apply Some_eq in Hc. injection Hc as _ <- _. eauto. }
  destruct Hout as [l ->].
  destruct (cycle_evaluated_inv sm st st' l ev Hs Hc)
    as (st1 & bm & be & ev1 & ratio & r & Hsy' & _ & Hev & _ & Hl & _
        & Hloc & _).
  rewrite Hsy in Hsy'. injection Hsy' as <- <- <- <-.
  assert (Hd : dropped_of (set_clients (Loop.vipc_client_main st)
                             (Loop.vipc_client_extra st) (Some b) (Some b) st)
               = (-1)%Z).
  { unfold dropped_of.
    cbn [set_clients Loop.vipc_client_main Loop.last_vipc_frame_id].
    rewrite Hlast. lia. }
  rewrite Hd in *. change (0 <? -1)%Z with false in *.
  cbn [set_clients Loop.vipc_client_main] in Hl.
  split; [|split; [exact Hcm|split; [congruence|]]].
  - unfold stale. rewrite Hcm, Hce, Hu', Hbm', Hl.
    repeat split; [exact Hu | exact Hts | discriminate].
  - exists l. split; [reflexivity|]. subst l.
    cbn [vipc_dropped_frames prepare_only model_output].
    split; [reflexivity|]. split; [reflexivity|].
    match type of Hev with
    | eval _ _ ?t ?tw _ _ _ = _ =>
        destruct (eval_pushes b (Some b) t tw (inputs_of sm) false (Loop.model st)
                    Hs (inputs_of_shaped sm)) as (r' & Hev' & _ & _ & Hfull)
    end.
    rewrite Hev in Hev'. apply Some_eq in Hev'. subst r'.
    destruct (Hfull eq_refl) as (o & Hret & _). rewrite Hret. discriminate.
Qed.

Lemma stale_run (sms : list Sm.t) :
  forall st st' outs,
    stale st -> shaped (Loop.model st) ->
    run sms st = Some (st', outs) ->
    Loop.vipc_client_main st' = Loop.vipc_client_main st
    /\ Loop.buf_main st' = Loop.buf_main st
    /\ Forall (fun o => exists l,
                 o = Evaluated l
                 /\ vipc_dropped_frames l = (-1)%Z
                 /\ prepare_only l = false
                 /\ model_output l <> None) outs.
Proof.
  induction sms as [|sm sms IH]; intros st st' outs Hst Hs Hr;
    cbn [run] in Hr.
  - apply Some_eq in Hr. injection Hr as <- <-.
    split; [reflexivity|]. split; [reflexivity|constructor].
  - bind_inv Hr as c Hc. bind_inv Hr as r' Hr'.
    destruct r' as [s2 o2]. cbn [fst snd] in Hr.
    apply Some_eq in Hr. injection Hr as <- <-.
    destruct c as [[st1 o] ev]. cbn [fst snd] in *.
    destruct (stale_cycle sm st st1 o ev Hst Hs Hc) as (Hst1 & Hcm & Hbm & Ho).
    destruct (IH st1 s2 o2 Hst1 (cycle_shaped _ _ _ _ _ Hs Hc) Hr')
      as (Hcm' & Hbm' & Hall).
    split; [congruence|]. split; [congruence|]. constructor; assumption.
Qed.

(** With one camera, a cycle that evaluates leaves the loop stale. *)
Lemma single_camera_becomes_stale sm st st1 (l : Locals) ev :
  Loop.use_extra_client st = false -> shaped (Loop.model st) ->
  cycle sm st = Some (st1, Evaluated l, ev) ->
  stale st1.
Proof.
  intros Hu Hs Hc.
  destruct (cycle_evaluated_inv sm st st1 l ev Hs Hc)
    as (sy1 & bm & be & ev1 & ratio & r & Hsy & _ & _ & _ & Hl & _).
  destruct (cycle_keeps_clients sm st sy1 bm be ev1 st1 _ ev Hs Hsy Hc)
    as (Hcm & Hce & Hu' & _ & Hbm & _).
  rewrite sync_frames_cases in Hsy. cbv zeta in Hsy. rewrite Hu in Hsy.
  destruct (recv_main _ _ _) as [main [b|]] eqn:Hm; cbn [fst snd] in Hsy;
    [|discriminate Hsy].
  injection Hsy as <- _ _ _.
  cbn [set_clients Loop.vipc_client_main Loop.vipc_client_extra
       Loop.use_extra_client Loop.buf_main] in *.
  unfold recv_main in Hm.
  destruct (recv_main_from_post _ _ _ _ _ _ _ Hm) as [Hts _].
  unfold stale. rewrite Hcm, Hce, Hu', Hbm, Hl.
  repeat split; [exact Hu | apply Hts; discriminate | discriminate].
Qed.

End Stale.

(** X10. With one camera the loop reads no second frame: the extra client
    is never read, so once a frame has been evaluated the main stream is
    25 ms ahead for good; every later cycle leaves the main client alone,
    evaluates the same buffer again with a dropped-frame count of -1, and
    runs the engine on it. *)
Theorem single_camera_stalls (E : Collaborators) (sm : Sm.t)
  (st st1 st' : Loop.t E) (l : Locals) (ev : list (Event E))
  (sms : list Sm.t) (outs : list Outcome) :
  Loop.use_extra_client st = false ->
  shaped (Loop.model st) ->
  cycle sm st = Some (st1, Evaluated l, ev) ->
  run sms st1 = Some (st', outs) ->
  Loop.vipc_client_main st' = Loop.vipc_client_main st1
  /\ Loop.buf_main st' = Loop.buf_main st1
  /\ Forall (fun o => exists l',
                o = Evaluated l'
                /\ vipc_dropped_frames l' = (-1)%Z
                /\ prepare_only l' = false
                /\ model_output l' <> None) outs.
Proof.
  intros Hu Hs Hc Hrun.
  pose proof (single_camera_becomes_stale sm st st1 l ev Hu Hs Hc) as Hst.
  pose proof (cycle_shaped _ _ _ _ _ Hs Hc) as Hs1.
  exact (stale_run sms st1 st' outs Hst Hs1 Hrun).
Qed.

Lemma single_camera_stalls_witness :
  let st := Scenario.single [Demo.frame 3 50000000; Demo.frame 4 100000000] in
  Loop.use_extra_client st = false
  /\ shaped (Loop.model st)
  /\ exists st1 l ev,
       cycle (Demo.snapshot 3 false) st = Some (st1, Evaluated l, ev)
       /\ forall st' outs,
            run [Demo.snapshot 3 false; Demo.snapshot 3 false] st1
            = Some (st', outs) ->
            Loop.buf_main st' = Loop.buf_main st1.
Proof.
  intros st. split; [reflexivity|]. split; [exact init_shaped|].
  destruct (cycle_synced (Demo.snapshot 3 false) st
              (fst (fst (sync_frames st))) 3%Z 3%Z [] (0 / (1 + 0))
              init_shaped eq_refl eq_refl)
    as (_ & r & st1 & _ & _ & _ & _ & _ & _ & _ & _ & Hc).
  exists st1. eexists. eexists. split; [exact Hc|].
  intros st' outs Hrun.
  exact (proj1 (proj2 (single_camera_stalls Demo.collaborators
                         (Demo.snapshot 3 false) st st1 st' _ _ _ outs
                         eq_refl init_shaped Hc Hrun))).
Defined.

(** * Further properties of the cycle *)

Definition is_evaluated (o : Outcome) : bool :=
  match o with Evaluated _ => true | _ => false end.

(** A 3x3 matrix. *)
Definition is33 (M : Matrix) : Prop :=
  length M = 3%nat /\ Forall (fun row => length row = 3%nat) M.

(** Collaborators whose calibration constants are 3x3 matrices, as
    [common.transformations] declares them. *)
Record calibration_shaped (E : Collaborators) : Prop := {
  cs_fcam : is33 (tici_fcam_intrinsics E);
  cs_ecam : is33 (tici_ecam_intrinsics E);
  cs_view : is33 (view_frame_from_device_frame E);
  cs_rot : forall e, is33 (rot_from_euler E e);
  cs_med : is33 (calib_from_medmodel E);
  cs_sbig : is33 (calib_from_sbigmodel E)
}.

Section CycleMore.

Context {E : Collaborators}.
Implicit Types (st : Loop.t E) (sm : Sm.t).

Lemma sync_no_out_of_sync st :
  existsb is_out_of_sync (snd (sync_frames st)) = false.
Proof.
  rewrite sync_frames_cases. cbv zeta.
  destruct (snd (recv_main _ _ _)) as [b|]; [|reflexivity].
  destruct (Loop.use_extra_client st); [|reflexivity].
  destruct (snd (recv_extra _ _)) as [b'|]; [|reflexivity].
  cbn [snd]. unfold out_of_sync_log. rewrite out_of_sync_test_false.
  reflexivity.
Qed.

Lemma sync_execute_free st :
  filter is_execute (snd (sync_frames st)) = [].
Proof.
  rewrite sync_frames_cases. cbv zeta.
  destruct (snd (recv_main _ _ _)) as [b|]; [|reflexivity].
  destruct (Loop.use_extra_client st); [|reflexivity].
  destruct (snd (recv_extra _ _)) as [b'|]; [|reflexivity].
  cbn [snd]. unfold out_of_sync_log. rewrite out_of_sync_test_false.
  reflexivity.
Qed.

Lemma matmul_is33 (A B : Matrix) : is33 A -> is33 B -> is33 (matmul A B).
Proof.
  intros [HA _] [HB HBrows]. unfold matmul. split.
  - rewrite length_map. exact HA.
  - apply Forall_forall. intros row Hrow.
    apply in_map_iff in Hrow. destruct Hrow as (r & <- & _).
    rewrite length_map, length_seq.
    destruct B as [|b0 B]; [discriminate HB|].
    inversion HBrows; subst. assumption.
Qed.

Lemma update_calibration_is33 (e : list Q) (w b : bool) :
  calibration_shaped E -> is33 (update_calibration E e w b).
Proof.
  intros H. unfold update_calibration.
  repeat apply matmul_is33;
    try (destruct w; apply H); try (destruct b; apply H); apply H.
Qed.

Lemma zeros33_is33 : is33 zeros33.
Proof. split; [reflexivity|]. repeat constructor. Qed.

Lemma is33_flatten (M : Matrix) : is33 M -> length (flatten M) = 9%nat.
Proof.
  intros [HM Hrows]. unfold flatten.
  destruct M as [|r1 [|r2 [|r3 [|r4 M]]]]; try discriminate HM.
  inversion Hrows as [|? ? H1 Hr1]; subst.
  inversion Hr1 as [|? ? H2 Hr2]; subst.
  inversion Hr2 as [|? ? H3 _]; subst.
  cbn [concat]. rewrite !length_app, H1, H2, H3. reflexivity.
Qed.

End CycleMore.

(** X11. A cycle that finds no frame dropped (a count of 0, or a negative
    one) runs the engine exactly once: the output is returned and kept, the
    feature window takes its feature range as newest block, and no
    "skipping model eval" error is logged. *)
Theorem full_inference_cycle (E : Collaborators) (sm : Sm.t)
  (st st1 : Loop.t E) (bm be : VisionBuf E) (ev1 : list (Event E)) (ratio : Q) :
  shaped (Loop.model st) ->
  sync_frames st = (st1, Synced bm be, ev1) ->
  (dropped_of st1 <= 0)%Z ->
  drop_ratio (frames_dropped_of st1) = Some ratio ->
  exists st' l ev out,
    cycle sm st = Some (st', Evaluated l, ev)
    /\ prepare_only l = false
    /\ model_output l = Some out
    /\ output (Loop.model st') = out
    /\ length out = MODEL_OUTPUT_SIZE
    /\ Bound.feature_buffer (inputs (Loop.model st'))
       = skipn FEATURE_LEN (Bound.feature_buffer (inputs (Loop.model st)))
         ++ features_of out
    /\ length (filter is_execute ev) = 1%nat
    /\ ~ In (EvLogError (SkippingModelEval (dropped_of st1))) ev.
Proof.
  intros Hs Hsy Hd Hr.
  destruct (cycle_synced sm st st1 bm be ev1 ratio Hs Hsy Hr)
    as (_ & r & st' & Hev & Hmod & _ & _ & _ & _ & _ & _ & Hc).
  assert (Hpo : (0 <? dropped_of st1)%Z = false) by (apply Z.ltb_ge; exact Hd).
  rewrite Hpo in *.
  pose proof (inputs_of_shaped sm) as Hi.
  match type of Hev with
  | eval _ _ ?t ?tw _ _ _ = _ =>
      destruct (eval_pushes bm (Some be) t tw (inputs_of sm) false
                  (Loop.model st) Hs Hi) as (r' & Hev' & _ & _ & Hfull);
      destruct (eval_effects bm be t tw (inputs_of sm) false (Loop.model st) r
                  Hs Hi Hev) as [_ Hevents]
  end.
  rewrite Hev in Hev'. apply Some_eq in Hev'. subst r'.
  destruct (Hfull eq_refl) as (out & Hret & Hlen & Hfb).
  cbv zeta in Hevents.
  exists st'. eexists. eexists. exists out.
  split; [exact Hc|]. cbn [prepare_only model_output].
  split; [reflexivity|]. split; [exact Hret|].
  assert (Hout : output (self' r) = out).
  { pose proof Hev as Hev2. rewrite eval_staged in Hev2 by assumption.
    cbv zeta in Hev2. apply Some_eq in Hev2. subst r.
    cbn [self' set_features output ret] in *. apply Some_eq in Hret.
    exact Hret. }
  rewrite Hmod. split; [exact Hout|]. split; [exact Hlen|].
  split; [exact Hfb|].
  pose proof (sync_execute_free st) as Hx. rewrite Hsy in Hx. cbn [snd] in Hx.
  pose proof (sync_frames_events st) as Hp. rewrite Hsy in Hp. cbn [snd] in Hp.
  split.
  - rewrite !filter_app, Hx, Hevents. reflexivity.
  - intros Hin. apply in_app_or in Hin. destruct Hin as [Hin|Hin].
    + assert (Hlog : forall e, In e ev1 ->
                 e = EvLogError MainNoFrame \/ e = EvLogError ExtraNoFrame
                 \/ exists a b c d, e = EvLogError (FramesOutOfSync a b c d)).
      { rewrite sync_frames_cases in Hsy. cbv zeta in Hsy.
        destruct (snd (recv_main _ _ _)) as [b|]; [|discriminate Hsy].
        destruct (Loop.use_extra_client st).
        - destruct (snd (recv_extra _ _)) as [b'|]; [|discriminate Hsy].
          injection Hsy as _ _ _ <-. unfold out_of_sync_log.
          rewrite out_of_sync_test_false. intros e [].
        - injection Hsy as _ _ _ <-. intros e []. }
      destruct (Hlog _ Hin) as [H|[H|(a & b & c & d & H)]]; discriminate H.
    + cbn [app] in Hin. rewrite Hevents in Hin. cbn in Hin.
      repeat (destruct Hin as [Hin|Hin]; [discriminate Hin|]). exact Hin.
Qed.

Lemma full_inference_cycle_witness :
  let st := Scenario.single [Demo.frame 1 50000000] in
  shaped (Loop.model st)
  /\ (dropped_of (fst (fst (sync_frames st))) <= 0)%Z
  /\ exists st' l ev out,
       cycle (Demo.snapshot 3 false) st = Some (st', Evaluated l, ev)
       /\ model_output l = Some out.
Proof.
  intros st. split; [exact init_shaped|].
  assert (Hd : (dropped_of (fst (fst (sync_frames st))) <= 0)%Z)
    by (vm_compute; discriminate).
  split; [exact Hd|].
  destruct (full_inference_cycle Demo.collaborators (Demo.snapshot 3 false)
              st (fst (fst (sync_frames st))) 1%Z 1%Z [] (0 / (1 + 0))
              init_shaped eq_refl Hd eq_refl)
    as (st' & l & ev & out & Hc & _ & Ho & _).
  exists st', l, ev, out. split; [exact Hc | exact Ho].
Defined.

(** X12. Frames are taken off the front of each stream, in order: what a
    stream still holds after the synchronisation is a tail of what it held
    before, and with one camera the extra stream is left whole. *)
Theorem frames_taken_in_order (E : Collaborators) (st : Loop.t E) :
  let st1 := fst (fst (sync_frames st)) in
  (exists taken,
     Vipc.pending (Loop.vipc_client_main st)
     = taken ++ Vipc.pending (Loop.vipc_client_main st1))
  /\ (exists taken,
        Vipc.pending (Loop.vipc_client_extra st)
        = taken ++ Vipc.pending (Loop.vipc_client_extra st1))
  /\ (Loop.use_extra_client st = false ->
      Loop.vipc_client_extra st1 = Loop.vipc_client_extra st).
Proof.
  cbv zeta. rewrite sync_frames_cases. cbv zeta.
  destruct (recv_main _ _ _) as [main bm] eqn:Hm.
  destruct (recv_extra _ _) as [extra be] eqn:He.
  unfold recv_main in Hm. unfold recv_extra in He.
  destruct (recv_main_from_post _ _ _ _ _ _ _ Hm) as [_ Htm].
  destruct (recv_extra_from_post _ _ _ _ _ _ He) as [_ Hte].
  cbn [fst snd].
  destruct bm as [b|];
    [destruct (Loop.use_extra_client st); [destruct be as [b'|]|]|];
    cbn [fst set_clients Loop.vipc_client_main Loop.vipc_client_extra];
    (split; [exact Htm|]);
    (split; [first [exact Hte | exists []; reflexivity]|]);
    first [discriminate | reflexivity].
Qed.

(** X13. The run count counts evaluated cycles: after any run of the loop
    it has grown by the number of cycles that were not skipped. *)
Theorem run_count_counts_evaluations (E : Collaborators)
  (sms : list Sm.t) (st st' : Loop.t E) (outs : list Outcome) :
  shaped (Loop.model st) ->
  run sms st = Some (st', outs) ->
  Loop.run_count st'
  = (Loop.run_count st + Z.of_nat (length (filter is_evaluated outs)))%Z
  /\ length outs = length sms.
Proof.
  revert st st' outs.
  induction sms as [|sm sms IH]; intros st st' outs Hs Hr; cbn [run] in Hr.
  - apply Some_eq in Hr. injection Hr as <- <-. cbn. split; [lia|reflexivity].
  - bind_inv Hr as c Hc. bind_inv Hr as r' Hr'.
    destruct r' as [s2 o2]. cbn [fst snd] in Hr.
    apply Some_eq in Hr. injection Hr as <- <-.
    destruct c as [[st1 o] ev]. cbn [fst snd] in *.
    destruct (IH st1 s2 o2 (cycle_shaped _ _ _ _ _ Hs Hc) Hr') as [Hcount Hlen].
    split; [|cbn [length]; rewrite Hlen; reflexivity].
    rewrite Hcount.
    destruct (cycle_cases sm st st1 o ev Hs Hc)
      as [(m & e & b & b' & -> & [-> | ->])
         |(m & e & b & b' & bm & be & ev1 & ratio & r & H)].
    + cbn [set_clients Loop.run_count filter is_evaluated]. reflexivity.
    + cbn [set_clients Loop.run_count filter is_evaluated]. reflexivity.
    + cbv zeta in H.
      destruct H as (_ & _ & _ & _ & _ & Hrc & _ & _ & _ & _ & -> & _).
      rewrite Hrc. cbn [filter is_evaluated length]. lia.
Qed.

Lemma run_count_counts_evaluations_witness :
  let st := Scenario.single [Demo.frame 1 50000000] in
  shaped (Loop.model st)
  /\ exists st' outs,
       run [Demo.snapshot 3 false] st = Some (st', outs)
       /\ Loop.run_count st' = 1%Z.
Proof.
  intros st. split; [exact init_shaped|].
  destruct (single_camera_run (Demo.snapshot 3 false)) as (st' & l & Hrun).
  exists st', [Evaluated l]. split; [exact Hrun|].
  exact (proj1 (run_count_counts_evaluations Demo.collaborators
                  [Demo.snapshot 3 false] st st' [Evaluated l]
                  init_shaped Hrun)).
Defined.

(** X14. No cycle logs "frames out of sync", whatever the two streams
    deliver. *)
Theorem out_of_sync_never_logged (E : Collaborators) (sm : Sm.t)
  (st st' : Loop.t E) (out : Outcome) (ev : list (Event E)) :
  shaped (Loop.model st) ->
  cycle sm st = Some (st', out, ev) ->
  existsb is_out_of_sync ev = false.
Proof.
  intros Hs Hc.
  pose proof (sync_no_out_of_sync st) as Hsync.
  destruct out as [| |l].
  - pose proof (cycle_skipped sm st) as Hk. unfold cycle in Hc.
    destruct (sync_frames st) as [[st1 sy] ev1]. cbn [fst snd] in *.
    destruct sy; try (apply Some_eq in Hc; injection Hc as _ <-; exact Hsync).
    + apply Some_eq in Hc. discriminate Hc.
    + bind_inv Hc as x Hx. apply Some_eq in Hc. discriminate Hc.
  - unfold cycle in Hc.
    destruct (sync_frames st) as [[st1 sy] ev1]. cbn [fst snd] in *.
    destruct sy; try (apply Some_eq in Hc; injection Hc as _ <-; exact Hsync).
    + apply Some_eq in Hc. discriminate Hc.
    + bind_inv Hc as x Hx. apply Some_eq in Hc. discriminate Hc.
  - destruct (cycle_evaluated_inv sm st st' l ev Hs Hc)
      as (st1 & bm & be & ev1 & ratio & r & Hsy & _ & Hev & _ & _ & _ & _ & ->).
    rewrite Hsy in Hsync. cbn [snd] in Hsync.
    destruct (eval_effects bm be _ _ _ _ _ r Hs (inputs_of_shaped sm) Hev)
      as [_ Hevents].
    cbv zeta in Hevents. rewrite !existsb_app, Hsync, Hevents.
    destruct (0 <? dropped_of st1)%Z; reflexivity.
Qed.

Lemma out_of_sync_never_logged_witness :
  let st := Scenario.dual [Demo.frame 1 50000000] [Demo.frame 1 30000000] in
  shaped (Loop.model st)
  /\ exists st' out ev,
       cycle (Demo.snapshot 3 false) st = Some (st', out, ev)
       /\ existsb is_out_of_sync ev = false.
Proof.
  intros st. split; [exact init_shaped|].
  destruct (two_camera_cycle (Demo.snapshot 3 false)) as (st' & l & ev & Hc).
  exists st', (Evaluated l), ev. split; [exact Hc|].
  exact (out_of_sync_never_logged Demo.collaborators (Demo.snapshot 3 false)
           st st' (Evaluated l) ev init_shaped Hc).
Defined.

(** X15. When the calibration constants are 3x3 matrices, so is every warp
    matrix [update_calibration] returns, and so are the two transforms of
    the loop in every state a run reaches from its start: what [eval]
    flattens and hands to the preprocessor has 9 entries. *)
Theorem warp_matrices_are_3x3 (E : Collaborators) (uec mwc : bool)
  (main extra : Vipc.t E) (sms : list Sm.t) (st : Loop.t E)
  (outs : list Outcome) :
  calibration_shaped E ->
  run sms (loop_init E uec mwc main extra) = Some (st, outs) ->
  (forall e w b, is33 (update_calibration E e w b))
  /\ is33 (Loop.model_transform_main st)
  /\ is33 (Loop.model_transform_extra st)
  /\ length (flatten (Loop.model_transform_main st)) = 9%nat
  /\ length (flatten (Loop.model_transform_extra st)) = 9%nat.
Proof.
  intros Hcal Hrun.
  split; [intros e w b; apply update_calibration_is33; exact Hcal|].
  assert (H : is33 (Loop.model_transform_main st)
              /\ is33 (Loop.model_transform_extra st)).
  { assert (Hs0 : shaped (Loop.model (loop_init E uec mwc main extra)))
      by exact init_shaped.
    assert (H0 : is33 (Loop.model_transform_main
                         (loop_init E uec mwc main extra))
                 /\ is33 (Loop.model_transform_extra
                            (loop_init E uec mwc main extra)))
      by (split; exact zeros33_is33).
    revert Hs0 H0 Hrun. generalize (loop_init E uec mwc main extra).
    revert st outs.
    induction sms as [|sm sms IH]; intros st outs st0 Hs0 H0 Hrun;
      cbn [run] in Hrun.
    - apply Some_eq in Hrun. injection Hrun as <- _. exact H0.
    - bind_inv Hrun as c Hc. bind_inv Hrun as r' Hr'.
      destruct r' as [s2 o2]. cbn [fst snd] in Hrun.
      apply Some_eq in Hrun. injection Hrun as <- _.
      destruct c as [[st1 o] ev]. cbn [fst snd] in *.
      apply (IH s2 o2 st1); [eapply cycle_shaped; eauto | | exact Hr'].
      destruct (cycle_cases sm st0 st1 o ev Hs0 Hc)
        as [(m & e & b & b' & -> & _)
           |(m & e & b & b' & bm & be & ev1 & ratio & r & H)];
        [exact H0|].
      cbv zeta in H.
      destruct H as (_ & _ & _ & _ & _ & _ & _ & Hm & He & _).
      rewrite Hm, He. unfold calibrate.
      destruct (Sm.liveCalibration_updated sm); cbn [fst snd];
        [split; apply update_calibration_is33; exact Hcal | exact H0]. }
  destruct H as [Hm He].
  repeat split; try apply Hm; try apply He; apply is33_flatten; assumption.
Qed.

Lemma demo_calibration_shaped : calibration_shaped Demo.collaborators.
Proof.
  split; try intros e; (split; [reflexivity | repeat constructor]).
Qed.

Lemma warp_matrices_are_3x3_witness :
  let st := Scenario.single [Demo.frame 1 50000000] in
  calibration_shaped Demo.collaborators
  /\ exists st' outs,
       run [Demo.snapshot 3 true] st = Some (st', outs)
       /\ length (flatten (Loop.model_transform_main st')) = 9%nat.
Proof.
  intros st. split; [exact demo_calibration_shaped|].
  destruct (single_camera_run (Demo.snapshot 3 true)) as (st' & l & Hrun).
  exists st', [Evaluated l]. split; [exact Hrun|].
  exact (proj1 (proj2 (proj2 (proj2
           (warp_matrices_are_3x3 Demo.collaborators false false
              (Demo.client [Demo.frame 1 50000000]) (Demo.client [])
              [Demo.snapshot 3 true] st' [Evaluated l]
              demo_calibration_shaped Hrun))))).
Defined.

(** X16. After an evaluated cycle the traffic convention bound to the
    engine is the one-hot vector of the right-hand-drive flag, [1, 0] for
    left-hand traffic and [0, 1] for right-hand drive, and the nav features
    bound are all zero: the loop never fills them. *)
Theorem cycle_side_inputs (E : Collaborators) (sm : Sm.t)
  (st st' : Loop.t E) (l : Locals) (ev : list (Event E)) :
  shaped (Loop.model st) ->
  cycle sm st = Some (st', Evaluated l, ev) ->
  Bound.traffic_convention (inputs (Loop.model st'))
  = (if Sm.isRHD sm then [0; 1] else [1; 0])
  /\ Bound.nav_features (inputs (Loop.model st')) = Np.zeros NAV_FEATURE_LEN.
Proof.
  intros Hs Hc.
  destruct (cycle_evaluated_inv sm st st' l ev Hs Hc)
    as (st1 & bm & be & ev1 & ratio & r & _ & _ & Hev & Hm & _).
  destruct (eval_self_inputs _ _ _ _ _ _ _ _ Hs (inputs_of_shaped sm) Hev)
    as (_ & Ht & Hn & _).
  rewrite Hm, Ht, Hn. unfold inputs_of.
  cbn [Inputs.traffic_convention Inputs.nav_features].
  split; [destruct (Sm.isRHD sm); reflexivity | reflexivity].
Qed.

Lemma cycle_side_inputs_witness :
  let st := Scenario.single [Demo.frame 1 50000000] in
  shaped (Loop.model st)
  /\ exists st' l ev,
       cycle (Demo.snapshot 3 false) st = Some (st', Evaluated l, ev)
       /\ Bound.traffic_convention (inputs (Loop.model st')) = [1; 0].
Proof.
  intros st. split; [exact init_shaped|].
  destruct (single_camera_cycle (Demo.snapshot 3 false))
    as (st' & l & ev & Hc).
  exists st', l, ev. split; [exact Hc|].
  exact (proj1 (cycle_side_inputs Demo.collaborators (Demo.snapshot 3 false)
                  st st' l ev init_shaped Hc)).
Defined.

(** * The desire pulse, from the lateral plan to the window *)

Section DesireFromPlan.

Lemma rising_zeros (dt : Float.dtype) (n : nat) :
  forall prev, length prev = n -> rising dt (repeat 0 n) prev = repeat 0 n.
Proof.
  unfold rising, edges, Np.astype. induction n as [|n IH]; intros [|p prev] H;
    try discriminate H; [reflexivity|].
  cbn [repeat Np.zip_with map]. rewrite IH by (injection H as H; exact H).
  destruct (rises dt 0 p); reflexivity.
Qed.

(** Over a previous desire of zeros, an entry 1 rises and an entry 0 does
    not, in either dtype. *)
Lemma rises_from_zero (dt : Float.dtype) :
  rises dt 1 0 = true /\ rises dt 0 0 = false.
Proof. destruct dt; split; vm_compute; reflexivity. Qed.

Lemma rising_from_rest (dt : Float.dtype) (v : list Q) :
  Forall bit v -> rising dt v (repeat 0 (length v)) = v.
Proof.
  unfold rising, edges, Np.astype.
  induction v as [|q v IH]; intros H; [reflexivity|].
  inversion H as [|? ? Hq Hv]; subst.
  cbn [length repeat Np.zip_with map]. rewrite IH by exact Hv. f_equal.
  destruct Hq as [-> | ->].
  - rewrite (proj2 (rises_from_zero dt)). reflexivity.
  - rewrite (proj1 (rises_from_zero dt)). apply round_1.
Qed.

(** The desire vector of a plan that asks for nothing: an enum value out
    of range, or 0, whose entry line 72 clears. *)
Lemma vec_desire_none (d : Z) (v : list Q) :
  (d <= 0)%Z \/ (Z.of_nat DESIRE_LEN <= d)%Z ->
  vec_desire d = Some v -> zeroed v = Np.zeros DESIRE_LEN.
Proof.
  intros Hd Hv. unfold vec_desire in Hv.
  destruct ((0 <=? d)%Z && (d <? Z.of_nat DESIRE_LEN)%Z) eqn:Hr.
  - apply andb_prop in Hr. destruct Hr as [H0 H1].
    apply Z.leb_le in H0. apply Z.ltb_lt in H1.
    assert (d = 0%Z) by lia. subst d.
    cbn in Hv. apply Some_eq in Hv. subst v. reflexivity.
  - apply Some_eq in Hv. subst v. reflexivity.
Qed.

(** The desire vector of a plan that asks for manoeuvre [d]. *)
Lemma vec_desire_some (d : Z) :
  (1 <= d < Z.of_nat DESIRE_LEN)%Z ->
  exists v,
    vec_desire d = Some v /\ zeroed v = v /\ length v = DESIRE_LEN
    /\ nth (Z.to_nat d) v 0 = 1
    /\ forall i, i <> Z.to_nat d -> nth i v 0 = 0.
Proof.
  intros Hd.
  assert (Hcases : (d = 1 \/ d = 2 \/ d = 3 \/ d = 4 \/ d = 5 \/ d = 6
                    \/ d = 7)%Z) by (unfold DESIRE_LEN in Hd; lia).
  destruct Hcases as [->|[->|[->|[->|[->|[->| ->]]]]]];
    (eexists; split; [reflexivity|]; split; [reflexivity|];
     split; [reflexivity|]; split; [reflexivity|];
     intros i Hi;
     do 8 (destruct i as [|i]; [first [reflexivity | exfalso; apply Hi; reflexivity]|]);
     destruct i; reflexivity).
Qed.

Lemma newest_desire_block (dp v : list Q) :
  length dp = ((HISTORY_BUFFER_LEN + 1) * DESIRE_LEN)%nat ->
  length v = DESIRE_LEN ->
  block DESIRE_LEN HISTORY_BUFFER_LEN (skipn DESIRE_LEN dp ++ v) = v.
Proof.
  intros Hdp Hv.
  change HISTORY_BUFFER_LEN with (HISTORY_BUFFER_LEN + 1 - 1)%nat at 1.
  apply newest_block_after_push; [exact Hdp | lia | exact Hv].
Qed.

End DesireFromPlan.

(** X17. A lateral plan that asks for nothing (a desire of 0, a negative
    one, or one of DESIRE_LEN or more) never pulses: the cycle appends an
    all-zero block to the desire window and leaves [prev_desire] all
    zero. *)
Theorem no_desire_no_pulse (E : Collaborators) (sm : Sm.t)
  (st st' : Loop.t E) (l : Locals) (ev : list (Event E)) :
  shaped (Loop.model st) ->
  (Sm.desire sm <= 0)%Z \/ (Z.of_nat DESIRE_LEN <= Sm.desire sm)%Z ->
  cycle sm st = Some (st', Evaluated l, ev) ->
  block DESIRE_LEN HISTORY_BUFFER_LEN
        (Bound.desire_pulse (inputs (Loop.model st')))
  = Np.zeros DESIRE_LEN
  /\ prev_desire (Loop.model st') = Np.zeros DESIRE_LEN.
Proof.
  intros Hs Hd Hc.
  destruct (cycle_evaluated_inv sm st st' l ev Hs Hc)
    as (st1 & bm & be & ev1 & ratio & r & _ & _ & Hev & Hm & _).
  destruct (eval_self_inputs _ _ _ _ _ _ _ _ Hs (inputs_of_shaped sm) Hev)
    as (Hdp & _ & _ & Hpd).
  assert (Hz : zeroed (Inputs.desire_pulse (inputs_of sm))
               = Np.zeros DESIRE_LEN).
  { unfold inputs_of. cbn [Inputs.desire_pulse].
    destruct (vec_desire_ok (Sm.desire sm)) as (v & Hv & _).
    rewrite Hv. eapply vec_desire_none; eauto. }
  rewrite Hm, Hdp, Hpd, Hz. split; [|reflexivity].
  unfold Np.zeros. rewrite rising_zeros by apply Hs.
  replace HISTORY_BUFFER_LEN with (HISTORY_BUFFER_LEN + 1 - 1)%nat at 1
    by reflexivity.
  apply newest_block_after_push; [apply Hs | lia | apply repeat_length].
Qed.

Lemma no_desire_no_pulse_witness :
  let st := Scenario.single [Demo.frame 1 50000000] in
  shaped (Loop.model st)
  /\ (Sm.desire (Demo.snapshot (-1) false) <= 0)%Z
  /\ exists st' l ev,
       cycle (Demo.snapshot (-1) false) st = Some (st', Evaluated l, ev)
       /\ prev_desire (Loop.model st') = [0; 0; 0; 0; 0; 0; 0; 0].
Proof.
  intros st. split; [exact init_shaped|].
  assert (Hd : (Sm.desire (Demo.snapshot (-1) false) <= 0)%Z)
    by (vm_compute; discriminate).
  split; [exact Hd|].
  destruct (single_camera_cycle (Demo.snapshot (-1) false))
    as (st' & l & ev & Hc).
  exists st', l, ev. split; [exact Hc|].
  exact (proj2 (no_desire_no_pulse Demo.collaborators
                  (Demo.snapshot (-1) false) st st' l ev init_shaped
                  (or_introl Hd) Hc)).
Defined.

(** X18. A manoeuvre [d] between 1 and DESIRE_LEN-1 that the plan asks for
    after a cycle without desire pulses once, at its own index: the block
    the cycle appends has 1 at entry [d] and 0 elsewhere. *)
Theorem new_desire_pulses_at_its_index (E : Collaborators) (sm : Sm.t)
  (st st' : Loop.t E) (l : Locals) (ev : list (Event E)) :
  shaped (Loop.model st) ->
  prev_desire (Loop.model st) = Np.zeros DESIRE_LEN ->
  (1 <= Sm.desire sm < Z.of_nat DESIRE_LEN)%Z ->
  cycle sm st = Some (st', Evaluated l, ev) ->
  let pulse := block DESIRE_LEN HISTORY_BUFFER_LEN
                     (Bound.desire_pulse (inputs (Loop.model st'))) in
  length pulse = DESIRE_LEN
  /\ nth (Z.to_nat (Sm.desire sm)) pulse 0 = 1
  /\ forall i, i <> Z.to_nat (Sm.desire sm) -> nth i pulse 0 = 0.
Proof.
  intros Hs Hprev Hd Hc. cbv zeta.
  destruct (cycle_evaluated_inv sm st st' l ev Hs Hc)
    as (st1 & bm & be & ev1 & ratio & r & _ & _ & Hev & Hm & _).
  destruct (eval_self_inputs _ _ _ _ _ _ _ _ Hs (inputs_of_shaped sm) Hev)
    as (Hdp & _).
  destruct (vec_desire_some (Sm.desire sm) Hd)
    as (v & Hv & Hzv & Hlen & H1 & H0).
  assert (Hraw : Inputs.desire_pulse (inputs_of sm) = v)
    by (unfold inputs_of; cbn [Inputs.desire_pulse]; rewrite Hv; reflexivity).
  rewrite Hm, Hdp, Hraw, Hzv, Hprev. unfold Np.zeros.
  replace (repeat 0 DESIRE_LEN) with (repeat 0 (length v))
    by (rewrite Hlen; reflexivity).
  rewrite rising_from_rest by (eapply vec_desire_bits; eauto).
  rewrite newest_desire_block; [|apply Hs | exact Hlen].
  split; [exact Hlen|]. split; [exact H1 | exact H0].
Qed.

Lemma new_desire_pulses_at_its_index_witness :
  let st := Scenario.single [Demo.frame 1 50000000] in
  shaped (Loop.model st)
  /\ prev_desire (Loop.model st) = Np.zeros DESIRE_LEN
  /\ (1 <= Sm.desire (Demo.snapshot 3 false) < Z.of_nat DESIRE_LEN)%Z
  /\ exists st' l ev,
       cycle (Demo.snapshot 3 false) st = Some (st', Evaluated l, ev)
       /\ nth 3 (block DESIRE_LEN HISTORY_BUFFER_LEN
                       (Bound.desire_pulse (inputs (Loop.model st')))) 0 = 1.
Proof.
  intros st. split; [exact init_shaped|]. split; [reflexivity|].
  assert (Hd : (1 <= Sm.desire (Demo.snapshot 3 false)
                < Z.of_nat DESIRE_LEN)%Z)
    by (split; vm_compute; [discriminate | reflexivity]).
  split; [exact Hd|].
  destruct (single_camera_cycle (Demo.snapshot 3 false))
    as (st' & l & ev & Hc).
  exists st', l, ev. split; [exact Hc|].
  exact (proj1 (proj2 (new_desire_pulses_at_its_index Demo.collaborators
                         (Demo.snapshot 3 false) st st' l ev init_shaped
                         eq_refl Hd Hc))).
Defined.

(** X19. A calibration update takes effect in the cycle that sees it: both
    transforms are recomputed from the new Euler angles before [eval] is
    called, so the images of that very cycle are prepared with the new
    matrices (cast to float32, as every warp matrix is), and the flag is
    set. *)
Theorem calibration_takes_effect_at_once (E : Collaborators) (sm : Sm.t)
  (st st1 : Loop.t E) (bm be : VisionBuf E) (ev1 : list (Event E)) (ratio : Q) :
  shaped (Loop.model st) ->
  sync_frames st = (st1, Synced bm be, ev1) ->
  drop_ratio (frames_dropped_of st1) = Some ratio ->
  Sm.liveCalibration_updated sm = true ->
  let tm := update_calibration E (Sm.rpyCalib sm)
                               (Loop.main_wide_camera st) false in
  let tw := update_calibration E (Sm.rpyCalib sm) true true in
  exists st' l ev,
    cycle sm st = Some (st', Evaluated l, ev)
    /\ Loop.live_calib_seen st' = true
    /\ Loop.model_transform_main st' = tm
    /\ Loop.model_transform_extra st' = tw
    /\ In (EvPrepare MainCam bm (warp_argument tm)
                     (getCLBuffer E "input_imgs")) ev
    /\ In (EvPrepare WideCam be (warp_argument tw)
                     (getCLBuffer E "big_input_imgs")) ev.
Proof.
  intros Hs Hsy Hr Hup. cbv zeta.
  destruct (cycle_synced sm st st1 bm be ev1 ratio Hs Hsy Hr)
    as (_ & r & st' & Hev & _ & _ & _ & _ & Hm & He & Hseen & Hc).
  assert (Hcal : calibrate sm st1
                 = (update_calibration E (Sm.rpyCalib sm)
                                       (Loop.main_wide_camera st) false,
                    update_calibration E (Sm.rpyCalib sm) true true, true)).
  { destruct (sync_frames_is_set_clients st) as (m & e & b & b' & Heq).
    rewrite Hsy in Heq. cbn [fst] in Heq. rewrite Heq.
    rewrite calibrate_set_clients. unfold calibrate. rewrite Hup.
    reflexivity. }
  rewrite Hcal in *. cbn [fst snd] in *.
  destruct (eval_effects bm be _ _ _ _ _ r Hs (inputs_of_shaped sm) Hev)
    as [_ Hevents].
  cbv zeta in Hevents.
  do 3 eexists. split; [exact Hc|]. split; [exact Hseen|].
  split; [exact Hm|]. split; [exact He|].
  rewrite Hevents.
  split; apply in_or_app; right; apply in_or_app; right; cbn; tauto.
Qed.

Lemma calibration_takes_effect_at_once_witness :
  let st := Scenario.single [Demo.frame 1 50000000] in
  shaped (Loop.model st)
  /\ Sm.liveCalibration_updated (Demo.snapshot 3 true) = true
  /\ exists st' l ev,
       cycle (Demo.snapshot 3 true) st = Some (st', Evaluated l, ev)
       /\ Loop.live_calib_seen st' = true.
Proof.
  intros st. split; [exact init_shaped|]. split; [reflexivity|].
  destruct (calibration_takes_effect_at_once Demo.collaborators
              (Demo.snapshot 3 true) st (fst (fst (sync_frames st)))
              1%Z 1%Z [] (0 / (1 + 0)) init_shaped eq_refl eq_refl eq_refl)
    as (st' & l & ev & Hc & Hseen & _).
  exists st', l, ev. split; [exact Hc | exact Hseen].
Defined.

(** * Start-up: the choice of the streams (lines 115-126) *)

Section Startup.

(** [VisionStreamType], with the two of its values the file names. *)
Variable StreamType : Type.
Variable stream_eqb : StreamType -> StreamType -> bool.
Variables VISION_STREAM_ROAD VISION_STREAM_WIDE_ROAD : StreamType.

(** [x in streams]. *)
Definition available (x : StreamType) (streams : list StreamType) : bool :=
  existsb (stream_eqb x) streams.

(** Lines 116-122: [available_streams] is polled until it returns a set
    that is not empty; the argument lists what the successive polls return.
    The result is [(use_extra_client, main_wide_camera)], or [None] when
    every poll of the list came back empty. *)
Fixpoint discover_streams (polls : list (list StreamType))
  : option (bool * bool) :=
  match polls with
  | [] => None
  | [] :: rest => discover_streams rest
  | streams :: _ =>
      Some (available VISION_STREAM_WIDE_ROAD streams
            && available VISION_STREAM_ROAD streams,
            negb (available VISION_STREAM_ROAD streams))
  end.

(** Line 124. *)
Definition vipc_client_main_stream (main_wide_camera : bool) : StreamType :=
  if main_wide_camera then VISION_STREAM_WIDE_ROAD else VISION_STREAM_ROAD.

(** Line 126. *)
Definition vipc_client_extra_stream : StreamType := VISION_STREAM_WIDE_ROAD.

Hypothesis stream_eqb_spec : forall a b, stream_eqb a b = true <-> a = b.
Hypothesis road_is_not_wide : VISION_STREAM_ROAD <> VISION_STREAM_WIDE_ROAD.

Lemma available_In (x : StreamType) (streams : list StreamType) :
  available x streams = true <-> In x streams.
Proof.
  unfold available. rewrite existsb_exists. split.
  - intros (y & Hy & Heq). apply stream_eqb_spec in Heq. subst y. exact Hy.
  - intros H. exists x. split; [exact H | apply stream_eqb_spec; reflexivity].
Qed.

(** The flags lines 119-120 compute from a set of streams fit it. *)
Lemma flags_fit (streams : list StreamType) :
  let use_extra_client :=
    available VISION_STREAM_WIDE_ROAD streams
    && available VISION_STREAM_ROAD streams in
  let main_wide_camera := negb (available VISION_STREAM_ROAD streams) in
  (use_extra_client = true <->
   In VISION_STREAM_ROAD streams /\ In VISION_STREAM_WIDE_ROAD streams)
  /\ (main_wide_camera = true <-> ~ In VISION_STREAM_ROAD streams)
  /\ (use_extra_client = true ->
      main_wide_camera = false
      /\ vipc_client_main_stream main_wide_camera = VISION_STREAM_ROAD)
  /\ (vipc_client_main_stream main_wide_camera = vipc_client_extra_stream
      <-> main_wide_camera = true)
  /\ (In VISION_STREAM_ROAD streams \/ In VISION_STREAM_WIDE_ROAD streams ->
      In (vipc_client_main_stream main_wide_camera) streams).
Proof.
  cbv zeta.
  pose proof (available_In VISION_STREAM_ROAD streams) as Hroad.
  pose proof (available_In VISION_STREAM_WIDE_ROAD streams) as Hwide.
  unfold vipc_client_main_stream, vipc_client_extra_stream.
  destruct (available VISION_STREAM_ROAD streams);
    destruct (available VISION_STREAM_WIDE_ROAD streams);
    cbn [andb negb];
    repeat split; intros; try discriminate; try tauto;
    try (exfalso; tauto);
    try (exfalso; apply road_is_not_wide; assumption);
    intros HR; apply Hroad in HR; discriminate HR.
Qed.

(** Polls that all come back empty settle nothing. *)
Lemma discover_streams_empty (empties : list (list StreamType)) :
  Forall (fun s => s = []) empties -> discover_streams empties = None.
Proof.
  induction 1 as [|s empties Hs _ IH]; [reflexivity|].
  subst s. exact IH.
Qed.

(** X20. The start-up settles on the first poll that is not empty: as long
    as the polls come back empty nothing is chosen, and as soon as one
    returns streams the flags are computed from that poll, whatever later
    polls would return.  The flags fit the poll: the two-camera mode needs
    both the road and the wide stream, and then the main client is the
    road stream; the main client is the wide stream exactly when no road
    stream is there, and only then do the main and the extra client name
    the same stream; the main stream chosen is one that is available
    whenever the road or the wide stream is. *)
Theorem stream_selection (empties : list (list StreamType))
  (streams : list StreamType) (rest : list (list StreamType)) :
  Forall (fun s => s = []) empties ->
  streams <> [] ->
  discover_streams empties = None
  /\ exists use_extra_client main_wide_camera,
      discover_streams (empties ++ streams :: rest)
      = Some (use_extra_client, main_wide_camera)
      /\ (use_extra_client = true <->
          In VISION_STREAM_ROAD streams /\ In VISION_STREAM_WIDE_ROAD streams)
      /\ (main_wide_camera = true <-> ~ In VISION_STREAM_ROAD streams)
      /\ (use_extra_client = true ->
          main_wide_camera = false
          /\ vipc_client_main_stream main_wide_camera = VISION_STREAM_ROAD)
      /\ (vipc_client_main_stream main_wide_camera = vipc_client_extra_stream
          <-> main_wide_camera = true)
      /\ (In VISION_STREAM_ROAD streams \/ In VISION_STREAM_WIDE_ROAD streams ->
          In (vipc_client_main_stream main_wide_camera) streams).
Proof.
  intros He Hne. split; [exact (discover_streams_empty empties He)|].
  exists (available VISION_STREAM_WIDE_ROAD streams
          && available VISION_STREAM_ROAD streams),
         (negb (available VISION_STREAM_ROAD streams)).
  split; [|exact (flags_fit streams)].
  induction He as [|s empties Hs _ IH].
  - destruct streams as [|x streams]; [congruence | reflexivity].
  - subst s. exact IH.
Qed.

End Startup.

Lemma stream_selection_witness :
  (forall a b : nat, Nat.eqb a b = true <-> a = b)
  /\ 0%nat <> 2%nat
  /\ Forall (fun s : list nat => s = []) [[]; []]
  /\ [2%nat; 0%nat] <> []
  /\ exists use_extra_client main_wide_camera,
       discover_streams nat Nat.eqb 0%nat 2%nat [[]; []; [2%nat; 0%nat]; []]
       = Some (use_extra_client, main_wide_camera)
       /\ (use_extra_client = true ->
           vipc_client_main_stream nat 0%nat 2%nat main_wide_camera = 0%nat).
Proof.
  assert (He : Forall (fun s : list nat => s = []) [[]; []])
    by (repeat constructor).
  assert (Hne : [2%nat; 0%nat] <> []) by discriminate.
  split; [exact Nat.eqb_eq|]. split; [discriminate|].
  split; [exact He|]. split; [exact Hne|].
  destruct (stream_selection nat Nat.eqb 0%nat 2%nat Nat.eqb_eq
              (fun H : 0%nat = 2%nat => O_S _ H)
              [[]; []] [2%nat; 0%nat] [[]] He Hne)
    as (_ & u & m & Hd & _ & _ & Hdual & _).
  exists u, m. split; [exact Hd|].
  intros Hu. exact (proj2 (Hdual Hu)).
Defined.
